(** * GeoHunt: the progress / unlock engine, the badge and level rules,
      the QR payload check and the proximity gate.

    Shallow embedding of
      - backend/src/models/UserProgress.js      (calculateLevel, checkBadges)
      - backend/src/controllers/progressController.js (getProgress, unlockTreasure)
      - the admin controller                    (resetUserProgress)
      - the scanner component                   (scanQRCode)
      - the main App component                  (calculateDistance, getDistanceTo,
                                                 isNear, xpProgress)

    Modelling conventions.
      - A MongoDB ObjectId is represented by its 24-digit hexadecimal string,
        so [toString] on an id is the identity and id comparison is string
        comparison.
      - JavaScript numbers that hold point totals and levels are integers
        ([Z]); all such values in the game stay far below 2^53, where double
        arithmetic on integers is exact.
      - The [UserProgress] collection has a unique index on [user]; it is a
        finite map from the user id to the document.
      - Every handler threads the database explicitly and returns the
        response it sends.
      - Coordinates and distances are doubles.  The proximity gate is
        stated over the exact (real-number) value of the distance formula
        (module [Geo]); the formula as the code evaluates it, in IEEE
        double arithmetic, is in module [Doubles]. *)

From Stdlib Require Import Floats ZArith List String Ascii Bool Lia QArith Reals Lra Sorted.
From stdpp Require Import base option gmap strings list pretty.

Local Open Scope string_scope.
Local Open Scope list_scope.
Local Open Scope Z_scope.

(* ===================================================================== *)
(** ** Documents *)
(* ===================================================================== *)

Definition ObjectId : Type := string.

Inductive Category : Type := academic | social | sports | history.

Definition Category_eqb (a b : Category) : bool :=
  match a, b with
  | academic, academic | social, social
  | sports, sports | history, history => true
  | _, _ => false
  end.

(** models/Treasure.js.  Only the paths read by the progress code are kept
    (description, clue, trivia, the coordinates and createdAt are never
    read on the server side of an unlock). *)
Record Treasure : Type := mkTreasure {
  _id : ObjectId;
  name : string;
  points : Z;
  category : Category
}.

(** models/UserProgress.js *)
Record UserProgress : Type := mkUserProgress {
  user : ObjectId;
  unlockedTreasures : list ObjectId;
  totalPoints : Z;
  badges : list string;
  level : Z;
  missionBriefing : option string;
  updatedAt : Z
}.

Definition set_unlockedTreasures (v : list ObjectId) (p : UserProgress) :=
  mkUserProgress (user p) v (totalPoints p) (badges p) (level p)
                 (missionBriefing p) (updatedAt p).
Definition set_totalPoints (v : Z) (p : UserProgress) :=
  mkUserProgress (user p) (unlockedTreasures p) v (badges p) (level p)
                 (missionBriefing p) (updatedAt p).
Definition set_badges (v : list string) (p : UserProgress) :=
  mkUserProgress (user p) (unlockedTreasures p) (totalPoints p) v (level p)
                 (missionBriefing p) (updatedAt p).
Definition set_level (v : Z) (p : UserProgress) :=
  mkUserProgress (user p) (unlockedTreasures p) (totalPoints p) (badges p) v
                 (missionBriefing p) (updatedAt p).
Definition set_updatedAt (v : Z) (p : UserProgress) :=
  mkUserProgress (user p) (unlockedTreasures p) (totalPoints p) (badges p)
                 (level p) (missionBriefing p) v.

(** [Array.prototype.includes] on an array of strings / ids. *)
Definition includes (x : string) (l : list string) : bool :=
  existsb (String.eqb x) l.

(* ===================================================================== *)
(** ** The database *)
(* ===================================================================== *)

Record Db : Type := mkDb {
  Treasures : list Treasure;
  Progress : gmap ObjectId UserProgress
}.

(** [Treasure.findById(id)] *)
Definition findById (id : ObjectId) (coll : list Treasure) : option Treasure :=
  find (fun t => String.eqb (_id t) id) coll.

(** [Treasure.find({ category })] *)
Definition findByCategory (c : Category) (coll : list Treasure) : list Treasure :=
  List.filter (fun t => Category_eqb (category t) c) coll.

(** [UserProgress.findOne({ user })] *)
Definition findOne (u : ObjectId) (db : Db) : option UserProgress :=
  Progress db !! u.

(** [doc.save()]: the [pre('save')] hook stamps the document, then it is
    written back to the slot it was loaded from (or, for a new document,
    to the slot of its user).  The schema sets no concurrency option, so
    the write is unconditional. *)
Definition save (now : Z) (u : ObjectId) (p : UserProgress) (db : Db)
  : Db * UserProgress :=
  let p' := set_updatedAt now p in
  (mkDb (Treasures db) (<[u := p']> (Progress db)), p').

(** [UserProgress.create({ user, unlockedTreasures: [], totalPoints: 0,
    badges: [], level: 1 })] *)
Definition create (now : Z) (u : ObjectId) (db : Db) : Db * UserProgress :=
  save now u (mkUserProgress u [] 0 [] 1 None now) db.

(** The progress a request of user [u] works on: the stored document, or
    the one created on first access. *)
Definition currentProgress (now : Z) (u : ObjectId) (db : Db) : UserProgress :=
  match findOne u db with
  | Some p => p
  | None => snd (create now u db)
  end.

(** [doc.populate('unlockedTreasures')]: ids are replaced by the documents
    they refer to; ids that resolve to nothing are dropped. *)
Definition populate (coll : list Treasure) (ids : list ObjectId) : list Treasure :=
  omap (fun id => findById id coll) ids.

(* ===================================================================== *)
(** ** Instance methods of UserProgress *)
(* ===================================================================== *)

(** [calculateLevel]: sets [this.level] and returns it.
    [Math.floor(x / 200)] is [Z.div], which rounds towards minus infinity. *)
Definition calculateLevel (p : UserProgress) : UserProgress * Z :=
  let l := totalPoints p / 200 + 1 in
  (set_level l p, l).

(** [if (cond && !this.badges.includes(b)) this.badges.push(b)] *)
Definition award (cond : bool) (b : string) (p : UserProgress) : UserProgress :=
  if cond && negb (includes b (badges p))
  then set_badges (badges p ++ [b]) p
  else p.

Definition hasAllAcademic (coll : list Treasure) (p : UserProgress) : bool :=
  let academicTreasures := findByCategory academic coll in
  let academicIds := map _id academicTreasures in
  let unlockedIds := unlockedTreasures p in
  forallb (fun id => includes id unlockedIds) academicIds.

Definition hasSocial (coll : list Treasure) (p : UserProgress) : bool :=
  let socialTreasures := findByCategory social coll in
  let unlockedIds := unlockedTreasures p in
  existsb (fun t => includes (_id t) unlockedIds) socialTreasures.

(** [checkBadges]: the four rules in source order; the document is mutated
    in place and its badge array returned. *)
Definition checkBadges (coll : list Treasure) (p : UserProgress)
  : UserProgress * list string :=
  let p1 := award (1 <=? Z.of_nat (length (unlockedTreasures p))) "explorer" p in
  let academicTreasures := findByCategory academic coll in
  let p2 := award (hasAllAcademic coll p1
                   && (0 <? Z.of_nat (length academicTreasures)))
                  "scholar" p1 in
  let p3 := award (hasSocial coll p2) "socialite" p2 in
  let allTreasures := coll in
  let p4 := award ((Z.of_nat (length (unlockedTreasures p3))
                      =? Z.of_nat (length allTreasures))
                   && (0 <? Z.of_nat (length allTreasures)))
                  "master" p3 in
  (p4, badges p4).

(* ===================================================================== *)
(** ** Responses and handlers *)
(* ===================================================================== *)

(** What a handler sends: [res.status(s).json({ success: false, error })] or
    [res.status(200).json({ success: true, data, message })].  [populated]
    holds the unlocked treasure documents when the handler populated them. *)
Inductive Response : Type :=
| Error (status : Z) (error : string)
| Ok (data : UserProgress) (populated : option (list Treasure))
     (message : option string).

Definition quote : string := String (ascii_of_nat 34) EmptyString.

(** [`Unlocked "${treasure.name}" for ${treasure.points} points!`] *)
Definition unlockMessage (t : Treasure) : string :=
  ("Unlocked " ++ quote ++ name t ++ quote ++ " for "
     ++ pretty (points t) ++ " points!")%string.

(** [exports.getProgress] *)
Definition getProgress (now : Z) (db : Db) (u : ObjectId) : Db * Response :=
  match findOne u db with
  | Some progress =>
      (db, Ok progress
              (Some (populate (Treasures db) (unlockedTreasures progress)))
              None)
  | None =>
      let '(db', progress) := create now u db in
      (db', Ok progress None None)
  end.

(** The award block of [unlockTreasure] (push, add, calculateLevel,
    checkBadges) on the in-memory document. *)
Definition awardTreasure (coll : list Treasure) (treasure : Treasure)
    (progress : UserProgress) : UserProgress :=
  let p1 := set_unlockedTreasures (unlockedTreasures progress ++ [_id treasure])
                                  progress in
  let p2 := set_totalPoints (totalPoints p1 + points treasure) p1 in
  let p3 := fst (calculateLevel p2) in
  fst (checkBadges coll p3).

(** [exports.unlockTreasure], one request run without interruption.
    [treasureId] is a well-formed id (a malformed one makes [findById]
    throw a CastError, which never reaches this code). *)
Definition unlockTreasure (now : Z) (db : Db) (u : ObjectId)
    (treasureId : ObjectId) : Db * Response :=
  match findById treasureId (Treasures db) with
  | None => (db, Error 404 "Treasure not found")
  | Some treasure =>
      let '(db1, progress) :=
        match findOne u db with
        | Some p => (db, p)
        | None => create now u db
        end in
      if includes (_id treasure) (unlockedTreasures progress)
      then (db1, Error 400 "Treasure already unlocked")
      else
        let '(db2, saved) :=
          save now u (awardTreasure (Treasures db1) treasure progress) db1 in
        (db2, Ok saved
                 (Some (populate (Treasures db2) (unlockedTreasures saved)))
                 (Some (unlockMessage treasure)))
  end.

(** [exports.resetUserProgress]: [findOneAndUpdate] with [{ new: true }] and
    no upsert; it bypasses the save hook, so [updatedAt] is left alone. *)
Definition resetUserProgress (db : Db) (id : ObjectId) : Db * Response :=
  match findOne id db with
  | None => (db, Error 404 "User progress not found")
  | Some p =>
      let p' := mkUserProgress (user p) [] 0 [] 1 None (updatedAt p) in
      (mkDb (Treasures db) (<[id := p']> (Progress db)),
       Ok p' None (Some "User progress has been reset"))
  end.

(** Sum of the point values of a list of unlocked ids, resolved against
    the catalog (an id that resolves to nothing contributes 0). *)
Definition pointsOf (coll : list Treasure) (id : ObjectId) : Z :=
  match findById id coll with
  | Some t => points t
  | None => 0
  end.

Fixpoint sumPoints (coll : list Treasure) (ids : list ObjectId) : Z :=
  match ids with
  | [] => 0
  | id :: rest => pointsOf coll id + sumPoints coll rest
  end.

(* ===================================================================== *)
(** ** Requests that interleave *)
(* ===================================================================== *)

(** [unlockTreasure] is an async function: it gives up control at every
    [await], and the event loop may run another request's segment before it
    resumes.  A task is a request suspended at one of its awaits, holding
    the values of its local variables; a step runs one database operation
    and the synchronous code after it.  The three catalog queries of
    [checkBadges] are taken in one step.

    [progress.save()] does not write the in-memory document over the stored
    one: Mongoose sends the changes it has tracked since the document was
    loaded, a [$push] for what was pushed onto an array and a [$set] for a
    number that was given a different value, and the database applies them
    to the document as it is stored at that moment.  The update carries no
    condition on the document's version (the schema does not switch on
    optimistic concurrency, and a push alone only increments the version),
    so it always applies. *)
Module Interleaving.

(** The update [save] sends. *)
Record Delta : Type := mkDelta {
  pushUnlockedTreasures : list ObjectId;
  pushBadges : list string;
  setTotalPoints : option Z;
  setLevel : option Z;
  setUpdatedAt : option Z
}.

(** A path that was assigned is sent only when its value has changed. *)
Definition changed (old new : Z) : option Z :=
  if old =? new then None else Some new.

(** The changes that lead from the document as [loaded] to the document in
    memory; both arrays have only been pushed onto. *)
Definition delta (loaded progress : UserProgress) : Delta :=
  mkDelta (skipn (length (unlockedTreasures loaded)) (unlockedTreasures progress))
          (skipn (length (badges loaded)) (badges progress))
          (changed (totalPoints loaded) (totalPoints progress))
          (changed (level loaded) (level progress))
          (changed (updatedAt loaded) (updatedAt progress)).

Definition orKeep (old : Z) (new : option Z) : Z :=
  match new with Some v => v | None => old end.

(** The update applied to the stored document. *)
Definition update (d : Delta) (stored : UserProgress) : UserProgress :=
  mkUserProgress (user stored)
                 (unlockedTreasures stored ++ pushUnlockedTreasures d)
                 (orKeep (totalPoints stored) (setTotalPoints d))
                 (badges stored ++ pushBadges d)
                 (orKeep (level stored) (setLevel d))
                 (missionBriefing stored)
                 (orKeep (updatedAt stored) (setUpdatedAt d)).

Inductive Task : Type :=
| Requested (now : Z) (u : ObjectId) (treasureId : ObjectId)
    (* awaiting Treasure.findById *)
| TargetResolved (now : Z) (u : ObjectId) (treasure : Treasure)
    (* awaiting UserProgress.findOne *)
| Creating (now : Z) (u : ObjectId) (treasure : Treasure)
    (* findOne gave null: awaiting UserProgress.create *)
| Loaded (now : Z) (u : ObjectId) (treasure : Treasure) (progress : UserProgress)
    (* the document is in memory: duplicate check, then the award block *)
| Saving (now : Z) (u : ObjectId) (treasure : Treasure)
         (loaded progress : UserProgress)
    (* awaiting progress.save() and populate; [loaded] is the document as
       it came from the database, [progress] the one in memory *)
| Responded (r : Response).

Definition step (db : Db) (t : Task) : Db * Task :=
  match t with
  | Requested now u treasureId =>
      match findById treasureId (Treasures db) with
      | None => (db, Responded (Error 404 "Treasure not found"))
      | Some treasure => (db, TargetResolved now u treasure)
      end
  | TargetResolved now u treasure =>
      match findOne u db with
      | Some p => (db, Loaded now u treasure p)
      | None => (db, Creating now u treasure)
      end
  | Creating now u treasure =>
      match findOne u db with
      | Some _ =>
          (* unique index on user: E11000, turned into a 400 by errorHandler *)
          (db, Responded (Error 400 "Duplicate field value entered"))
      | None =>
          let '(db1, p) := create now u db in (db1, Loaded now u treasure p)
      end
  | Loaded now u treasure progress =>
      if includes (_id treasure) (unlockedTreasures progress)
      then (db, Responded (Error 400 "Treasure already unlocked"))
      else (db, Saving now u treasure progress
                       (awardTreasure (Treasures db) treasure progress))
  | Saving now u treasure loaded progress =>
      (* the save hook stamps the document in memory, then the changes go
         to the stored document; the answer carries the one in memory *)
      let saved := set_updatedAt now progress in
      match findOne u db with
      | Some stored =>
          (mkDb (Treasures db)
                (<[u := update (delta loaded saved) stored]> (Progress db)),
           Responded (Ok saved
                         (Some (populate (Treasures db) (unlockedTreasures saved)))
                         (Some (unlockMessage treasure))))
      | None =>
          (* no request of this module removes a record, so this is never
             reached from [Requested]; Mongoose raises a VersionError, which
             the error handler answers with 500 and the error's text
             (shortened here) *)
          (db, Responded (Error 500 "No matching document found"))
      end
  | Responded r => (db, t)
  end.

(** Two requests in flight; a schedule says whose segment runs next
    ([false]: the first request, [true]: the second). *)
Fixpoint run2 (sched : list bool) (db : Db) (a b : Task) : Db * Task * Task :=
  match sched with
  | [] => (db, a, b)
  | false :: rest => let '(db', a') := step db a in run2 rest db' a' b
  | true :: rest => let '(db', b') := step db b in run2 rest db' a b'
  end.

(** One request run alone for [n] segments. *)
Fixpoint run1 (n : nat) (db : Db) (a : Task) : Db * Task :=
  match n with
  | O => (db, a)
  | S k => let '(db', a') := step db a in run1 k db' a'
  end.

Definition isAwarded (t : Task) : bool :=
  match t with Responded (Ok _ _ _) => true | _ => false end.

Definition isAlreadyUnlocked (t : Task) : bool :=
  match t with
  | Responded (Error status error) =>
      (status =? 400) && String.eqb error "Treasure already unlocked"
  | _ => false
  end.

End Interleaving.

(* ===================================================================== *)
(** ** The scanner: checking a decoded QR payload *)
(* ===================================================================== *)

Module Scanner.

Fixpoint dropChars (n : nat) (s : string) : string :=
  match n, s with
  | O, _ => s
  | S _, EmptyString => EmptyString
  | S k, String _ s' => dropChars k s'
  end.

(** [s.startsWith(pre)] *)
Definition startsWith (s pre : string) : bool := String.prefix pre s.

(** [s.replace(pat, rep)] with a string pattern: the first occurrence of
    [pat] is replaced, the rest is kept.  ([rep] is used literally; the one
    call in the scanner passes the empty string.) *)
Fixpoint replace (pat rep s : string) : string :=
  if String.prefix pat s
  then (rep ++ dropChars (String.length pat) s)%string
  else match s with
       | EmptyString => EmptyString
       | String c s' => String c (replace pat rep s')
       end.

(** What one frame of [scanQRCode] concludes, with the status it shows:
    [NoCode]    'Scanning for QR code...'
    [Match]     success, [onScan(treasureId)] is scheduled
    [Mismatch]  'Wrong QR code! Find the right marker.'
    [Malformed] 'Not a GeoHunt QR code' *)
Inductive ScanOutcome : Type :=
| NoCode
| Match (treasureId : string)
| Mismatch
| Malformed.

(** The body of [if (code && code.data) ... else ...]; [code] is what jsQR
    returned ([None] for null), reduced to its [data] string. *)
Definition scanQRCode (code : option string) (targetId : string) : ScanOutcome :=
  match code with
  | None => NoCode
  | Some data =>
      if String.eqb data "" then NoCode       (* the empty string is falsy *)
      else if startsWith data "geohunt:" then
        let treasureId := replace "geohunt:" "" data in
        if String.eqb treasureId targetId then Match treasureId else Mismatch
      else Malformed
  end.

End Scanner.

(* ===================================================================== *)
(** ** The status bar *)
(* ===================================================================== *)

Module StatusBar.

(** [x || 0] on a number that may be undefined. *)
Definition orZero (x : option Z) : Z :=
  match x with
  | Some n => if n =? 0 then 0 else n
  | None => 0
  end.

(** [((userProgress?.totalPoints || 0) % 250) / 2.5]: the width of the XP
    bar in percent.  [%] truncates towards zero ([Z.rem]); the quotient by
    2.5 is kept as a rational. *)
Definition xpProgress (totalPoints : option Z) : Q :=
  (inject_Z (Z.rem (orZero totalPoints) 250) / (5 # 2))%Q.

(** [{userProgress.totalPoints % 250}/250 XP]: numerator and denominator
    of the label. *)
Definition xpLabel (totalPoints : Z) : Z * Z := (Z.rem totalPoints 250, 250).

End StatusBar.

(* ===================================================================== *)
(** ** Distance and the proximity gate *)
(* ===================================================================== *)

(** Coordinates and distances are JavaScript doubles in the source; here
    they are real numbers, and [Math.sin], [Math.cos], [Math.sqrt],
    [Math.atan2] and [Math.PI] are the real functions and constant they
    approximate.  [Infinity], the value [getDistanceTo] returns without a
    position, is a constructor of its own.  What the doubles themselves do
    is the subject of module [Doubles]. *)
Module Geo.

Local Open Scope R_scope.

(** [Math.atan2(y, x)] *)
Definition atan2 (y x : R) : R :=
  if Rlt_dec 0 x then atan (y / x)
  else if Rlt_dec x 0 then
         (if Rle_dec 0 y then atan (y / x) + PI else atan (y / x) - PI)
  else if Rlt_dec 0 y then PI / 2
  else if Rlt_dec y 0 then - (PI / 2)
  else 0.

(** The haversine argument [a] of [calculateDistance]. *)
Definition haversine (lat1 lon1 lat2 lon2 : R) : R :=
  let phi1 := lat1 * PI / 180 in
  let phi2 := lat2 * PI / 180 in
  let dphi := (lat2 - lat1) * PI / 180 in
  let dlambda := (lon2 - lon1) * PI / 180 in
  sin (dphi / 2) * sin (dphi / 2)
  + cos phi1 * cos phi2 * sin (dlambda / 2) * sin (dlambda / 2).

(** [calculateDistance] of the App component:
    [return R * 2 * Math.atan2(Math.sqrt(a), Math.sqrt(1 - a))] with
    [R = 6371e3]. *)
Definition calculateDistance (lat1 lon1 lat2 lon2 : R) : R :=
  let R := 6371000 in
  let a := haversine lat1 lon1 lat2 lon2 in
  R * 2 * atan2 (sqrt a) (sqrt (1 - a)).

(** [pos.coords] of the geolocation watch. *)
Record Coordinates : Type := mkCoordinates {
  coords_latitude : R;
  coords_longitude : R
}.

(** The client-side [Treasure], reduced to what the gate reads. *)
Record Treasure : Type := mkTreasure {
  id : string;
  latitude : R;
  longitude : R
}.

Inductive Distance : Type :=
| Meters (d : R)
| Infinity.

(** [getDistanceTo]: [if (!userLocation) return Infinity] *)
Definition getDistanceTo (userLocation : option Coordinates) (treasure : Treasure)
  : Distance :=
  match userLocation with
  | None => Infinity
  | Some loc =>
      Meters (calculateDistance (coords_latitude loc) (coords_longitude loc)
                                (latitude treasure) (longitude treasure))
  end.

(** [d < 50] on a distance; [Infinity < 50] is false. *)
Definition ltMeters (d : Distance) (bound : R) : bool :=
  match d with
  | Meters x => if Rlt_dec x bound then true else false
  | Infinity => false
  end.

(** [isNear]: [getDistanceTo(treasure) < 50] *)
Definition isNear (userLocation : option Coordinates) (treasure : Treasure) : bool :=
  ltMeters (getDistanceTo userLocation treasure) 50.

(** A player standing at latitude 0, longitude 0, and a treasure on the
    equator [d] metres of arc east of that point. *)
Definition origin : Coordinates := mkCoordinates 0 0.

Definition markerAt (d : R) : Treasure :=
  mkTreasure "marker" 0 (d / 6371000 * 180 / PI).

End Geo.

(* ===================================================================== *)
(** ** Specification predicates and fixtures *)
(* ===================================================================== *)

(** The four rules of [checkBadges], by the identifiers the code pushes. *)
Definition earns (coll : list Treasure) (unlocked : list ObjectId) (b : string)
  : Prop :=
  (b = "explorer" /\ (1 <= length unlocked)%nat) \/
  (b = "scholar" /\
     (forall t, In t coll -> category t = academic -> In (_id t) unlocked) /\
     (exists t, In t coll /\ category t = academic)) \/
  (b = "socialite" /\
     exists t, In t coll /\ category t = social /\ In (_id t) unlocked) \/
  (b = "master" /\ length unlocked = length coll /\ coll <> []).

(** The five-treasure catalog of the end-to-end scenario, a player who has
    found the first treasure, and a player who has found them all. *)
Definition demoCatalog : list Treasure :=
  [ mkTreasure "t1" "Library" 100 academic;
    mkTreasure "t2" "Physics Lab" 150 academic;
    mkTreasure "t3" "Student Union" 80 social;
    mkTreasure "t4" "Old Gate" 200 history;
    mkTreasure "t5" "Stadium" 120 sports ].

Definition demoDb : Db :=
  mkDb demoCatalog
       {[ "u1" := mkUserProgress "u1" ["t1"] 100 ["explorer"] 1 None 7 ]}.

Definition allUnlocked : UserProgress :=
  mkUserProgress "u1" ["t1"; "t2"; "t3"; "t4"; "t5"] 650 [] 4 None 0.

(** Two requests taking turns, one segment each. *)
Definition raceSchedule : list bool :=
  [false; true; false; true; false; true; false; true].

(** Unlocking a list of treasures one request after the other. *)
Fixpoint unlockEach (now : Z) (db : Db) (u : ObjectId) (ids : list ObjectId)
  : Db :=
  match ids with
  | [] => db
  | tid :: rest => unlockEach (now + 1) (fst (unlockTreasure now db u tid)) u rest
  end.

(* ===================================================================== *)
(** ** More handlers over the same database *)
(* ===================================================================== *)

Definition set_missionBriefing (v : option string) (p : UserProgress) :=
  mkUserProgress (user p) (unlockedTreasures p) (totalPoints p) (badges p)
                 (level p) v (updatedAt p).

(** A response whose [data] is not a progress document:
    [res.status(s).json({ success: false, error })] or
    [res.status(s).json({ success: true, data, message })]. *)
Inductive Reply (A : Type) : Type :=
| Rejected (status : Z) (error : string)
| Sent (status : Z) (data : A) (message : option string).

Arguments Rejected {A} status error.
Arguments Sent {A} status data message.

(** [exports.updateBriefing]: [findOneAndUpdate({ user }, { missionBriefing },
    { new: true, runValidators: true }).populate('unlockedTreasures')].
    There is no upsert and no null check: without a record the handler
    answers 200 with [data: null].  The save hook does not run. *)
Definition updateBriefing (db : Db) (u : ObjectId) (missionBriefing : string)
  : Db * Reply (option (UserProgress * list Treasure)) :=
  match findOne u db with
  | None => (db, Sent 200 None None)
  | Some p =>
      let p' := set_missionBriefing (Some missionBriefing) p in
      (mkDb (Treasures db) (<[u := p']> (Progress db)),
       Sent 200 (Some (p', populate (Treasures db) (unlockedTreasures p'))) None)
  end.

(** [{ $pull: { unlockedTreasures: id } }]: every occurrence goes. *)
Definition pull (id : ObjectId) (ids : list ObjectId) : list ObjectId :=
  List.filter (fun x => negb (String.eqb x id)) ids.

(** [Treasure.findByIdAndDelete(id)]: the document with that id goes. *)
Fixpoint findByIdAndDelete (id : ObjectId) (coll : list Treasure) : list Treasure :=
  match coll with
  | [] => []
  | t :: rest =>
      if String.eqb (_id t) id then rest else t :: findByIdAndDelete id rest
  end.

(** [exports.deleteTreasure]: 404 for an unknown id; otherwise
    [UserProgress.updateMany({}, { $pull: ... })], then the treasure is
    deleted.  Points, levels and badges are not touched. *)
Definition deleteTreasure (db : Db) (id : ObjectId) : Db * Reply unit :=
  match findById id (Treasures db) with
  | None => (db, Rejected 404 "Treasure not found")
  | Some treasure =>
      let pulled :=
        (fun p => set_unlockedTreasures
                    (pull (_id treasure) (unlockedTreasures p)) p)
          <$> Progress db in
      (mkDb (findByIdAndDelete id (Treasures db)) pulled, Sent 200 tt None)
  end.

(** The requests a player (or, for the reset, an admin) can send to the
    progress record, and a server that answers them one after the other. *)
Inductive Request : Type :=
| GetProgress (now : Z) (u : ObjectId)
| UnlockTreasure (now : Z) (u : ObjectId) (treasureId : ObjectId)
| UpdateBriefing (u : ObjectId) (missionBriefing : string)
| ResetUserProgress (u : ObjectId).

Definition handle (db : Db) (r : Request) : Db :=
  match r with
  | GetProgress now u => fst (getProgress now db u)
  | UnlockTreasure now u treasureId => fst (unlockTreasure now db u treasureId)
  | UpdateBriefing u b => fst (updateBriefing db u b)
  | ResetUserProgress u => fst (resetUserProgress db u)
  end.

Definition serve (db : Db) (rs : list Request) : Db := fold_left handle rs db.

(** The derived-state invariants of one progress record against a catalog. *)
Definition pointsConsistent (coll : list Treasure) (p : UserProgress) : Prop :=
  totalPoints p = sumPoints coll (unlockedTreasures p) /\
  level p = totalPoints p / 200 + 1 /\
  NoDup (unlockedTreasures p) /\
  (forall id, In id (unlockedTreasures p) -> exists t, findById id coll = Some t).

Definition badgesConsistent (coll : list Treasure) (p : UserProgress) : Prop :=
  NoDup (badges p) /\
  (forall b, In b (badges p) <-> earns coll (unlockedTreasures p) b).

Definition consistent (db : Db) : Prop :=
  forall u p, findOne u db = Some p ->
              pointsConsistent (Treasures db) p /\ badgesConsistent (Treasures db) p.

(** Every stored record satisfies the invariants on points, level and the
    unlocked list; nothing is asked of the badges. *)
Definition pointsKept (db : Db) : Prop :=
  forall u p, findOne u db = Some p -> pointsConsistent (Treasures db) p.

(** A database whose record has the right total and level but carries a
    badge its list does not earn (as after a change of the catalog). *)
Definition staleDb : Db :=
  mkDb demoCatalog
       {[ "u1" := mkUserProgress "u1" ["t1"] 100 ["explorer"; "master"] 1 None 7 ]}.

(** The owner of a suspended request ([None] once it has answered). *)
Definition owner (t : Interleaving.Task) : option ObjectId :=
  match t with
  | Interleaving.Requested _ u _ | Interleaving.TargetResolved _ u _
  | Interleaving.Creating _ u _ | Interleaving.Loaded _ u _ _
  | Interleaving.Saving _ u _ _ _ => Some u
  | Interleaving.Responded _ => None
  end.

Definition turns (who : bool) (sched : list bool) : nat :=
  length (List.filter (Bool.eqb who) sched).

(** Two databases look the same to the requests of player [u]. *)
Definition agree (u : ObjectId) (d1 d2 : Db) : Prop :=
  Treasures d1 = Treasures d2 /\ Progress d1 !! u = Progress d2 !! u.

(** A mixed sequence of requests of two players. *)
Definition demoRequests : list Request :=
  [ GetProgress 1 "u1"; UnlockTreasure 2 "u1" "t3"; UnlockTreasure 3 "u2" "t1";
    UnlockTreasure 4 "u1" "t3"; UpdateBriefing "u1" "Welcome";
    ResetUserProgress "u2"; UnlockTreasure 5 "u1" "t1"; UnlockTreasure 6 "u2" "t9";
    UnlockTreasure 7 "u2" "t4" ].

(* ===================================================================== *)
(** ** The client: printed codes, the map view, the App component *)
(* ===================================================================== *)

Module AdminPanel.

(** The text the admin panel asks the QR service to encode for a treasure:
    [`geohunt:${t._id}`]. *)
Definition qrData (treasureId : ObjectId) : string :=
  ("geohunt:" ++ treasureId)%string.

End AdminPanel.

(** The distance code on the numbers it runs on.  [+], [-], [*], [/],
    [<] and [Math.sqrt] are the IEEE double operations; [Math.PI] is the
    double nearest to pi; [6371e3], [180], [2] and [1] are exact.
    [Math.sin], [Math.cos] and [Math.atan2] are left to the engine by the
    language standard (an approximation of its choice), so the code is
    embedded over a [MathObject] that supplies them. *)
Module Doubles.
Local Open Scope float_scope.

Record MathObject : Type := mkMath {
  sin : float -> float;
  cos : float -> float;
  atan2 : float -> float -> float
}.

(** [Math.PI] *)
Definition PI : float := 0x1.921fb54442d18p+1.

(** The haversine argument [a], the same expression in both copies of
    [calculateDistance]. *)
Definition haversine (Math : MathObject) (lat1 lon1 lat2 lon2 : float) : float :=
  let phi1 := lat1 * PI / 180 in
  let phi2 := lat2 * PI / 180 in
  let dphi := (lat2 - lat1) * PI / 180 in
  let dlambda := (lon2 - lon1) * PI / 180 in
  sin Math (dphi / 2) * sin Math (dphi / 2)
  + cos Math phi1 * cos Math phi2 * sin Math (dlambda / 2) * sin Math (dlambda / 2).

(** [calculateDistance] of the App component:
    [return R * 2 * Math.atan2(Math.sqrt(a), Math.sqrt(1 - a))]. *)
Definition calculateDistance (Math : MathObject) (lat1 lon1 lat2 lon2 : float)
  : float :=
  let R := 6371e3 in
  let a := haversine Math lat1 lon1 lat2 lon2 in
  R * 2 * atan2 Math (PrimFloat.sqrt a) (PrimFloat.sqrt (1 - a)).

(** [calculateDistance] of the map view:
    [const c = 2 * Math.atan2(...); return R * c]. *)
Definition calculateDistanceMap (Math : MathObject) (lat1 lon1 lat2 lon2 : float)
  : float :=
  let R := 6371e3 in
  let a := haversine Math lat1 lon1 lat2 lon2 in
  let c := 2 * atan2 Math (PrimFloat.sqrt a) (PrimFloat.sqrt (1 - a)) in
  R * c.

(** The client-side [Treasure], reduced to what the map view reads. *)
Record Treasure : Type := mkTreasure {
  id : string;
  latitude : float;
  longitude : float
}.

(** A stand-in for the engine's [Math] in the examples.  At the arguments
    the examples reach it returns the double nearest to the exact value
    (the sine of 0, of -2.5 degrees and of -90 degrees, the cosine of 0 and
    of 2.5 degrees either way, the angle of the point (1, 0)), and it passes
    NaN on through [atan2] as the language standard demands; it is not
    tabulated anywhere else and answers NaN there. *)
Definition exampleMath : MathObject :=
  mkMath
    (fun x => if x =? 0 then x
              else if x =? -0x1.657184ae74487p-5 then -0x1.65547c4694e11p-5
              else if x =? -0x1.921fb54442d18p+0 then -1
              else nan)
    (fun x => if x =? 0 then 1
              else if abs x =? 0x1.657184ae74487p-5 then 0x1.ff833f9da45f7p-1
              else nan)
    (fun y x => if is_nan y || is_nan x then nan
                else if (y =? 0) && (0 <? x) then y
                else nan).

(** A treasure at the player's own position (2.5 N, 0 E) and one on the
    other side of the globe. *)
Definition here : Treasure := mkTreasure "here" 2.5 0.
Definition antipode : Treasure := mkTreasure "antipode" (-2.5) (-180).

End Doubles.

Module MapView.
Import Doubles.
Local Open Scope float_scope.

(** [treasures.filter(t => !unlockedIds.includes(t.id))] *)
Definition lockedTreasures (treasures : list Treasure) (unlockedIds : list string)
  : list Treasure :=
  List.filter (fun t => negb (includes (id t) unlockedIds)) treasures.

(** The distance the map view computes from [userPos] to a treasure:
    [calculateDistance(userPos[0], userPos[1], t.latitude, t.longitude)]. *)
Definition distanceTo (Math : MathObject) (userPos : float * float) (t : Treasure)
  : float :=
  calculateDistanceMap Math (fst userPos) (snd userPos) (latitude t) (longitude t).

(** One round of the [forEach] of [nearestTreasure]:
    [if (dist < minDist) { minDist = dist; nearest = t; }] *)
Definition closer (Math : MathObject) (userPos : float * float)
    (acc : Treasure * float) (t : Treasure) : Treasure * float :=
  let dist := distanceTo Math userPos t in
  if dist <? snd acc then (t, dist) else acc.

(** [nearestTreasure]: null without a position or without a locked
    treasure; otherwise the scan starts from the first locked treasure and
    runs over all of them. *)
Definition nearestTreasure (Math : MathObject) (userPos : option (float * float))
    (treasures : list Treasure) (unlockedIds : list string)
  : option (Treasure * float) :=
  match userPos with
  | None => None
  | Some pos =>
      match lockedTreasures treasures unlockedIds with
      | [] => None
      | first :: rest =>
          let minDist := distanceTo Math pos first in
          Some (fold_left (closer Math pos) (first :: rest) (first, minDist))
      end
  end.

End MapView.

Module App.

(** [nearbyCount]:
    [treasures.filter(t => isNear(t) && !unlockedIds.includes(t.id)).length] *)
Definition nearbyCount (userLocation : option Geo.Coordinates)
    (treasures : list Geo.Treasure) (unlockedIds : list string) : nat :=
  length (List.filter
            (fun t => Geo.isNear userLocation t
                      && negb (includes (Geo.id t) unlockedIds))
            treasures).

(** The action button of the treasure dialog: rendered only for a treasure
    that is not unlocked, and [disabled={!isNear(selectedTreasure)}]. *)
Inductive ScanButton : Type := NotRendered | Disabled | Enabled.

Definition scanButton (userLocation : option Geo.Coordinates)
    (unlockedTreasureIds : list string) (selectedTreasure : Geo.Treasure)
  : ScanButton :=
  if includes (Geo.id selectedTreasure) unlockedTreasureIds then NotRendered
  else if Geo.isNear userLocation selectedTreasure then Enabled else Disabled.

(** The part of the App state the unlock handler decides on: the ids of
    the [treasures] array, the [userProgress] fields it replaces, and the
    two flags it sets.  (The [isUnlocked] display flags, the selected
    treasure and the toasts, which it also updates, are left out.) *)
Record State : Type := mkState {
  treasureIds : list string;
  unlockedTreasureIds : list string;
  clientPoints : Z;
  clientBadges : list string;
  clientLevel : Z;
  isScannerOpen : bool;
  showCompletion : bool
}.

(** [progressAPI.unlockTreasure(id)] seen from the client: the request
    either resolves with the response body or throws ([apiRequest] throws
    on every non-OK status). *)
Definition callUnlock (now : Z) (server : Db) (u : ObjectId) (treasureId : string)
  : Db * option (UserProgress * list Treasure) :=
  match unlockTreasure now server u treasureId with
  | (server', Ok data (Some populated) _) => (server', Some (data, populated))
  | (server', _) => (server', None)
  end.

(** [const unlockTreasure = async (id) => ...] of the App component.  The
    request is sent only for a treasure of the local list that is not in
    the local unlocked ids; on success the progress fields are replaced by
    the response, the scanner closes, and the completion screen is
    scheduled when every treasure of the local list is unlocked.  On a
    thrown error only a toast is shown. *)
Definition onScan (now : Z) (server : Db) (u : ObjectId) (st : State) (id : string)
  : Db * State :=
  if includes id (treasureIds st) && negb (includes id (unlockedTreasureIds st))
  then
    match callUnlock now server u id with
    | (server', Some (prog, populated)) =>
        let newUnlockedIds := map _id populated in
        (server',
         mkState (treasureIds st) newUnlockedIds (totalPoints prog) (badges prog)
                 (level prog) false
                 (if (Nat.eqb (length newUnlockedIds) (length (treasureIds st)))
                     && (0 <? Z.of_nat (length (treasureIds st)))
                  then true else showCompletion st))
    | (server', None) => (server', st)
    end
  else (server, st).

(** The client mirrors the server: its treasure list is the catalog and
    its unlocked ids are those of the player's stored record (none without
    a record). *)
Definition inSync (server : Db) (u : ObjectId) (st : State) : Prop :=
  treasureIds st = map _id (Treasures server) /\
  unlockedTreasureIds st
  = map _id (populate (Treasures server)
               (match findOne u server with
                | Some p => unlockedTreasures p
                | None => []
                end)).

End App.

Definition isEnabled (b : App.ScanButton) : bool :=
  match b with App.Enabled => true | _ => false end.

(** A client that mirrors [demoDb] for player u1. *)
Definition demoClient : App.State :=
  App.mkState ["t1"; "t2"; "t3"; "t4"; "t5"] ["t1"] 100 ["explorer"] 1 true false.

(* ===================================================================== *)
(** ** Users, access control, registration and the leaderboard *)
(* ===================================================================== *)

(** models/User.js.  The document id is the key under which the user is
    stored.  [password] is the stored hash, which only admins have. *)
Record User : Type := mkUser {
  username : string;
  playerId : option string;
  playerNumber : option Z;
  email : option string;
  password : option string;
  role : string;
  createdAt : Z
}.

Definition set_role (v : string) (usr : User) : User :=
  mkUser (username usr) (playerId usr) (playerNumber usr) (email usr)
         (password usr) v (createdAt usr).

(** What a query hands out of a stored user: the schema declares [password]
    with [select: false], so the field is left out unless the query asks
    for it; [.select('-password')] leaves it out as well. *)
Definition withoutPassword (usr : User) : User :=
  mkUser (username usr) (playerId usr) (playerNumber usr) (email usr)
         None (role usr) (createdAt usr).

(** The whole server state: the game database, the users, and the value
    of the 'playerCount' counter document (0 while it does not exist). *)
Record Server : Type := mkServer {
  store : Db;
  Users : gmap ObjectId User;
  playerCount : Z
}.

(** *** middleware/auth.js *)

(** [s.split(sep)] for a one-character separator. *)
Fixpoint split (sep : ascii) (s : string) : list string :=
  match s with
  | EmptyString => [EmptyString]
  | String c rest =>
      if Ascii.eqb c sep then EmptyString :: split sep rest
      else match split sep rest with
           | [] => [String c EmptyString]
           | piece :: pieces => String c piece :: pieces
           end
  end.

(** The token [protect] reads from the Authorization header:
    [header.split(' ')[1]] when the header is there and starts with
    'Bearer'; an absent or empty token is no token. *)
Definition bearerToken (authorization : option string) : option string :=
  match authorization with
  | None => None
  | Some header =>
      if negb (String.eqb header "") && Scanner.startsWith header "Bearer"
      then match nth_error (split " " header) 1 with
           | Some token => if String.eqb token "" then None else Some token
           | None => None
           end
      else None
  end.

(** What a middleware decides: the request is answered at once, or it goes
    on with [req.user] set. *)
Inductive Access : Type :=
| Denied (status : Z) (error : string)
| Granted (id : ObjectId) (user : User).

(** [exports.protect].  [verify] stands for [jwt.verify] with the server's
    secret: the id carried by a token it accepts, [None] when it throws.
    [req.user] is what [User.findById] returns, the user without its
    password. *)
Definition protect (verify : string -> option ObjectId)
    (users : gmap ObjectId User) (authorization : option string) : Access :=
  match bearerToken authorization with
  | None => Denied 401 "Not authorized to access this route"
  | Some token =>
      match verify token with
      | None => Denied 401 "Not authorized to access this route"
      | Some id =>
          match users !! id with
          | None => Denied 401 "User not found"
          | Some usr => Granted id (withoutPassword usr)
          end
      end
  end.

(** [exports.authorize(...roles)], placed after [protect]. *)
Definition authorize (roles : list string) (a : Access) : Access :=
  match a with
  | Denied status error => Denied status error
  | Granted id usr =>
      if includes (role usr) roles then Granted id usr
      else Denied 403 ("User role '" ++ role usr
                       ++ "' is not authorized to access this route")%string
  end.

(** routes/admin.js: [router.use(protect); router.use(authorize('admin'))]
    in front of every admin handler.  The handler receives [req.user.id]. *)
Definition adminRoute {A : Type} (verify : string -> option ObjectId)
    (handler : ObjectId -> Server -> Server * Reply A)
    (srv : Server) (authorization : option string) : Server * Reply A :=
  match authorize ["admin"] (protect verify (Users srv) authorization) with
  | Denied status error => (srv, Rejected status error)
  | Granted id _ => handler id srv
  end.

(** The Authorization header [apiRequest] sends:
    [...(token && { Authorization: `Bearer ${token}` })]. *)
Definition authorizationHeader (token : option string) : option string :=
  match token with
  | None => None
  | Some t => if String.eqb t "" then None else Some ("Bearer " ++ t)%string
  end.

(** *** The admin controller, user management *)

(** [exports.deleteUser]; [requester] is [req.user.id]. *)
Definition deleteUser (id : ObjectId) (requester : ObjectId) (srv : Server)
  : Server * Reply unit :=
  match Users srv !! id with
  | None => (srv, Rejected 404 "User not found")
  | Some _ =>
      if String.eqb id requester
      then (srv, Rejected 400 "Cannot delete yourself")
      else
        (mkServer (mkDb (Treasures (store srv)) (delete id (Progress (store srv))))
                  (delete id (Users srv)) (playerCount srv),
         Sent 200 tt None)
  end.

(** [exports.updateUserRole]: [findByIdAndUpdate(id, { role }, { new: true,
    runValidators: true }).select('-password')]; the answer carries the
    updated user without its password. *)
Definition updateUserRole (id : ObjectId) (newRole : string) (srv : Server)
  : Server * Reply User :=
  if negb (includes newRole ["user"; "admin"])
  then (srv, Rejected 400 "Invalid role. Must be user or admin")
  else
    match Users srv !! id with
    | None => (srv, Rejected 404 "User not found")
    | Some usr =>
        let usr' := set_role newRole usr in
        (mkServer (store srv) (<[id := usr']> (Users srv)) (playerCount srv),
         Sent 200 (withoutPassword usr') None)
    end.

(** The admin routes for these two handlers and for the progress reset. *)
Definition deleteUserRoute (verify : string -> option ObjectId)
    (srv : Server) (authorization : option string) (id : ObjectId) :=
  adminRoute verify (deleteUser id) srv authorization.

Definition updateUserRoleRoute (verify : string -> option ObjectId)
    (srv : Server) (authorization : option string) (id : ObjectId) (newRole : string) :=
  adminRoute verify (fun _ => updateUserRole id newRole) srv authorization.

(** *** controllers/authController.js *)

Definition isWhiteSpace (c : ascii) : bool :=
  let n := nat_of_ascii c in
  ((9 <=? n) && (n <=? 13))%nat || (n =? 32)%nat.

Fixpoint trimStart (s : string) : string :=
  match s with
  | EmptyString => EmptyString
  | String c rest => if isWhiteSpace c then trimStart rest else s
  end.

Fixpoint trimEnd (s : string) : string :=
  match s with
  | EmptyString => EmptyString
  | String c rest =>
      match trimEnd rest with
      | EmptyString => if isWhiteSpace c then EmptyString else String c EmptyString
      | kept => String c kept
      end
  end.

(** [s.trim()], on ASCII text. *)
Definition trim (s : string) : string := trimEnd (trimStart s).

Definition lowerChar (c : ascii) : ascii :=
  let n := nat_of_ascii c in
  if ((65 <=? n) && (n <=? 90))%nat then ascii_of_nat (n + 32) else c.

(** [s.toLowerCase()], on ASCII text. *)
Fixpoint toLowerCase (s : string) : string :=
  match s with
  | EmptyString => EmptyString
  | String c rest => String (lowerChar c) (toLowerCase rest)
  end.

Definition isLowerAlnum (c : ascii) : bool :=
  let n := nat_of_ascii c in
  ((97 <=? n) && (n <=? 122))%nat || ((48 <=? n) && (n <=? 57))%nat.

Fixpoint keepChars (keep : ascii -> bool) (s : string) : string :=
  match s with
  | EmptyString => EmptyString
  | String c rest =>
      if keep c then String c (keepChars keep rest) else keepChars keep rest
  end.

(** [username.toLowerCase().replace(/[^a-z0-9]/g, '')] *)
Definition cleanUsername (name : string) : string :=
  keepChars isLowerAlnum (toLowerCase name).

(** [`${cleanUsername}${playerNumber}`] *)
Definition makePlayerId (name : string) (playerNumber : Z) : string :=
  (cleanUsername name ++ pretty playerNumber)%string.

(** [User.findOne({ playerId })] *)
Definition findUserByPlayerId (pid : string) (users : gmap ObjectId User)
  : option (ObjectId * User) :=
  List.find (fun kv => match playerId (snd kv) with
                       | Some p => String.eqb p pid
                       | None => false
                       end)
            (map_to_list users).

(** The body of an auth response: [error] is a text, or the list of
    validator messages the error handler puts there. *)
Inductive AuthReply : Type :=
| AuthRejected (status : Z) (error : string + list string)
| AuthSent (status : Z) (token : string) (isNewUser : bool)
           (id : ObjectId) (name : string) (pid : option string)
           (number : option Z) (message : option string).

Definition welcomeMessage (name pid : string) : string :=
  ("Welcome " ++ name ++ "! Your unique Player ID is " ++ pid
   ++ ". Remember this to log back in!")%string.

(** [exports.register].  [sign] stands for [getSignedJwtToken], [newId] for
    the id the driver gives the new user document.  The counter is
    incremented before the user is created, and stays incremented when the
    creation fails (a name of more than 30 characters fails validation; a
    player id or document id already in use hits a unique index, which the
    error handler reports as 'Duplicate field value entered'). *)
Definition register (sign : ObjectId -> string) (now : Z) (newId : ObjectId)
    (srv : Server) (name : option string) : Server * AuthReply :=
  match name with
  | None => (srv, AuthRejected 400 (inl "Please provide a username"))
  | Some name =>
      if String.eqb name "" || (String.length (trim name) =? 0)%nat
      then (srv, AuthRejected 400 (inl "Please provide a username"))
      else
        let number := playerCount srv + 1 in
        let counted := mkServer (store srv) (Users srv) number in
        let pid := makePlayerId name number in
        if (30 <? String.length (trim name))%nat
        then (counted,
              AuthRejected 400 (inr ["Username cannot be more than 30 characters"]))
        else
          match Users srv !! newId, findUserByPlayerId pid (Users srv) with
          | None, None =>
              let usr := mkUser (trim name) (Some pid) (Some number)
                                None None "user" now in
              let withUser :=
                mkServer (store srv) (<[newId := usr]> (Users srv)) number in
              match findOne newId (store srv) with
              | Some _ =>
                  (withUser, AuthRejected 400 (inl "Duplicate field value entered"))
              | None =>
                  (mkServer (fst (create now newId (store srv)))
                            (<[newId := usr]> (Users srv)) number,
                   AuthSent 201 (sign newId) true newId (trim name) (Some pid)
                            (Some number) (Some (welcomeMessage name pid)))
              end
          | _, _ => (counted, AuthRejected 400 (inl "Duplicate field value entered"))
          end
  end.

Definition notFoundMessage (pid : string) : string :=
  ("Player ID " ++ quote ++ pid ++ quote
   ++ " not found. Check your ID or register as a new player.")%string.

(** [exports.login] on the body [authAPI.loginWithPlayerId] sends, which
    carries a player id and neither email nor password. *)
Definition loginWithPlayerId (sign : ObjectId -> string) (srv : Server)
    (pid : option string) : AuthReply :=
  match pid with
  | None => AuthRejected 400 (inl "Please provide your Player ID")
  | Some pid =>
      if String.eqb pid ""
      then AuthRejected 400 (inl "Please provide your Player ID")
      else
        match findUserByPlayerId (toLowerCase pid) (Users srv) with
        | None => AuthRejected 401 (inl (notFoundMessage pid))
        | Some (id, usr) =>
            AuthSent 200 (sign id) false id (username usr) (playerId usr)
                     (playerNumber usr) None
        end
  end.

Definition hasNoSpace (s : string) : Prop :=
  ~ In " "%char (list_ascii_of_string s).

Definition demoUsers : gmap ObjectId User :=
  {[ "a1" := mkUser "GeoHuntAdmin" None None (Some "admin@geohunt.com")
                    (Some "hash") "admin" 0;
     "u1" := mkUser "Aaron" (Some "aaron1") (Some 1) None None "user" 5 ]}.

Definition demoServer : Server := mkServer demoDb demoUsers 1.

(** A stand-in for the token library in the examples: the token of a user
    is "tok-" followed by the id. *)
Definition demoSign (id : ObjectId) : string := ("tok-" ++ id)%string.

Definition demoVerify (token : string) : option ObjectId :=
  if String.prefix "tok-" token then Some (Scanner.dropChars 4 token) else None.

Definition isDigit (c : ascii) : bool :=
  let n := nat_of_ascii c in ((48 <=? n) && (n <=? 57))%nat.

Fixpoint allChars (ok : ascii -> bool) (s : string) : bool :=
  match s with
  | EmptyString => true
  | String c rest => ok c && allChars ok rest
  end.

Fixpoint lastChar (s : string) : option ascii :=
  match s with
  | EmptyString => None
  | String c EmptyString => Some c
  | String _ rest => lastChar rest
  end.

Definition endsWithDigit (s : string) : bool :=
  match lastChar s with
  | Some c => isDigit c
  | None => false
  end.

(** Account requests answered one after the other. *)
Inductive AccountRequest : Type :=
| Register (now : Z) (newId : ObjectId) (name : option string)
| DeleteUser (id requester : ObjectId)
| UpdateUserRole (id : ObjectId) (newRole : string).

Definition handleAccount (sign : ObjectId -> string) (srv : Server)
    (r : AccountRequest) : Server :=
  match r with
  | Register now newId name => fst (register sign now newId srv name)
  | DeleteUser id requester => fst (deleteUser id requester srv)
  | UpdateUserRole id newRole => fst (updateUserRole id newRole srv)
  end.

Definition serveAccounts (sign : ObjectId -> string) (srv : Server)
    (rs : list AccountRequest) : Server :=
  fold_left (handleAccount sign) rs srv.

(** No stored player number exceeds the counter, and no two users share a
    player number. *)
Definition numbersFresh (srv : Server) : Prop :=
  (forall id usr n, Users srv !! id = Some usr -> playerNumber usr = Some n ->
                    n <= playerCount srv) /\
  (forall id1 id2 usr1 usr2 n,
     Users srv !! id1 = Some usr1 -> Users srv !! id2 = Some usr2 ->
     playerNumber usr1 = Some n -> playerNumber usr2 = Some n -> id1 = id2).

(** The player number a registration hands out: the [playerNumber] of a
    201 answer, nothing when the registration is refused. *)
Definition handedOut (r : AuthReply) : option Z :=
  match r with
  | AuthSent _ _ _ _ _ _ number _ => number
  | AuthRejected _ _ => None
  end.

Definition demoAccountRequests : list AccountRequest :=
  [ Register 10 "u2" (Some "Bob"); DeleteUser "u2" "a1";
    Register 11 "u3" (Some "Bob"); UpdateUserRole "u3" "admin";
    Register 12 "u4" (Some "   ") ].

Definition emptyServer : Server := mkServer (mkDb demoCatalog ∅) ∅ 0.

(* --------------------------------------------------------------------- *)
(** ** The leaderboard ([leaderboardController.js]) *)

Module Leaderboard.

(** One line of the answer of [getLeaderboard]. *)
Record Entry : Type := mkEntry {
  rank : Z;
  username : string;
  points : Z;
  treasuresFound : Z;
  level : Z;
  badges : list string
}.

End Leaderboard.

(** [.sort({ totalPoints: -1 })]: the records by falling points.  The
    database leaves the order of records with equal points open; here they
    stay in the order in which they are met. *)
Fixpoint insertByPoints (p : UserProgress) (l : list UserProgress)
    : list UserProgress :=
  match l with
  | [] => [p]
  | q :: rest =>
      if totalPoints q <? totalPoints p then p :: q :: rest
      else q :: insertByPoints p rest
  end.

Definition sortByPoints (l : list UserProgress) : list UserProgress :=
  fold_right insertByPoints [] l.

(** [p] does not come after [q] in that order. *)
Definition ahead (p q : UserProgress) : Prop := totalPoints q <= totalPoints p.

(** [parseInt(req.query.limit) || 10], on what [parseInt] gave: [None] is
    NaN, which is also what an absent parameter gives. *)
Definition limitOr10 (parsed : option Z) : Z :=
  match parsed with
  | Some n => if n =? 0 then 10 else n
  | None => 10
  end.

(** [.limit(n)].  A negative [n] asks for a single batch of at most [-n]
    records, and a batch holds at most 101 of them.  An [n] outside the
    64-bit range is refused by the database; such a request is not
    described here. *)
Definition limit {A : Type} (n : Z) (l : list A) : list A :=
  firstn (Z.to_nat (if n <? 0 then Z.min (- n) 101 else n)) l.

(** [entry.user?.username || 'Unknown Hunter'], after
    [.populate('user', 'username')]. *)
Definition hunterName (users : gmap ObjectId User) (entry : UserProgress)
    : string :=
  match users !! user entry with
  | Some usr =>
      if String.eqb (username usr) "" then "Unknown Hunter" else username usr
  | None => "Unknown Hunter"
  end.

(** The callback of [leaderboard.map((entry, index) => ...)]. *)
Definition formatEntry (users : gmap ObjectId User) (entry : UserProgress)
    (index : Z) : Leaderboard.Entry :=
  Leaderboard.mkEntry (index + 1) (hunterName users entry) (totalPoints entry)
    (Z.of_nat (length (unlockedTreasures entry))) (level entry) (badges entry).

Fixpoint mapWithIndex {A B : Type} (f : A -> Z -> B) (index : Z) (l : list A)
    : list B :=
  match l with
  | [] => []
  | x :: rest => f x index :: mapWithIndex f (index + 1) rest
  end.

(** [getLeaderboard]: the answer's [count] and [data]. *)
Definition getLeaderboard (srv : Server) (parsed : option Z)
    : Z * list Leaderboard.Entry :=
  let limit_ := limitOr10 parsed in
  let leaderboard :=
    limit limit_
      (sortByPoints (List.map snd (map_to_list (Progress (store srv))))) in
  let formattedLeaderboard :=
    mapWithIndex (formatEntry (Users srv)) 0 leaderboard in
  (Z.of_nat (length formattedLeaderboard), formattedLeaderboard).

Definition demoBoard : Server :=
  mkServer
    (mkDb demoCatalog
       {[ "u1" := mkUserProgress "u1" ["t1"] 100 ["explorer"] 1 None 7;
          "u2" := mkUserProgress "u2" ["t1"; "t2"] 250 ["explorer"] 2 None 8;
          "u3" := mkUserProgress "u3" [] 0 [] 1 None 9 ]})
    demoUsers 1.

(* ===================================================================== *)
(** * Properties *)
(* ===================================================================== *)

(** ** Membership, lookups and sums *)

Lemma includes_In (x : string) (l : list string) :
  includes x l = true <-> In x l.
Proof.
  unfold includes. rewrite existsb_exists. split.
  - intros (y & Hy & Heq). apply String.eqb_eq in Heq. now subst.
  - intros Hin. exists x. split; [assumption | apply String.eqb_refl].
Qed.

Lemma includes_false (x : string) (l : list string) :
  includes x l = false <-> ~ In x l.
Proof.
  rewrite <- includes_In. destruct (includes x l); split; congruence.
Qed.

Lemma findById_id (tid : ObjectId) (coll : list Treasure) (t : Treasure) :
  findById tid coll = Some t -> _id t = tid /\ In t coll.
Proof.
  unfold findById. intros H. apply find_some in H as [Hin Heq].
  apply String.eqb_eq in Heq. auto.
Qed.

Lemma pointsOf_found (coll : list Treasure) (tid : ObjectId) (t : Treasure) :
  findById tid coll = Some t -> pointsOf coll tid = points t.
Proof. unfold pointsOf. now intros ->. Qed.

Lemma sumPoints_app (coll : list Treasure) (xs ys : list ObjectId) :
  sumPoints coll (xs ++ ys) = sumPoints coll xs + sumPoints coll ys.
Proof.
  induction xs as [| x xs IH]; simpl; [reflexivity | rewrite IH; lia].
Qed.

(** ** What [award] and [checkBadges] leave alone *)

Lemma award_fields (c : bool) (b : string) (p : UserProgress) :
  user (award c b p) = user p /\
  unlockedTreasures (award c b p) = unlockedTreasures p /\
  totalPoints (award c b p) = totalPoints p /\
  level (award c b p) = level p /\
  missionBriefing (award c b p) = missionBriefing p /\
  updatedAt (award c b p) = updatedAt p.
Proof. unfold award. destruct (c && _); simpl; repeat split. Qed.

Lemma checkBadges_fields (coll : list Treasure) (p : UserProgress) :
  let p' := fst (checkBadges coll p) in
  user p' = user p /\
  unlockedTreasures p' = unlockedTreasures p /\
  totalPoints p' = totalPoints p /\
  level p' = level p /\
  missionBriefing p' = missionBriefing p /\
  updatedAt p' = updatedAt p.
Proof.
  unfold checkBadges. cbn [fst].
  set (p1 := award _ "explorer" p).
  set (p2 := award _ "scholar" p1).
  set (p3 := award _ "socialite" p2).
  set (c4 := (_ && _)).
  destruct (award_fields c4 "master" p3) as (-> & -> & -> & -> & -> & ->).
  subst p3.
  match goal with |- context [award ?c _ p2] =>
    destruct (award_fields c "socialite" p2) as (-> & -> & -> & -> & -> & ->) end.
  subst p2.
  match goal with |- context [award ?c _ p1] =>
    destruct (award_fields c "scholar" p1) as (-> & -> & -> & -> & -> & ->) end.
  subst p1.
  match goal with |- context [award ?c _ p] =>
    destruct (award_fields c "explorer" p) as (-> & -> & -> & -> & -> & ->) end.
  repeat split.
Qed.

Lemma awardTreasure_fields (coll : list Treasure) (t : Treasure) (p : UserProgress) :
  let p' := awardTreasure coll t p in
  unlockedTreasures p' = unlockedTreasures p ++ [_id t] /\
  totalPoints p' = totalPoints p + points t /\
  level p' = (totalPoints p + points t) / 200 + 1 /\
  missionBriefing p' = missionBriefing p.
Proof.
  unfold awardTreasure.
  match goal with
  | |- context [checkBadges coll ?q] =>
      pose proof (checkBadges_fields coll q) as H
  end.
  cbn zeta in *. destruct H as (_ & Hu & Ht & Hl & Hm & _).
  rewrite Hu, Ht, Hl, Hm. simpl. repeat split.
Qed.

(** ** The level rule *)

Lemma level_floor (n : Z) :
  let l := n / 200 + 1 in 200 * (l - 1) <= n < 200 * l.
Proof.
  cbn zeta. pose proof (Z.div_mod n 200 ltac:(lia)).
  pose proof (Z.mod_pos_bound n 200 ltac:(lia)). lia.
Qed.



(** ** The unlock transaction *)

(** The request, unfolded once the target resolves and is not yet in the
    player's list. *)
Lemma unlockTreasure_fresh (now : Z) (db : Db) (u tid : ObjectId) (t : Treasure) :
  findById tid (Treasures db) = Some t ->
  ~ In tid (unlockedTreasures (currentProgress now u db)) ->
  exists db1,
    Treasures db1 = Treasures db /\
    let p' := set_updatedAt now
                (awardTreasure (Treasures db) t (currentProgress now u db)) in
    unlockTreasure now db u tid =
      (mkDb (Treasures db) (<[u := p']> (Progress db1)),
       Ok p' (Some (populate (Treasures db) (unlockedTreasures p')))
          (Some (unlockMessage t))) /\
    (Progress db1 = Progress db \/
     Progress db1 = <[u := currentProgress now u db]> (Progress db)).
Proof.
  intros Hfind Hnot. unfold unlockTreasure. rewrite Hfind.
  destruct (findById_id _ _ _ Hfind) as [Hid _].
  unfold currentProgress in *.
  destruct (findOne u db) as [p |] eqn:Hone.
  - exists db. split; [reflexivity |]. cbn zeta.
    rewrite Hid. apply includes_false in Hnot. rewrite Hnot.
    cbn. split; [reflexivity | now left].
  - exists (fst (create now u db)). split; [reflexivity |]. cbn zeta.
    cbn. split; [reflexivity | now right].
Qed.

(** C1.  A request for a catalog treasure that the player has not unlocked
    succeeds: the stored record gains the id at the end of its list, its
    total grows by exactly the treasure's points and its level is
    recomputed.  If the total was the sum of the unlocked treasures' points
    before, it is again afterwards, and level = floor(total / 200) + 1. *)
Theorem unlockTreasure_keeps_points_invariant
    (now : Z) (db : Db) (u tid : ObjectId) (t : Treasure) :
  findById tid (Treasures db) = Some t ->
  ~ In tid (unlockedTreasures (currentProgress now u db)) ->
  totalPoints (currentProgress now u db)
    = sumPoints (Treasures db) (unlockedTreasures (currentProgress now u db)) ->
  exists (db' : Db) (p' : UserProgress) (docs : list Treasure),
    unlockTreasure now db u tid
      = (db', Ok p' (Some docs) (Some (unlockMessage t))) /\
    findOne u db' = Some p' /\
    Treasures db' = Treasures db /\
    unlockedTreasures p'
      = unlockedTreasures (currentProgress now u db) ++ [tid] /\
    totalPoints p' = totalPoints (currentProgress now u db) + points t /\
    totalPoints p' = sumPoints (Treasures db') (unlockedTreasures p') /\
    level p' = totalPoints p' / 200 + 1 /\
    200 * (level p' - 1) <= totalPoints p' < 200 * level p'.
Proof.
  intros Hfind Hnot Hinv.
  destruct (unlockTreasure_fresh now db u tid t Hfind Hnot)
    as (db1 & _ & Hrun & _).
  cbn zeta in Hrun.
  destruct (findById_id _ _ _ Hfind) as [Hid _].
  destruct (awardTreasure_fields (Treasures db) t (currentProgress now u db))
    as (Hu & Ht & Hl & _).
  eexists _, _, _. split; [exact Hrun |].
  split; [unfold findOne; cbn; apply lookup_insert_eq |].
  split; [reflexivity |].
  cbn [Treasures unlockedTreasures totalPoints level set_updatedAt].
  rewrite Hu, Ht, Hl, Hid.
  split; [reflexivity |]. split; [reflexivity |].
  split.
  - rewrite sumPoints_app. cbn [sumPoints].
    rewrite (pointsOf_found _ _ _ Hfind), Hinv. lia.
  - split; [reflexivity | apply level_floor].
Qed.

Lemma unlockTreasure_keeps_points_invariant_witness :
  exists (db' : Db) (p' : UserProgress),
    fst (unlockTreasure 9 demoDb "u1" "t2") = db' /\
    findOne "u1" db' = Some p' /\
    unlockedTreasures p' = ["t1"; "t2"] /\
    totalPoints p' = 250 /\ level p' = 2.
Proof.
  destruct (unlockTreasure_keeps_points_invariant 9 demoDb "u1" "t2"
              (mkTreasure "t2" "Physics Lab" 150 academic))
    as (db' & p' & docs & Hrun & Hone & _ & Hu & Ht & _ & Hl & _).
  - reflexivity.
  - vm_compute. intros [H | []]. discriminate H.
  - reflexivity.
  - exists db', p'. rewrite Hrun.
    split; [reflexivity |]. split; [exact Hone |].
    split; [exact Hu |]. split; [exact Ht |].
    rewrite Hl, Ht. reflexivity.
Defined.

Lemma unlockTreasure_already
    (now : Z) (db : Db) (u tid : ObjectId) (t : Treasure) (p : UserProgress) :
  findById tid (Treasures db) = Some t ->
  findOne u db = Some p ->
  In tid (unlockedTreasures p) ->
  unlockTreasure now db u tid = (db, Error 400 "Treasure already unlocked").
Proof.
  intros Hfind Hone Hin.
  unfold unlockTreasure. rewrite Hfind, Hone.
  destruct (findById_id _ _ _ Hfind) as [-> _].
  apply includes_In in Hin. now rewrite Hin.
Qed.

(** C2.  When the treasure of the request is already in the player's
    list, the request answers 400 'Treasure already unlocked' and the
    database, hence the whole progress record (unlocked list, total,
    level, badges), is what it was. *)
Theorem unlockTreasure_twice_is_noop
    (now : Z) (db : Db) (u tid : ObjectId) (t : Treasure) (p : UserProgress) :
  findById tid (Treasures db) = Some t ->
  findOne u db = Some p ->
  In tid (unlockedTreasures p) ->
  unlockTreasure now db u tid = (db, Error 400 "Treasure already unlocked") /\
  findOne u (fst (unlockTreasure now db u tid)) = Some p.
Proof.
  intros Hfind Hone Hin.
  rewrite (unlockTreasure_already now db u tid t p Hfind Hone Hin).
  split; [reflexivity | exact Hone].
Qed.

Lemma unlockTreasure_twice_is_noop_witness :
  unlockTreasure 9 demoDb "u1" "t1"
    = (demoDb, Error 400 "Treasure already unlocked").
Proof.
  apply (unlockTreasure_twice_is_noop 9 demoDb "u1" "t1"
           (mkTreasure "t1" "Library" 100 academic)
           (mkUserProgress "u1" ["t1"] 100 ["explorer"] 1 None 7)).
  - reflexivity.
  - reflexivity.
  - simpl. left. reflexivity.
Defined.

(** The end-to-end scenario: a new player finds the two academic
    treasures, then the other three. *)
Example scenario_two_academic :
  option_map (fun p => (unlockedTreasures p, totalPoints p, level p, badges p))
    (findOne "u1" (unlockEach 1 (mkDb demoCatalog ∅) "u1" ["t1"; "t2"]))
  = Some (["t1"; "t2"], 250, 2, ["explorer"; "scholar"]).
Proof. vm_compute. reflexivity. Qed.

Example scenario_all_five :
  option_map (fun p => (unlockedTreasures p, totalPoints p, level p, badges p))
    (findOne "u1" (unlockEach 1 (mkDb demoCatalog ∅) "u1"
                     ["t1"; "t2"; "t3"; "t4"; "t5"]))
  = Some (["t1"; "t2"; "t3"; "t4"; "t5"], 650, 4,
          ["explorer"; "scholar"; "socialite"; "master"]).
Proof. vm_compute. reflexivity. Qed.

Example scenario_unknown_treasure :
  unlockTreasure 1 demoDb "u1" "t9" = (demoDb, Error 404 "Treasure not found").
Proof. reflexivity. Qed.

Example scenario_message :
  unlockMessage (mkTreasure "t2" "Physics Lab" 150 academic)
  = ("Unlocked " ++ quote ++ "Physics Lab" ++ quote ++ " for 150 points!")%string.
Proof. vm_compute. reflexivity. Qed.

(** ** Administrative reset *)

(** C9.  Without a stored record, [resetUserProgress] answers 404
    'User progress not found' and the database is untouched, whereas
    [getProgress] on the same database creates and returns the initial
    record.  With a stored record, the reset stores and returns it with no
    unlocked treasure, 0 points, no badge, level 1 and no briefing, and no
    other player's record changes. *)
Theorem resetUserProgress_needs_record (now : Z) (db : Db) (u : ObjectId) :
  (findOne u db = None ->
     resetUserProgress db u = (db, Error 404 "User progress not found") /\
     findOne u (fst (resetUserProgress db u)) = None /\
     exists p0,
       getProgress now db u = (fst (getProgress now db u), Ok p0 None None) /\
       p0 = mkUserProgress u [] 0 [] 1 None now /\
       findOne u (fst (getProgress now db u)) = Some p0) /\
  (forall p : UserProgress,
     findOne u db = Some p ->
     exists p',
       resetUserProgress db u
         = (fst (resetUserProgress db u),
            Ok p' None (Some "User progress has been reset")) /\
       findOne u (fst (resetUserProgress db u)) = Some p' /\
       unlockedTreasures p' = [] /\
       totalPoints p' = 0 /\
       badges p' = [] /\
       level p' = 1 /\
       missionBriefing p' = None /\
       user p' = user p /\
       Treasures (fst (resetUserProgress db u)) = Treasures db /\
       forall v : ObjectId,
         v <> u -> findOne v (fst (resetUserProgress db u)) = findOne v db).
Proof.
  split.
  - intros Hnone. unfold resetUserProgress, getProgress. rewrite Hnone.
    cbn. split; [reflexivity |]. split; [exact Hnone |].
    eexists. split; [reflexivity |]. split; [reflexivity |].
    unfold findOne. cbn. apply lookup_insert_eq.
  - intros p Hsome. unfold resetUserProgress. rewrite Hsome. cbn.
    eexists. split; [reflexivity |].
    split; [unfold findOne; cbn; apply lookup_insert_eq |].
    repeat (split; [reflexivity |]).
    intros v Hv. unfold findOne. cbn. now apply lookup_insert_ne.
Qed.

Lemma resetUserProgress_needs_record_witness :
  resetUserProgress demoDb "u2" = (demoDb, Error 404 "User progress not found") /\
  exists p', findOne "u1" (fst (resetUserProgress demoDb "u1")) = Some p' /\
             totalPoints p' = 0 /\ level p' = 1.
Proof.
  split.
  - apply (proj1 (resetUserProgress_needs_record 0 demoDb "u2")). reflexivity.
  - destruct (proj2 (resetUserProgress_needs_record 0 demoDb "u1")
                (mkUserProgress "u1" ["t1"] 100 ["explorer"] 1 None 7) eq_refl)
      as (p' & _ & Hone & _ & Ht & _ & Hl & _).
    exists p'. split; [exact Hone |]. split; [exact Ht | exact Hl].
Defined.

(** ** Badges *)

Lemma Category_eqb_eq (a b : Category) : Category_eqb a b = true <-> a = b.
Proof. destruct a, b; simpl; split; congruence. Qed.

Lemma findByCategory_In (c : Category) (coll : list Treasure) (t : Treasure) :
  In t (findByCategory c coll) <-> In t coll /\ category t = c.
Proof.
  unfold findByCategory. rewrite filter_In, Category_eqb_eq. reflexivity.
Qed.

Lemma nonempty_length {A : Type} (l : list A) :
  (0 <? Z.of_nat (length l)) = true <-> exists x, In x l.
Proof.
  rewrite Z.ltb_lt. destruct l as [| x l]; simpl; split.
  - lia.
  - intros [x []].
  - intros _. exists x. now left.
  - lia.
Qed.

Lemma award_In (c : bool) (x : string) (q : UserProgress) (b : string) :
  In b (badges (award c x q)) <-> In b (badges q) \/ (b = x /\ c = true).
Proof.
  unfold award. destruct c; simpl.
  - destruct (includes x (badges q)) eqn:Hinc; simpl.
    + apply includes_In in Hinc. split; [auto |].
      intros [H | [-> _]]; assumption.
    + rewrite in_app_iff. simpl. split.
      * intros [H | [H | []]]; [now left | right; split; congruence].
      * intros [H | [-> _]]; [now left | right; now left].
  - split; [auto | intros [H | [_ H]]; [assumption | discriminate]].
Qed.

Lemma award_extends (c : bool) (x : string) (q : UserProgress) :
  exists extra, badges (award c x q) = badges q ++ extra.
Proof.
  unfold award. destruct (c && _); simpl.
  - now exists [x].
  - exists []. now rewrite app_nil_r.
Qed.

Lemma hasAllAcademic_spec (coll : list Treasure) (q : UserProgress) :
  hasAllAcademic coll q = true <->
  forall t, In t coll -> category t = academic -> In (_id t) (unlockedTreasures q).
Proof.
  unfold hasAllAcademic. rewrite forallb_forall. split.
  - intros H t Hin Hcat. apply includes_In, H, in_map.
    now apply findByCategory_In.
  - intros H id Hid. apply in_map_iff in Hid as (t & <- & Ht).
    apply findByCategory_In in Ht as [Hin Hcat]. apply includes_In. auto.
Qed.

Lemma hasSocial_spec (coll : list Treasure) (q : UserProgress) :
  hasSocial coll q = true <->
  exists t, In t coll /\ category t = social /\ In (_id t) (unlockedTreasures q).
Proof.
  unfold hasSocial. rewrite existsb_exists. split.
  - intros (t & Ht & Hinc). apply findByCategory_In in Ht as [Hin Hcat].
    apply includes_In in Hinc. eauto.
  - intros (t & Hin & Hcat & Hunl). exists t. split.
    + now apply findByCategory_In.
    + now apply includes_In.
Qed.

(** C4 (as the code has it).  After [checkBadges] the badge array holds
    exactly the badges held before together with those of the four rules
    that apply: "explorer" with at least one unlocked treasure, "scholar"
    with every academic catalog treasure unlocked and at least one such
    treasure, "socialite" with an unlocked social catalog treasure, "master"
    with as many unlocked ids as a non-empty catalog has treasures.  The old
    array is a prefix of the new one, so nothing earned is removed, and no
    other field changes. *)
Theorem checkBadges_awards (coll : list Treasure) (p : UserProgress) :
  let '(p', returned) := checkBadges coll p in
  (forall b : string,
      In b (badges p') <->
      In b (badges p) \/ earns coll (unlockedTreasures p) b) /\
  (exists extra, badges p' = badges p ++ extra) /\
  returned = badges p' /\
  set_badges (badges p) p' = p.
Proof.
  destruct (checkBadges coll p) as [p' returned] eqn:Hcb.
  pose proof (checkBadges_fields coll p) as Hf. rewrite Hcb in Hf.
  cbn [fst] in Hf. destruct Hf as (Hu & Hun & Ht & Hl & Hm & Hup).
  unfold checkBadges in Hcb. injection Hcb as Hp' Hret.
  split; [| split; [| split]].
  - intros b. rewrite <- Hp'. rewrite !award_In. unfold earns.
    rewrite !andb_true_iff, hasAllAcademic_spec, hasSocial_spec.
    rewrite !nonempty_length, Z.leb_le, Z.eqb_eq.
    repeat match goal with
      | |- context [unlockedTreasures (award ?c ?x ?q)] =>
          replace (unlockedTreasures (award c x q)) with (unlockedTreasures q)
            by (symmetry; apply award_fields)
      end.
    assert (Hne : (exists x : Treasure, In x coll) <-> coll <> []).
    { destruct coll as [| x l]; split; try congruence.
      - intros [x []].
      - intros _. exists x. now left. }
    assert (Hac : (exists x, In x (findByCategory academic coll))
                  <-> exists t, In t coll /\ category t = academic).
    { split; intros [t0 Ht0]; exists t0; now apply findByCategory_In. }
    rewrite Hne, Hac, Nat2Z.inj_iff.
    assert (Hlen : 1 <= Z.of_nat (length (unlockedTreasures p))
                   <-> (1 <= length (unlockedTreasures p))%nat) by lia.
    rewrite Hlen. tauto.
  - rewrite <- Hp'.
    repeat match goal with
      | |- context [award ?c ?x ?q] =>
          let e := fresh "e" in let He := fresh "He" in
          destruct (award_extends c x q) as [e He]; rewrite He; clear He;
          generalize dependent (award c x q); intros
      end.
    rewrite <- !app_assoc. eexists. reflexivity.
  - now rewrite <- Hret, Hp'.
  - clear Hp' Hret. destruct p, p'; unfold set_badges; simpl in *.
    subst. reflexivity.
Qed.

(** C4, the claim as the spec words it, fails on the identifiers: with the
    whole five-treasure catalog unlocked every rule applies, and the badges
    pushed are "explorer", "scholar", "socialite" and "master"; none of
    first-find, category-sweep(academic), category-taste(social) or
    completionist is among them. *)
Lemma checkBadges_identifiers_differ :
  earns demoCatalog (unlockedTreasures allUnlocked) "explorer" /\
  earns demoCatalog (unlockedTreasures allUnlocked) "master" /\
  snd (checkBadges demoCatalog allUnlocked)
    = ["explorer"; "scholar"; "socialite"; "master"] /\
  ~ In "first-find" (snd (checkBadges demoCatalog allUnlocked)) /\
  ~ In "category-sweep(academic)" (snd (checkBadges demoCatalog allUnlocked)) /\
  ~ In "category-taste(social)" (snd (checkBadges demoCatalog allUnlocked)) /\
  ~ In "completionist" (snd (checkBadges demoCatalog allUnlocked)).
Proof.
  split; [left; split; [reflexivity | simpl; lia] |].
  split; [do 3 right; split; [reflexivity | split; [reflexivity | discriminate]] |].
  split; [reflexivity |].
  repeat split; vm_compute; intros H;
    repeat (destruct H as [H | H]; [discriminate H |]); exact H.
Qed.

(** ** The QR payload check *)

Module ScannerFacts.
Import Scanner.

Lemma append_String (c : ascii) (a b : string) :
  (String c a ++ b)%string = String c (a ++ b)%string.
Proof. reflexivity. Qed.

Lemma prefix_app (pre s : string) :
  String.prefix pre s = true <-> exists rest, s = (pre ++ rest)%string.
Proof.
  revert s. induction pre as [| c pre IH]; intros s.
  - split; [intros _; now exists s | intros _; destruct s; reflexivity].
  - destruct s as [| d s]; simpl.
    + split; [discriminate | intros [rest H]; discriminate H].
    + destruct (Ascii.ascii_dec c d) as [-> | Hne].
      * rewrite IH. split; intros [rest H]; exists rest;
          rewrite append_String in *; congruence.
      * split; [discriminate |].
        intros [rest H]. rewrite append_String in H. congruence.
Qed.

Lemma dropChars_app (pre rest : string) :
  dropChars (String.length pre) (pre ++ rest) = rest.
Proof.
  induction pre as [| c pre IH].
  - now destruct rest.
  - rewrite append_String. exact IH.
Qed.

Lemma replace_unfold (pat rep s : string) :
  replace pat rep s =
  if String.prefix pat s
  then (rep ++ dropChars (String.length pat) s)%string
  else match s with
       | EmptyString => EmptyString
       | String c s' => String c (replace pat rep s')
       end.
Proof. destruct s; reflexivity. Qed.

(** Stripping the namespace from a payload that carries it. *)
Lemma replace_prefix (pre rest : string) :
  replace pre "" (pre ++ rest) = rest.
Proof.
  rewrite replace_unfold.
  assert (H : String.prefix pre (pre ++ rest) = true)
    by (apply prefix_app; now exists rest).
  rewrite H. simpl. apply dropChars_app.
Qed.

Lemma app_inv_head_string (pre a b : string) :
  (pre ++ a = pre ++ b)%string -> a = b.
Proof.
  induction pre as [| c pre IH]; [auto |].
  rewrite !append_String. intros H. apply IH. congruence.
Qed.

End ScannerFacts.

(** C3, the claim as stated, fails at the empty payload: it does not start
    with the namespace, yet the frame is treated as showing no code at all
    rather than as 'Not a GeoHunt QR code'. *)
Lemma scanQRCode_empty_payload_not_malformed :
  (~ exists rest, "" = ("geohunt:" ++ rest)%string) /\
  Scanner.scanQRCode (Some "") "abc123" = Scanner.NoCode /\
  Scanner.scanQRCode (Some "") "abc123" <> Scanner.Malformed.
Proof.
  split; [intros [rest H]; discriminate H |].
  split; [reflexivity | discriminate].
Qed.

(** C3 (amended).  For a non-empty payload and any target: the outcome is
    Match, carrying the target, exactly when the payload is "geohunt:"
    followed by the target; Mismatch exactly when it is "geohunt:" followed
    by something else; Malformed exactly when it does not start with
    "geohunt:".  A non-empty payload is never taken for an empty frame. *)
Theorem scanQRCode_classifies (data targetId : string) :
  data <> "" ->
  (Scanner.scanQRCode (Some data) targetId = Scanner.Match targetId
     <-> data = ("geohunt:" ++ targetId)%string) /\
  (forall tid, Scanner.scanQRCode (Some data) targetId = Scanner.Match tid
               -> tid = targetId) /\
  (Scanner.scanQRCode (Some data) targetId = Scanner.Mismatch
     <-> exists rest, data = ("geohunt:" ++ rest)%string /\ rest <> targetId) /\
  (Scanner.scanQRCode (Some data) targetId = Scanner.Malformed
     <-> ~ exists rest, data = ("geohunt:" ++ rest)%string) /\
  Scanner.scanQRCode (Some data) targetId <> Scanner.NoCode.
Proof.
  intros Hne. unfold Scanner.scanQRCode, Scanner.startsWith.
  destruct (String.eqb data "") eqn:Hempty.
  { apply String.eqb_eq in Hempty. contradiction. }
  destruct (String.prefix "geohunt:" data) eqn:Hpre.
  - apply ScannerFacts.prefix_app in Hpre as [rest ->].
    rewrite ScannerFacts.replace_prefix.
    destruct (String.eqb rest targetId) eqn:Heq.
    + apply String.eqb_eq in Heq. subst rest.
      split; [split; reflexivity |].
      split; [intros tid H; congruence |].
      split; [split; [discriminate | intros (r & H & Hr)];
              apply ScannerFacts.app_inv_head_string in H; congruence |].
      split; [split; [discriminate | intros H; exfalso; apply H; eauto] |].
      discriminate.
    + apply String.eqb_neq in Heq.
      split; [split; [discriminate | intros H];
              apply ScannerFacts.app_inv_head_string in H; congruence |].
      split; [intros tid H; discriminate H |].
      split; [split; [intros _; eauto | reflexivity] |].
      split; [split; [discriminate | intros H; exfalso; apply H; eauto] |].
      discriminate.
  - assert (Hno : ~ exists rest, data = ("geohunt:" ++ rest)%string).
    { intros H. apply ScannerFacts.prefix_app in H. congruence. }
    split; [split; [discriminate | intros H; exfalso; apply Hno; eauto] |].
    split; [intros tid H; discriminate H |].
    split; [split; [discriminate | intros (r & H & _); exfalso; apply Hno; eauto] |].
    split; [split; [intros _; exact Hno | reflexivity] |].
    discriminate.
Qed.

Lemma scanQRCode_classifies_witness :
  Scanner.scanQRCode (Some "geohunt:abc123") "abc123" = Scanner.Match "abc123" /\
  Scanner.scanQRCode (Some "geohunt:abc123") "xyz789" = Scanner.Mismatch /\
  Scanner.scanQRCode (Some "not-a-code") "abc123" = Scanner.Malformed.
Proof.
  split; [| split].
  - apply (proj1 (scanQRCode_classifies "geohunt:abc123" "abc123"
                    ltac:(discriminate))).
    reflexivity.
  - apply (proj1 (proj2 (proj2 (scanQRCode_classifies "geohunt:abc123" "xyz789"
                                  ltac:(discriminate))))).
    exists "abc123". split; [reflexivity | discriminate].
  - apply (proj1 (proj2 (proj2 (proj2 (scanQRCode_classifies "not-a-code" "abc123"
                                         ltac:(discriminate)))))).
    intros [rest H]. discriminate H.
Defined.

(** ** Two requests for the same player and treasure *)

Module InterleavingFacts.
Import Interleaving.

Lemma orKeep_changed (old new : Z) : orKeep old (changed old new) = new.
Proof.
  unfold changed. destruct (Z.eqb_spec old new) as [-> | _]; reflexivity.
Qed.

Lemma skipn_pushed {A : Type} (l pushed : list A) :
  skipn (length l) (l ++ pushed) = pushed.
Proof. induction l as [| x l IH]; [reflexivity | exact IH]. Qed.

Lemma checkBadges_extends (coll : list Treasure) (q : UserProgress) :
  exists extra, badges (fst (checkBadges coll q)) = badges q ++ extra.
Proof.
  unfold checkBadges. cbn [fst].
  repeat match goal with
         | |- context [badges (award ?c ?x ?r)] =>
             let e := fresh "e" in
             let H := fresh "H" in
             destruct (award_extends c x r) as [e H]; rewrite H; clear H
         end.
  rewrite <- !app_assoc. eexists. reflexivity.
Qed.

(** When nothing else has written to the document since it was loaded, the
    update leaves in the database the document that is in memory. *)
Lemma update_alone (now : Z) (coll : list Treasure) (t : Treasure)
    (loaded : UserProgress) :
  update (delta loaded (set_updatedAt now (awardTreasure coll t loaded))) loaded
  = set_updatedAt now (awardTreasure coll t loaded).
Proof.
  destruct (awardTreasure_fields coll t loaded) as (Hu & Ht & Hl & Hm).
  assert (Huser : user (awardTreasure coll t loaded) = user loaded).
  { unfold awardTreasure.
    match goal with
    | |- context [checkBadges coll ?q] =>
        destruct (checkBadges_fields coll q) as (H & _)
    end.
    cbn zeta in H. rewrite H. reflexivity. }
  assert (Hb : exists extra,
             badges (awardTreasure coll t loaded) = badges loaded ++ extra).
  { unfold awardTreasure.
    match goal with
    | |- context [checkBadges coll ?q] =>
        destruct (checkBadges_extends coll q) as [extra H]
    end.
    exists extra. rewrite H. reflexivity. }
  destruct Hb as [extra Hb].
  unfold update, delta.
  cbn [pushUnlockedTreasures pushBadges setTotalPoints setLevel setUpdatedAt
       unlockedTreasures badges totalPoints level updatedAt set_updatedAt].
  rewrite !orKeep_changed, Hu, Hb, !skipn_pushed, <- Hu, <- Hb, <- Huser, <- Hm.
  unfold set_updatedAt. reflexivity.
Qed.

(** A request that runs alone through its five segments does what
    [unlockTreasure] does. *)
Lemma run1_unlockTreasure (now : Z) (db : Db) (u tid : ObjectId) :
  run1 5 db (Requested now u tid)
  = (fst (unlockTreasure now db u tid),
     Responded (snd (unlockTreasure now db u tid))).
Proof.
  unfold unlockTreasure, run1, step.
  destruct (findById tid (Treasures db)) as [t |]; [| reflexivity].
  destruct (findOne u db) as [p |] eqn:Hone; cbv beta iota zeta.
  - destruct (includes (_id t) (unlockedTreasures p)); [reflexivity |].
    rewrite Hone, update_alone. reflexivity.
  - rewrite Hone. unfold create, save. cbv beta iota zeta.
    cbn [unlockedTreasures set_updatedAt includes existsb].
    unfold findOne at 1. cbn [Progress]. rewrite lookup_insert_eq.
    cbn [Treasures]. rewrite update_alone. reflexivity.
Qed.

Lemma run2_first (n : nat) (rest : list bool) (db : Db) (a b : Task) :
  run2 (repeat false n ++ rest) db a b
  = run2 rest (fst (run1 n db a)) (snd (run1 n db a)) b.
Proof.
  revert db a. induction n as [| n IH]; intros db a; [reflexivity |].
  cbn [repeat app run2 run1]. destruct (step db a) as [db' a']. apply IH.
Qed.

Lemma run2_second (n : nat) (db : Db) (a b : Task) :
  run2 (repeat true n) db a b
  = (fst (run1 n db b), a, snd (run1 n db b)).
Proof.
  revert db b. induction n as [| n IH]; intros db b; [reflexivity |].
  cbn [repeat run2 run1]. destruct (step db b) as [db' b']. apply IH.
Qed.

End InterleavingFacts.

(** C5.  Nothing in the handler keeps two requests for the same player and
    treasure apart, although it sets out to ('Prevent unlocking the same
    treasure twice').  When both requests load the record before either
    saves, both pass the duplicate check and both are answered 200 with the
    success message; neither is answered 'Treasure already unlocked'.  Each
    save pushes the treasure onto the stored list, which then holds it
    twice, while the stored total, set by both saves to the same value, has
    grown by the treasure's points once. *)
Theorem unlock_race_awards_both
    (now1 now2 : Z) (db : Db) (u tid : ObjectId) (t : Treasure) (p : UserProgress) :
  findById tid (Treasures db) = Some t ->
  findOne u db = Some p ->
  ~ In tid (unlockedTreasures p) ->
  let '(db', a, b) :=
    Interleaving.run2 raceSchedule db
      (Interleaving.Requested now1 u tid) (Interleaving.Requested now2 u tid) in
  Interleaving.isAwarded a = true /\
  Interleaving.isAwarded b = true /\
  Interleaving.isAlreadyUnlocked a = false /\
  Interleaving.isAlreadyUnlocked b = false /\
  exists p', findOne u db' = Some p' /\
             unlockedTreasures p' = unlockedTreasures p ++ [tid; tid] /\
             totalPoints p' = totalPoints p + points t.
Proof.
  intros Hfind Hone Hnot.
  destruct (findById_id _ _ _ Hfind) as [Hid _].
  assert (Hinc : includes (_id t) (unlockedTreasures p) = false)
    by (apply includes_false; now rewrite Hid).
  destruct (awardTreasure_fields (Treasures db) t p) as (Hu & Ht & _).
  unfold raceSchedule. cbn [Interleaving.run2].
  (* both requests resolve the treasure and load the record *)
  unfold Interleaving.step at 1. rewrite Hfind. cbv beta iota.
  unfold Interleaving.step at 1. rewrite Hfind. cbv beta iota.
  unfold Interleaving.step at 1. rewrite Hone. cbv beta iota.
  unfold Interleaving.step at 1. rewrite Hone. cbv beta iota.
  (* both pass the duplicate check *)
  unfold Interleaving.step at 1. rewrite Hinc. cbv beta iota.
  unfold Interleaving.step at 1. rewrite Hinc. cbv beta iota.
  (* the first save, then the second on top of it *)
  unfold Interleaving.step at 1. rewrite Hone, InterleavingFacts.update_alone.
  cbv beta iota.
  unfold Interleaving.step at 1. unfold findOne at 1. cbn [Progress].
  rewrite lookup_insert_eq. cbv beta iota.
  split; [reflexivity |]. split; [reflexivity |].
  split; [reflexivity |]. split; [reflexivity |].
  eexists. split; [unfold findOne; cbn [Progress]; apply lookup_insert_eq |].
  unfold Interleaving.update, Interleaving.delta.
  cbn [Interleaving.pushUnlockedTreasures Interleaving.setTotalPoints
       unlockedTreasures totalPoints set_updatedAt Treasures].
  rewrite Hu, Ht, Hid, InterleavingFacts.skipn_pushed, <- app_assoc.
  split; [reflexivity |].
  unfold Interleaving.changed.
  destruct (Z.eqb_spec (totalPoints p) (totalPoints p + points t)); reflexivity.
Qed.

Lemma unlock_race_awards_both_witness :
  let '(db', a, b) :=
    Interleaving.run2 raceSchedule demoDb
      (Interleaving.Requested 9 "u1" "t2") (Interleaving.Requested 9 "u1" "t2") in
  Interleaving.isAwarded a = true /\
  Interleaving.isAwarded b = true /\
  findOne "u1" db'
  = Some (mkUserProgress "u1" ["t1"; "t2"; "t2"] 250
                         ["explorer"; "scholar"; "scholar"] 2 None 9).
Proof.
  pose proof (unlock_race_awards_both 9 9 demoDb "u1" "t2"
                (mkTreasure "t2" "Physics Lab" 150 academic)
                (mkUserProgress "u1" ["t1"] 100 ["explorer"] 1 None 7)
                eq_refl eq_refl) as H.
  assert (Hstored :
            findOne "u1"
              (fst (fst (Interleaving.run2 raceSchedule demoDb
                           (Interleaving.Requested 9 "u1" "t2")
                           (Interleaving.Requested 9 "u1" "t2"))))
            = Some (mkUserProgress "u1" ["t1"; "t2"; "t2"] 250
                                   ["explorer"; "scholar"; "scholar"] 2 None 9))
    by (vm_compute; reflexivity).
  destruct (Interleaving.run2 _ _ _ _) as [[db' a] b].
  destruct H as (Ha & Hb & _).
  - cbn. intros [H | []]. discriminate H.
  - split; [exact Ha |]. split; [exact Hb | exact Hstored].
Defined.

(** The same two requests one after the other: the first is answered 200
    (awarded), the second 400 'Treasure already unlocked', the stored list
    holds the treasure once and the stored total has grown by its points
    once. *)
Theorem unlock_one_after_the_other
    (now1 now2 : Z) (db : Db) (u tid : ObjectId) (t : Treasure) :
  findById tid (Treasures db) = Some t ->
  ~ In tid (unlockedTreasures (currentProgress now1 u db)) ->
  let '(db', a, b) :=
    Interleaving.run2 (repeat false 5 ++ repeat true 5) db
      (Interleaving.Requested now1 u tid) (Interleaving.Requested now2 u tid) in
  Interleaving.isAwarded a = true /\
  Interleaving.isAlreadyUnlocked b = true /\
  exists p', findOne u db' = Some p' /\
             totalPoints p' = totalPoints (currentProgress now1 u db) + points t /\
             unlockedTreasures p'
               = unlockedTreasures (currentProgress now1 u db) ++ [tid].
Proof.
  intros Hfind Hnot.
  rewrite InterleavingFacts.run2_first, InterleavingFacts.run2_second.
  rewrite !InterleavingFacts.run1_unlockTreasure. cbn [fst snd].
  destruct (unlockTreasure_fresh now1 db u tid t Hfind Hnot)
    as (db1 & _ & Hrun & _).
  cbn zeta in Hrun. rewrite Hrun. cbn [fst snd].
  destruct (findById_id _ _ _ Hfind) as [Hid _].
  destruct (awardTreasure_fields (Treasures db) t (currentProgress now1 u db))
    as (Hu & Ht & _).
  match goal with
  | |- context [unlockTreasure now2 ?d u tid] =>
      rewrite (unlockTreasure_already now2 d u tid t
                 (set_updatedAt now1
                    (awardTreasure (Treasures db) t (currentProgress now1 u db))))
  end.
  - cbn [fst snd]. split; [reflexivity |]. split; [reflexivity |].
    eexists. split; [unfold findOne; cbn [Progress]; apply lookup_insert_eq |].
    cbn [totalPoints unlockedTreasures set_updatedAt].
    rewrite Hu, Ht, Hid. split; reflexivity.
  - exact Hfind.
  - unfold findOne. cbn [Progress]. apply lookup_insert_eq.
  - cbn [unlockedTreasures set_updatedAt]. rewrite Hu, Hid.
    apply in_or_app. right. now left.
Qed.

Lemma unlock_one_after_the_other_witness :
  let '(db', a, b) :=
    Interleaving.run2 (repeat false 5 ++ repeat true 5) demoDb
      (Interleaving.Requested 9 "u1" "t2") (Interleaving.Requested 10 "u1" "t2") in
  Interleaving.isAwarded a = true /\ Interleaving.isAlreadyUnlocked b = true.
Proof.
  pose proof (unlock_one_after_the_other 9 10 demoDb "u1" "t2"
                (mkTreasure "t2" "Physics Lab" 150 academic) eq_refl) as H.
  destruct (Interleaving.run2 _ _ _ _) as [[db' a] b].
  destruct H as (Ha & Hb & _).
  - vm_compute. intros [H | []]. discriminate H.
  - split; [exact Ha | exact Hb].
Defined.

(** ** The XP bar *)

Lemma orZero_Some (n : Z) : StatusBar.orZero (Some n) = n.
Proof.
  unfold StatusBar.orZero. destruct (n =? 0) eqn:H; [| reflexivity].
  apply Z.eqb_eq in H. now subst.
Qed.

Lemma xpProgress_value (n : Z) :
  (StatusBar.xpProgress (Some n) == (2 * Z.rem n 250)%Z # 5)%Q.
Proof.
  unfold StatusBar.xpProgress. rewrite orZero_Some.
  unfold Qdiv, Qmult, Qinv, Qeq, inject_Z. simpl. lia.
Qed.

(** C10.  The bar and its label run on a 250-point cycle: the label shows
    totalPoints % 250 out of 250 and the bar is filled to
    (totalPoints % 250) / 2.5 percent, that is 100 * (totalPoints % 250) / 250.
    For a non-negative total the fill lies in [0, 100) and repeats every 250
    points.  The level, in contrast, steps every 200 points: at 200 points
    the level is already 2 while the bar stands at 80 percent, and at 250
    points the bar is back at 0 while the level is still 2. *)
Theorem xpProgress_cycle_is_250 (n : Z) :
  (StatusBar.xpProgress (Some n) == inject_Z (Z.rem n 250) / (5 # 2))%Q /\
  (StatusBar.xpProgress (Some n) == 100 * inject_Z (Z.rem n 250) / 250)%Q /\
  StatusBar.xpLabel n = (Z.rem n 250, 250) /\
  (0 <= n ->
     Z.rem n 250 = n mod 250 /\
     (0 <= StatusBar.xpProgress (Some n))%Q /\
     (StatusBar.xpProgress (Some n) < 100)%Q /\
     (StatusBar.xpProgress (Some (n + 250)%Z) == StatusBar.xpProgress (Some n))%Q) /\
  (StatusBar.xpProgress (Some 200%Z) == 80)%Q /\
  snd (calculateLevel (mkUserProgress "" [] 200 [] 1 None 0)) = 2 /\
  (StatusBar.xpProgress (Some 250%Z) == 0)%Q /\
  snd (calculateLevel (mkUserProgress "" [] 250 [] 1 None 0)) = 2 /\
  (StatusBar.xpProgress None == 0)%Q.
Proof.
  split; [unfold StatusBar.xpProgress; now rewrite orZero_Some |].
  split.
  { rewrite xpProgress_value.
    unfold Qdiv, Qmult, Qinv, Qeq, inject_Z. simpl. lia. }
  split; [reflexivity |].
  split.
  - intros Hn.
    assert (Hrem : Z.rem n 250 = n mod 250) by (apply Z.rem_mod_nonneg; lia).
    pose proof (Z.mod_pos_bound n 250 ltac:(lia)) as Hb.
    split; [exact Hrem |].
    split; [rewrite xpProgress_value; unfold Qle; simpl; lia |].
    split; [rewrite xpProgress_value; unfold Qlt; simpl; lia |].
    rewrite !xpProgress_value.
    rewrite Hrem, (Z.rem_mod_nonneg (n + 250) 250) by lia.
    replace (n + 250) with (n + 1 * 250) by lia.
    rewrite Z.mod_add by lia. reflexivity.
  - repeat split.
Qed.

Lemma xpProgress_cycle_is_250_witness :
  (StatusBar.xpProgress (Some 650%Z) < 100)%Q /\ Z.rem 650 250 = 650 mod 250.
Proof.
  destruct (proj1 (proj2 (proj2 (proj2 (xpProgress_cycle_is_250 650)))))
    as (Hrem & _ & Hlt & _).
  - lia.
  - split; [exact Hlt | exact Hrem].
Defined.

(** ** Distances *)

Module GeoFacts.
Import Geo.
Local Open Scope R_scope.

Lemma atan_nonneg (x : R) : 0 <= x -> 0 <= atan x.
Proof.
  intros [Hlt | <-].
  - left. rewrite <- atan_0. now apply atan_increasing.
  - rewrite atan_0. lra.
Qed.

Lemma atan2_nonneg (y x : R) : 0 <= y -> 0 <= x -> 0 <= atan2 y x.
Proof.
  intros Hy Hx. unfold atan2.
  destruct (Rlt_dec 0 x) as [Hpos | Hnpos].
  - apply atan_nonneg. apply Rmult_le_pos; [assumption |].
    left. now apply Rinv_0_lt_compat.
  - destruct (Rlt_dec x 0) as [Hneg | _]; [lra |].
    destruct (Rlt_dec 0 y) as [_ | _].
    + pose proof PI2_RGT_0. lra.
    + destruct (Rlt_dec y 0); lra.
Qed.

Lemma atan2_0_1 : atan2 0 1 = 0.
Proof.
  unfold atan2. destruct (Rlt_dec 0 1) as [_ | H]; [| lra].
  replace (0 / 1) with 0 by field. apply atan_0.
Qed.

(** On the first quadrant [atan2] recovers the angle. *)
Lemma atan2_sin_cos (theta : R) :
  0 <= theta < PI / 2 -> atan2 (sin theta) (cos theta) = theta.
Proof.
  intros [H0 H1]. unfold atan2.
  assert (Hcos : 0 < cos theta) by (apply cos_gt_0; lra).
  destruct (Rlt_dec 0 (cos theta)) as [_ | H]; [| contradiction].
  change (sin theta / cos theta) with (tan theta).
  apply atan_tan. lra.
Qed.

Lemma haversine_self (lat lon : R) : haversine lat lon lat lon = 0.
Proof.
  unfold haversine.
  replace ((lat - lat) * PI / 180 / 2) with 0 by field.
  replace ((lon - lon) * PI / 180 / 2) with 0 by field.
  rewrite sin_0. ring.
Qed.

Lemma haversine_sym (lat1 lon1 lat2 lon2 : R) :
  haversine lat1 lon1 lat2 lon2 = haversine lat2 lon2 lat1 lon1.
Proof.
  unfold haversine.
  replace ((lat1 - lat2) * PI / 180 / 2)
    with (- ((lat2 - lat1) * PI / 180 / 2)) by field.
  replace ((lon1 - lon2) * PI / 180 / 2)
    with (- ((lon2 - lon1) * PI / 180 / 2)) by field.
  rewrite !sin_neg. ring.
Qed.

(** The haversine argument stays in [0, 1], so both square roots of
    [calculateDistance] are taken of non-negative numbers. *)
Lemma haversine_range (lat1 lon1 lat2 lon2 : R) :
  0 <= haversine lat1 lon1 lat2 lon2 <= 1.
Proof.
  unfold haversine.
  set (p1 := lat1 * PI / 180). set (p2 := lat2 * PI / 180).
  set (dl := (lon2 - lon1) * PI / 180).
  replace ((lat2 - lat1) * PI / 180) with (p2 - p1) by (unfold p1, p2; field).
  assert (Hphi : 2 * (sin ((p2 - p1) / 2) * sin ((p2 - p1) / 2))
                 = 1 - (cos p2 * cos p1 + sin p2 * sin p1)).
  { rewrite <- cos_minus.
    replace (p2 - p1) with (2 * ((p2 - p1) / 2)) at 3 by field.
    rewrite cos_2a_sin. ring. }
  assert (Hlam : 2 * (sin (dl / 2) * sin (dl / 2)) = 1 - cos dl).
  { replace dl with (2 * (dl / 2)) at 3 by field.
    rewrite cos_2a_sin. ring. }
  pose proof (COS_bound dl) as [Hk1 Hk2].
  pose proof (sin2_cos2 p1) as H1. pose proof (sin2_cos2 p2) as H2.
  unfold Rsqr in H1, H2.
  remember (cos dl) as k eqn:Ek. remember (sin (dl / 2)) as sl eqn:Esl.
  remember (sin ((p2 - p1) / 2)) as sp eqn:Esp.
  remember (cos p1) as c1 eqn:Ec1. remember (cos p2) as c2 eqn:Ec2.
  remember (sin p1) as s1 eqn:Es1. remember (sin p2) as s2 eqn:Es2.
  clear Ek Esl Esp Ec1 Ec2 Es1 Es2.
  assert (Ha : sp * sp + c1 * c2 * sl * sl = (1 - s1 * s2 - c1 * c2 * k) / 2).
  { replace (c1 * c2 * sl * sl) with (c1 * c2 * (sl * sl)) by ring.
    replace (sl * sl) with ((1 - k) / 2) by lra.
    replace (sp * sp) with ((1 - (c2 * c1 + s2 * s1)) / 2) by lra.
    field. }
  rewrite Ha. clear Ha Hphi Hlam sp sl.
  pose proof (Rle_0_sqr (s1 - s2)) as Q1. pose proof (Rle_0_sqr (s1 + s2)) as Q2.
  pose proof (Rle_0_sqr (c1 - c2)) as Q3. pose proof (Rle_0_sqr (c1 + c2)) as Q4.
  unfold Rsqr in Q1, Q2, Q3, Q4.
  destruct (Rle_dec 0 (c1 * c2)) as [Hcc | Hcc].
  - assert (P1 : 0 <= c1 * c2 * (1 - k)) by (apply Rmult_le_pos; lra).
    assert (P2 : 0 <= c1 * c2 * (k + 1)) by (apply Rmult_le_pos; lra).
    split; lra.
  - assert (P1 : 0 <= - (c1 * c2) * (1 - k)) by (apply Rmult_le_pos; lra).
    assert (P2 : 0 <= - (c1 * c2) * (k + 1)) by (apply Rmult_le_pos; lra).
    split; lra.
Qed.

Lemma calculateDistance_self (lat lon : R) : calculateDistance lat lon lat lon = 0.
Proof.
  unfold calculateDistance. rewrite haversine_self.
  replace (1 - 0) with 1 by ring. rewrite sqrt_0, sqrt_1, atan2_0_1. ring.
Qed.

Lemma calculateDistance_sym (lat1 lon1 lat2 lon2 : R) :
  calculateDistance lat1 lon1 lat2 lon2 = calculateDistance lat2 lon2 lat1 lon1.
Proof. unfold calculateDistance. now rewrite haversine_sym. Qed.

Lemma calculateDistance_nonneg (lat1 lon1 lat2 lon2 : R) :
  0 <= calculateDistance lat1 lon1 lat2 lon2.
Proof.
  unfold calculateDistance.
  apply Rmult_le_pos; [lra |].
  apply atan2_nonneg; apply sqrt_pos.
Qed.


(** Along the equator the formula returns the arc length: the point at
    longitude [d / R] radians east of (0, 0) is [d] metres away. *)
Lemma calculateDistance_equator (d : R) :
  0 <= d < 6371000 ->
  calculateDistance 0 0 0 (d / 6371000 * 180 / PI) = d.
Proof.
  intros [Hd0 Hd1]. unfold calculateDistance, haversine.
  pose proof PI_RGT_0 as Hpi. pose proof PI2_1 as Hpi2.
  set (theta := d / 6371000 / 2).
  replace ((0 - 0) * PI / 180 / 2) with 0 by field.
  replace (0 * PI / 180) with 0 by field.
  replace ((d / 6371000 * 180 / PI - 0) * PI / 180 / 2) with theta
    by (unfold theta; field; lra).
  rewrite sin_0, cos_0.
  assert (Hth : 0 <= theta < PI / 2) by (unfold theta; lra).
  assert (Hs : 0 <= sin theta) by (apply sin_ge_0; lra).
  assert (Hc : 0 <= cos theta) by (apply cos_ge_0; lra).
  replace (0 * 0 + 1 * 1 * sin theta * sin theta) with (sin theta * sin theta)
    by ring.
  replace (1 - sin theta * sin theta) with (cos theta * cos theta)
    by (pose proof (sin2_cos2 theta) as H; unfold Rsqr in H; lra).
  rewrite !sqrt_square by assumption.
  rewrite atan2_sin_cos by assumption.
  unfold theta. field.
Qed.

End GeoFacts.

(** In exact arithmetic the distance formula of [calculateDistance] gives 0
    from a point to itself, is symmetric and is never negative, because the
    haversine argument then lies in [0, 1]. *)
Lemma calculateDistance_exact_arithmetic (lat1 lon1 lat2 lon2 : R) :
  Geo.calculateDistance lat1 lon1 lat1 lon1 = 0%R /\
  Geo.calculateDistance lat1 lon1 lat2 lon2
    = Geo.calculateDistance lat2 lon2 lat1 lon1 /\
  (0 <= Geo.calculateDistance lat1 lon1 lat2 lon2)%R /\
  (0 <= Geo.haversine lat1 lon1 lat2 lon2 <= 1)%R.
Proof.
  split; [apply GeoFacts.calculateDistance_self |].
  split; [apply GeoFacts.calculateDistance_sym |].
  split; [apply GeoFacts.calculateDistance_nonneg |].
  apply GeoFacts.haversine_range.
Qed.

(** ** Doubles: order, NaN, and the distance between antipodes *)

Module DoubleFacts.

Ltac order_cases :=
  repeat match goal with
         | |- context [Z.compare ?a ?b] => destruct (Z.compare_spec a b)
         | H : context [Z.compare ?a ?b] |- _ => destruct (Z.compare_spec a b)
         | |- context [Pos.compare ?a ?b] => destruct (Pos.compare_spec a b)
         | H : context [Pos.compare ?a ?b] |- _ => destruct (Pos.compare_spec a b)
         end;
  cbn in *; try congruence; try lia.

Lemma Pos_compare_cont_Eq (p q : positive) :
  Pos.compare_cont Eq p q = Pos.compare p q.
Proof. reflexivity. Qed.

Lemma SFltb_irrefl (x : spec_float) : SFltb x x = false.
Proof.
  unfold SFltb, SFcompare.
  destruct x as [[|] | [|] | | [|] m e]; try reflexivity;
    rewrite ?Pos_compare_cont_Eq, ?Z.compare_refl, ?Pos.compare_refl; reflexivity.
Qed.

Lemma SFltb_trans (a x m : spec_float) :
  SFltb a x = true -> SFltb x m = true -> SFltb a m = true.
Proof.
  unfold SFltb, SFcompare.
  destruct a as [[|] | [|] | | [|] ma ea], x as [[|] | [|] | | [|] mx ex],
           m as [[|] | [|] | | [|] mm em];
    cbn; intros H1 H2; try discriminate; try reflexivity;
    rewrite ?Pos_compare_cont_Eq in *; order_cases.
Qed.

Lemma SFleb_of_not_ltb (a m : spec_float) :
  a <> S754_nan -> m <> S754_nan -> SFltb a m = false -> SFleb m a = true.
Proof.
  unfold SFltb, SFleb, SFcompare.
  destruct a as [[|] | [|] | | [|] ma ea], m as [[|] | [|] | | [|] mm em];
    cbn; intros Ha Hm H; try congruence; try reflexivity;
    rewrite ?Pos_compare_cont_Eq in *; order_cases.
Qed.

Local Open Scope float_scope.

Lemma is_nan_spec (x : float) : is_nan x = true <-> Prim2SF x = S754_nan.
Proof.
  unfold is_nan. rewrite FloatAxioms.eqb_spec. unfold SFeqb, SFcompare.
  destruct (Prim2SF x) as [[|] | [|] | | [|] m e]; cbn;
    rewrite ?Pos_compare_cont_Eq, ?Z.compare_refl, ?Pos.compare_refl; cbn;
    split; congruence.
Qed.

(** [x < x] is false. *)
Lemma ltb_irrefl (x : float) : (x <? x) = false.
Proof. rewrite ltb_spec. apply SFltb_irrefl. Qed.

(** When [x < m] and not [a < m], then not [a < x]; NaN included. *)
Lemma ltb_chain (a x m : float) :
  (x <? m) = true -> (a <? m) = false -> (a <? x) = false.
Proof.
  rewrite !ltb_spec. intros H1 H2.
  destruct (SFltb (Prim2SF a) (Prim2SF x)) eqn:H; [| reflexivity].
  rewrite (SFltb_trans _ _ _ H H1) in H2. discriminate.
Qed.

(** Away from NaN, not [a < m] means [m <= a]. *)
Lemma leb_of_not_ltb (a m : float) :
  is_nan a = false -> is_nan m = false -> (a <? m) = false -> (m <=? a) = true.
Proof.
  rewrite ltb_spec, leb_spec. intros Ha Hm.
  apply SFleb_of_not_ltb.
  - intros H. apply is_nan_spec in H. congruence.
  - intros H. apply is_nan_spec in H. congruence.
Qed.

(** Nothing is below NaN, and NaN equals nothing. *)
Lemma ltb_nan_r (x m : float) : is_nan m = true -> (x <? m) = false.
Proof.
  intros H. apply is_nan_spec in H. rewrite ltb_spec, H.
  unfold SFltb, SFcompare. now destruct (Prim2SF x).
Qed.

Lemma eqb_nan_l (x : float) : (nan =? x) = false.
Proof.
  rewrite FloatAxioms.eqb_spec.
  replace (Prim2SF nan) with S754_nan by reflexivity.
  reflexivity.
Qed.

End DoubleFacts.

(** C8.  The code does not keep the haversine argument within [0, 1], so
    for two points on opposite sides of the globe the claim fails on the
    doubles: from (2.5, 0) to (-2.5, -180) the argument comes out as
    1.0000000000000002, [Math.sqrt(1 - a)] is NaN, and so is the distance,
    in both copies of [calculateDistance].  The result is then not
    non-negative ([0 <= d] is false), equals no number, the distance in the
    other direction included, and is not below any bound.  This holds for
    every engine whose sine and cosine return, at the four arguments the
    call reaches, the double nearest to the exact value, and whose [atan2]
    passes NaN on. *)
Theorem calculateDistance_antipodes_is_NaN (Math : Doubles.MathObject) :
  Doubles.sin Math (-0x1.657184ae74487p-5) = (-0x1.65547c4694e11p-5)%float ->
  Doubles.sin Math (-0x1.921fb54442d18p+0) = (-1)%float ->
  Doubles.cos Math 0x1.657184ae74487p-5 = 0x1.ff833f9da45f7p-1%float ->
  Doubles.cos Math (-0x1.657184ae74487p-5) = 0x1.ff833f9da45f7p-1%float ->
  (forall y x, is_nan x = true -> Doubles.atan2 Math y x = nan) ->
  let d := Doubles.calculateDistance Math 2.5 0 (-2.5) (-180) in
  Doubles.haversine Math 2.5 0 (-2.5) (-180) = 0x1.0000000000001p+0%float /\
  (1 <? Doubles.haversine Math 2.5 0 (-2.5) (-180))%float = true /\
  d = nan /\
  Doubles.calculateDistanceMap Math 2.5 0 (-2.5) (-180) = nan /\
  (0 <=? d)%float = false /\
  (d =? Doubles.calculateDistance Math (-2.5) (-180) 2.5 0)%float = false /\
  (d =? d)%float = false /\
  (d <? 50)%float = false.
Proof.
  intros Hs1 Hs2 Hc1 Hc2 Hnan. cbv zeta.
  assert (Ha : Doubles.haversine Math 2.5 0 (-2.5) (-180)
               = 0x1.0000000000001p+0%float).
  { unfold Doubles.haversine. cbv zeta.
    change ((-2.5 - 2.5) * Doubles.PI / 180 / 2)%float
      with (-0x1.657184ae74487p-5)%float.
    change ((-180 - 0) * Doubles.PI / 180 / 2)%float
      with (-0x1.921fb54442d18p+0)%float.
    change (2.5 * Doubles.PI / 180)%float with 0x1.657184ae74487p-5%float.
    change (-2.5 * Doubles.PI / 180)%float with (-0x1.657184ae74487p-5)%float.
    rewrite Hs1, Hs2, Hc1, Hc2. reflexivity. }
  assert (Hd : Doubles.calculateDistance Math 2.5 0 (-2.5) (-180) = nan).
  { unfold Doubles.calculateDistance. cbv zeta. rewrite Ha.
    rewrite Hnan by reflexivity. reflexivity. }
  assert (Hm : Doubles.calculateDistanceMap Math 2.5 0 (-2.5) (-180) = nan).
  { unfold Doubles.calculateDistanceMap. cbv zeta. rewrite Ha.
    rewrite Hnan by reflexivity. reflexivity. }
  rewrite Ha, Hd, Hm.
  repeat (split; [reflexivity |]).
  split; [apply DoubleFacts.eqb_nan_l |].
  split; reflexivity.
Qed.

Lemma calculateDistance_antipodes_is_NaN_witness :
  Doubles.calculateDistance Doubles.exampleMath 2.5 0 (-2.5) (-180) = nan /\
  Doubles.calculateDistanceMap Doubles.exampleMath 2.5 0 (-2.5) (-180) = nan /\
  (0 <=? Doubles.calculateDistance Doubles.exampleMath 2.5 0 (-2.5) (-180))%float
  = false.
Proof.
  destruct (calculateDistance_antipodes_is_NaN Doubles.exampleMath)
    as (_ & _ & Hd & Hm & Hpos & _); try reflexivity.
  - intros y x H. cbn. rewrite H. now rewrite orb_true_r.
  - cbv zeta in *. split; [exact Hd |]. split; [exact Hm | exact Hpos].
Defined.

(** C7.  [isNear] holds exactly when [getDistanceTo] is a finite distance
    strictly below 50: at a distance of exactly 50 the player is not near,
    at 49.999 the player is near, and without a position the distance is
    [Infinity] and the player is not near. *)
Theorem isNear_strictly_within_50
    (userLocation : option Geo.Coordinates) (treasure : Geo.Treasure) :
  (Geo.isNear userLocation treasure = true <->
     exists d : R, Geo.getDistanceTo userLocation treasure = Geo.Meters d
                   /\ (d < 50)%R) /\
  (Geo.getDistanceTo userLocation treasure = Geo.Meters 50 ->
     Geo.isNear userLocation treasure = false) /\
  (Geo.getDistanceTo userLocation treasure = Geo.Meters 49.999 ->
     Geo.isNear userLocation treasure = true) /\
  (userLocation = None ->
     Geo.getDistanceTo userLocation treasure = Geo.Infinity /\
     Geo.isNear userLocation treasure = false).
Proof.
  unfold Geo.isNear.
  split; [| split; [| split]].
  - destruct (Geo.getDistanceTo userLocation treasure) as [d |]; simpl.
    + destruct (Rlt_dec d 50) as [Hlt | Hge]; split.
      * intros _. now exists d.
      * reflexivity.
      * discriminate.
      * intros (d' & Heq & Hlt). injection Heq as ->. contradiction.
    + split; [discriminate | intros (d & Heq & _); discriminate Heq].
  - intros ->. simpl. destruct (Rlt_dec 50 50) as [H | _]; [lra | reflexivity].
  - intros ->. simpl.
    destruct (Rlt_dec 49.999 50) as [_ | H]; [reflexivity | lra].
  - intros ->. split; reflexivity.
Qed.

Lemma isNear_strictly_within_50_witness :
  Geo.isNear (Some Geo.origin) (Geo.markerAt 50) = false /\
  Geo.isNear (Some Geo.origin) (Geo.markerAt 49.999) = true /\
  Geo.isNear None (Geo.markerAt 0) = false.
Proof.
  split; [| split].
  - apply (proj1 (proj2 (isNear_strictly_within_50
                           (Some Geo.origin) (Geo.markerAt 50)))).
    unfold Geo.getDistanceTo. simpl. f_equal.
    apply GeoFacts.calculateDistance_equator. lra.
  - apply (proj1 (proj2 (proj2 (isNear_strictly_within_50
                                  (Some Geo.origin) (Geo.markerAt 49.999))))).
    unfold Geo.getDistanceTo. simpl. f_equal.
    apply GeoFacts.calculateDistance_equator. lra.
  - apply (proj2 (proj2 (proj2 (isNear_strictly_within_50
                                  None (Geo.markerAt 0))))).
    reflexivity.
Defined.

(* ===================================================================== *)
(** * Further properties of the handlers *)
(* ===================================================================== *)

(** ** Badge evaluation, again *)

Lemma award_NoDup (c : bool) (x : string) (q : UserProgress) :
  NoDup (badges q) -> NoDup (badges (award c x q)).
Proof.
  intros Hnd. unfold award.
  destruct c; simpl; [| assumption].
  destruct (includes x (badges q)) eqn:Hinc; simpl; [assumption |].
  apply includes_false in Hinc.
  apply NoDup_app. split; [assumption |]. split; [| apply NoDup_singleton].
  intros b Hb Hbx. apply list_elem_of_In in Hb. apply list_elem_of_In in Hbx.
  destruct Hbx as [<- | []]. contradiction.
Qed.

Lemma award_unlocked (c : bool) (x : string) (q : UserProgress) :
  unlockedTreasures (award c x q) = unlockedTreasures q.
Proof. apply award_fields. Qed.

Lemma checkBadges_In (coll : list Treasure) (p : UserProgress) (b : string) :
  In b (badges (fst (checkBadges coll p))) <->
  In b (badges p) \/ earns coll (unlockedTreasures p) b.
Proof.
  unfold checkBadges. cbn [fst]. rewrite !award_In. unfold earns.
  rewrite !andb_true_iff, hasAllAcademic_spec, hasSocial_spec.
  rewrite !nonempty_length, Z.leb_le, Z.eqb_eq.
  rewrite !award_unlocked.
  assert (Hne : (exists x : Treasure, In x coll) <-> coll <> []).
  { destruct coll as [| x l]; split; try congruence.
    - intros [x []].
    - intros _. exists x. now left. }
  assert (Hac : (exists x, In x (findByCategory academic coll))
                <-> exists t, In t coll /\ category t = academic).
  { split; intros [t0 Ht0]; exists t0; now apply findByCategory_In. }
  rewrite Hne, Hac, Nat2Z.inj_iff.
  assert (Hlen : 1 <= Z.of_nat (length (unlockedTreasures p))
                 <-> (1 <= length (unlockedTreasures p))%nat) by lia.
  rewrite Hlen. tauto.
Qed.

Lemma checkBadges_NoDup (coll : list Treasure) (p : UserProgress) :
  NoDup (badges p) -> NoDup (badges (fst (checkBadges coll p))).
Proof.
  intros Hnd. unfold checkBadges. cbn [fst].
  repeat apply award_NoDup. exact Hnd.
Qed.

Lemma award_noop (c : bool) (x : string) (q : UserProgress) :
  In x (badges q) -> award c x q = q.
Proof.
  intros Hin. unfold award. apply includes_In in Hin. rewrite Hin.
  now rewrite andb_false_r.
Qed.

Lemma award_same_cond (c : bool) (x : string) (q : UserProgress) :
  award c x (award c x q) = award c x q.
Proof.
  destruct (c && negb (includes x (badges q))) eqn:Hc.
  - assert (E : award c x q = set_badges (badges q ++ [x]) q)
      by (unfold award; now rewrite Hc).
    rewrite E. apply award_noop. simpl. apply in_or_app. right. now left.
  - assert (E : award c x q = q) by (unfold award; now rewrite Hc).
    now rewrite !E.
Qed.

(** Membership in an earned set depends on the unlocked list only through
    its length and its members. *)
Lemma earns_ext (coll : list Treasure) (l1 l2 : list ObjectId) (b : string) :
  length l1 = length l2 ->
  (forall id, In id l1 <-> In id l2) ->
  earns coll l1 b -> earns coll l2 b.
Proof.
  intros Hlen Hmem. unfold earns. rewrite Hlen.
  intros [H | [(Hb & Hall & Hex) | [(Hb & t & Ht & Hc & Hin) | H]]].
  - now left.
  - right; left. split; [assumption |]. split; [| assumption].
    intros t Ht Hc. apply Hmem. auto.
  - right; right; left. split; [assumption |]. exists t. rewrite <- Hmem. auto.
  - now do 3 right.
Qed.

(** The rules other than "master" only ask for more treasures. *)
Lemma earns_grows (coll : list Treasure) (l extra : list ObjectId) (b : string) :
  b <> "master" -> earns coll l b -> earns coll (l ++ extra) b.
Proof.
  intros Hnm. unfold earns.
  intros [(Hb & Hl) | [(Hb & Hall & Hex) | [(Hb & t & Ht & Hc & Hin) | (Hb & _)]]].
  - left. split; [assumption |]. rewrite length_app. lia.
  - right; left. split; [assumption |]. split; [| assumption].
    intros t Ht Hc. apply in_or_app. left. auto.
  - right; right; left. split; [assumption |]. exists t.
    repeat split; try assumption. apply in_or_app. now left.
  - contradiction.
Qed.

Lemma award_absorbed (c : bool) (x : string) (q : UserProgress) :
  (c = true -> In x (badges q)) -> award c x q = q.
Proof.
  intros H. destruct c.
  - apply award_noop. now apply H.
  - reflexivity.
Qed.

(** X6.  Running [checkBadges] a second time changes nothing, and a badge
    array without duplicates stays without duplicates. *)
Theorem checkBadges_idempotent (coll : list Treasure) (p : UserProgress) :
  checkBadges coll (fst (checkBadges coll p)) = checkBadges coll p /\
  (NoDup (badges p) -> NoDup (snd (checkBadges coll p))).
Proof.
  split; [| intros Hnd; now apply checkBadges_NoDup].
  assert (Hin : forall b, earns coll (unlockedTreasures p) b ->
                          In b (badges (fst (checkBadges coll p))))
    by (intros b Hb; apply checkBadges_In; now right).
  assert (Hun : unlockedTreasures (fst (checkBadges coll p)) = unlockedTreasures p)
    by apply checkBadges_fields.
  remember (fst (checkBadges coll p)) as q eqn:Hq.
  assert (Hp : checkBadges coll p = (q, badges q)) by (subst q; reflexivity).
  rewrite Hp. clear Hp Hq.
  unfold checkBadges.
  assert (E1 : award (1 <=? Z.of_nat (length (unlockedTreasures q))) "explorer" q = q).
  { apply award_absorbed. intros Hc. apply Hin. left. split; [reflexivity |].
    apply Z.leb_le in Hc. rewrite Hun in Hc. lia. }
  rewrite E1.
  assert (E2 : award (hasAllAcademic coll q
                      && (0 <? Z.of_nat (length (findByCategory academic coll))))
                     "scholar" q = q).
  { apply award_absorbed. intros Hc. apply Hin. right; left.
    apply andb_true_iff in Hc as [Hall Hex].
    split; [reflexivity |]. split.
    - rewrite <- Hun. now apply hasAllAcademic_spec.
    - apply nonempty_length in Hex as [t Ht]. exists t.
      now apply findByCategory_In. }
  rewrite E2.
  assert (E3 : award (hasSocial coll q) "socialite" q = q).
  { apply award_absorbed. intros Hc. apply Hin. right; right; left.
    split; [reflexivity |]. rewrite <- Hun. now apply hasSocial_spec. }
  rewrite E3.
  assert (E4 : award ((Z.of_nat (length (unlockedTreasures q))
                         =? Z.of_nat (length coll))
                      && (0 <? Z.of_nat (length coll))) "master" q = q).
  { apply award_absorbed. intros Hc. apply Hin. do 3 right.
    apply andb_true_iff in Hc as [Hlen Hne].
    apply Z.eqb_eq in Hlen. apply Z.ltb_lt in Hne.
    split; [reflexivity |]. rewrite <- Hun. split; [lia |].
    destruct coll; [simpl in Hne; lia | discriminate]. }
  rewrite E4. reflexivity.
Qed.

Lemma checkBadges_idempotent_witness :
  NoDup (snd (checkBadges demoCatalog allUnlocked)).
Proof.
  apply (proj2 (checkBadges_idempotent demoCatalog allUnlocked)).
  simpl. apply NoDup_nil. exact I.
Defined.

(** ** Consistency of the derived state *)

Lemma pointsConsistent_initial (coll : list Treasure) (u : ObjectId) (now : Z)
    (briefing : option string) :
  pointsConsistent coll (mkUserProgress u [] 0 [] 1 briefing now) /\
  badgesConsistent coll (mkUserProgress u [] 0 [] 1 briefing now).
Proof.
  split.
  - repeat split; simpl; [apply NoDup_nil; exact I | intros id []].
  - split; [simpl; apply NoDup_nil; exact I |].
    intros b. simpl. split; [intros [] |].
    unfold earns. simpl.
    intros [(_ & H) | [(_ & Hall & t & Ht & Hc) | [(_ & t & _ & _ & []) | (_ & H & Hne)]]].
    + lia.
    + exact (Hall t Ht Hc).
    + destruct coll; [congruence | discriminate H].
Qed.

Lemma awardTreasure_badges (coll : list Treasure) (t : Treasure) (p : UserProgress)
    (b : string) :
  In b (badges (awardTreasure coll t p)) <->
  In b (badges p) \/ earns coll (unlockedTreasures p ++ [_id t]) b.
Proof. unfold awardTreasure. rewrite checkBadges_In. reflexivity. Qed.

(** A full list cannot grow: with as many distinct resolvable ids as the
    catalog has treasures, every catalog id is already in the list. *)
Lemma full_list_has_all (coll : list Treasure) (l : list ObjectId) (t : Treasure)
    (tid : ObjectId) :
  NoDup l ->
  (forall id, In id l -> exists t', findById id coll = Some t') ->
  length l = length coll ->
  findById tid coll = Some t ->
  In tid l.
Proof.
  intros Hnd Hres Hlen Hfind.
  assert (Hincl : incl l (map _id coll)).
  { intros id Hid. destruct (Hres id Hid) as [t' Ht'].
    apply findById_id in Ht' as [<- Hin]. now apply in_map. }
  apply NoDup_ListNoDup in Hnd.
  assert (Hback : incl (map _id coll) l).
  { apply (List.NoDup_length_incl Hnd); [| exact Hincl].
    rewrite length_map. lia. }
  apply Hback. apply findById_id in Hfind as [<- Hin]. now apply in_map.
Qed.

Lemma awardTreasure_consistent (coll : list Treasure) (t : Treasure)
    (tid : ObjectId) (p : UserProgress) :
  findById tid coll = Some t ->
  ~ In tid (unlockedTreasures p) ->
  pointsConsistent coll p /\ badgesConsistent coll p ->
  pointsConsistent coll (awardTreasure coll t p) /\
  badgesConsistent coll (awardTreasure coll t p).
Proof.
  intros Hfind Hnot [(Hsum & Hlev & Hnd & Hres) (Hbnd & Hb)].
  destruct (findById_id _ _ _ Hfind) as [Hid _].
  destruct (awardTreasure_fields coll t p) as (Hu & Ht & Hl & _).
  split.
  - unfold pointsConsistent. rewrite Hu, Ht, Hl, Hid.
    split; [rewrite sumPoints_app; cbn [sumPoints];
            rewrite (pointsOf_found _ _ _ Hfind), Hsum; lia |].
    split; [reflexivity |].
    split.
    + apply NoDup_app. split; [assumption |]. split; [| apply NoDup_singleton].
      intros x Hx Hx'. apply list_elem_of_In in Hx. apply list_elem_of_In in Hx'.
      destruct Hx' as [<- | []]. contradiction.
    + intros id Hin. apply in_app_or in Hin as [Hin | [<- | []]]; eauto.
  - split.
    + unfold awardTreasure. now apply checkBadges_NoDup.
    + intros b. rewrite awardTreasure_badges, Hu, Hid.
      split; [| intros H; now right].
      intros [Hold | Hnew]; [| assumption].
      apply Hb in Hold.
      destruct (String.eqb_spec b "master") as [-> | Hnm].
      * exfalso. apply Hnot.
        destruct Hold as [(H & _) | [(H & _) | [(H & _) | (_ & Hlen & _)]]];
          try discriminate H.
        exact (full_list_has_all coll _ t tid Hnd Hres Hlen Hfind).
      * now apply earns_grows.
Qed.

(** The three ways a request can end, with the database it leaves. *)
Lemma unlockTreasure_cases (now : Z) (db : Db) (u tid : ObjectId) :
  (findById tid (Treasures db) = None /\
   unlockTreasure now db u tid = (db, Error 404 "Treasure not found")) \/
  (exists t p, findById tid (Treasures db) = Some t /\ findOne u db = Some p /\
               In tid (unlockedTreasures p) /\
               unlockTreasure now db u tid
                 = (db, Error 400 "Treasure already unlocked")) \/
  (exists t, findById tid (Treasures db) = Some t /\
             ~ In tid (unlockedTreasures (currentProgress now u db)) /\
             fst (unlockTreasure now db u tid)
               = mkDb (Treasures db)
                      (<[u := set_updatedAt now
                                (awardTreasure (Treasures db) t
                                   (currentProgress now u db))]> (Progress db))).
Proof.
  destruct (findById tid (Treasures db)) as [t |] eqn:Hfind.
  - right.
    destruct (in_dec String.string_dec tid
                (unlockedTreasures (currentProgress now u db))) as [Hin | Hnot].
    + left. unfold currentProgress in Hin.
      destruct (findOne u db) as [p |] eqn:Hone; [| destruct Hin].
      exists t, p. repeat split; try assumption.
      now apply (unlockTreasure_already now db u tid t p).
    + right. exists t. split; [reflexivity |]. split; [assumption |].
      destruct (unlockTreasure_fresh now db u tid t Hfind Hnot)
        as (db1 & _ & Hrun & Hdb1).
      cbn zeta in Hrun. rewrite Hrun. cbn [fst]. f_equal.
      destruct Hdb1 as [-> | ->]; [reflexivity | apply insert_insert_eq].
  - left. split; [reflexivity |]. unfold unlockTreasure. now rewrite Hfind.
Qed.

Lemma handle_Treasures (db : Db) (r : Request) :
  Treasures (handle db r) = Treasures db.
Proof.
  destruct r as [now u | now u tid | u b | u]; simpl.
  - unfold getProgress. destruct (findOne u db); reflexivity.
  - destruct (unlockTreasure_cases now db u tid)
      as [[_ ->] | [(t & p & _ & _ & _ & ->) | (t & _ & _ & ->)]]; reflexivity.
  - unfold updateBriefing. destruct (findOne u db); reflexivity.
  - unfold resetUserProgress. destruct (findOne u db); reflexivity.
Qed.

Lemma currentProgress_consistent (now : Z) (u : ObjectId) (db : Db) :
  consistent db ->
  pointsConsistent (Treasures db) (currentProgress now u db) /\
  badgesConsistent (Treasures db) (currentProgress now u db).
Proof.
  intros Hc. unfold currentProgress.
  destruct (findOne u db) as [p |] eqn:Hone; [now apply (Hc u) |].
  apply pointsConsistent_initial.
Qed.

Lemma consistent_insert (db : Db) (u : ObjectId) (p : UserProgress) :
  consistent db ->
  pointsConsistent (Treasures db) p /\ badgesConsistent (Treasures db) p ->
  consistent (mkDb (Treasures db) (<[u := p]> (Progress db))).
Proof.
  intros Hc Hp v q. unfold findOne. cbn [Progress Treasures].
  rewrite lookup_insert. case_decide as Heq.
  - intros [= <-]. exact Hp.
  - intros Hq. now apply (Hc v).
Qed.

Lemma handle_consistent (db : Db) (r : Request) :
  consistent db -> consistent (handle db r).
Proof.
  intros Hc. destruct r as [now u | now u tid | u b | u]; simpl.
  - unfold getProgress. destruct (findOne u db) as [p |] eqn:Hone; [exact Hc |].
    cbn [fst create save]. apply consistent_insert; [exact Hc |].
    apply pointsConsistent_initial.
  - destruct (unlockTreasure_cases now db u tid)
      as [[_ ->] | [(t & p & _ & _ & _ & ->) | (t & Hfind & Hnot & ->)]];
      try exact Hc.
    apply consistent_insert; [exact Hc |].
    pose proof (awardTreasure_consistent (Treasures db) t tid
                  (currentProgress now u db) Hfind Hnot
                  (currentProgress_consistent now u db Hc)) as [Hp Hb].
    split; [exact Hp | exact Hb].
  - unfold updateBriefing. destruct (findOne u db) as [p |] eqn:Hone; [| exact Hc].
    cbn [fst]. apply consistent_insert; [exact Hc |].
    exact (Hc u p Hone).
  - unfold resetUserProgress.
    destruct (findOne u db) as [p |] eqn:Hone; [| exact Hc].
    cbn [fst]. apply consistent_insert; [exact Hc |].
    apply pointsConsistent_initial.
Qed.

Lemma serve_consistent (rs : list Request) (db : Db) :
  consistent db -> consistent (serve db rs) /\ Treasures (serve db rs) = Treasures db.
Proof.
  unfold serve. revert db. induction rs as [| r rs IH]; intros db Hc; [now split |].
  cbn [fold_left]. destruct (IH (handle db r) (handle_consistent db r Hc)) as [H1 H2].
  split; [exact H1 | now rewrite H2, handle_Treasures].
Qed.

Lemma consistent_empty (coll : list Treasure) : consistent (mkDb coll ∅).
Proof. intros u p. unfold findOne. cbn. rewrite lookup_empty. discriminate. Qed.

Lemma awardTreasure_pointsConsistent (coll : list Treasure) (t : Treasure)
    (tid : ObjectId) (p : UserProgress) :
  findById tid coll = Some t ->
  ~ In tid (unlockedTreasures p) ->
  pointsConsistent coll p ->
  pointsConsistent coll (awardTreasure coll t p).
Proof.
  intros Hfind Hnot (Hsum & Hlev & Hnd & Hres).
  destruct (findById_id _ _ _ Hfind) as [Hid _].
  destruct (awardTreasure_fields coll t p) as (Hu & Ht & Hl & _).
  unfold pointsConsistent. rewrite Hu, Ht, Hl, Hid.
  split; [rewrite sumPoints_app; cbn [sumPoints];
          rewrite (pointsOf_found _ _ _ Hfind), Hsum; lia |].
  split; [reflexivity |].
  split.
  - apply NoDup_app. split; [assumption |]. split; [| apply NoDup_singleton].
    intros x Hx Hx'. apply list_elem_of_In in Hx. apply list_elem_of_In in Hx'.
    destruct Hx' as [<- | []]. contradiction.
  - intros id Hin. apply in_app_or in Hin as [Hin | [<- | []]]; eauto.
Qed.

Lemma pointsKept_insert (db : Db) (u : ObjectId) (p : UserProgress) :
  pointsKept db ->
  pointsConsistent (Treasures db) p ->
  pointsKept (mkDb (Treasures db) (<[u := p]> (Progress db))).
Proof.
  intros Hc Hp v q. unfold findOne. cbn [Progress Treasures].
  rewrite lookup_insert. case_decide as Heq.
  - intros [= <-]. exact Hp.
  - intros Hq. now apply (Hc v).
Qed.

Lemma currentProgress_pointsConsistent (now : Z) (u : ObjectId) (db : Db) :
  pointsKept db -> pointsConsistent (Treasures db) (currentProgress now u db).
Proof.
  intros Hc. unfold currentProgress.
  destruct (findOne u db) as [p |] eqn:Hone; [now apply (Hc u) |].
  apply pointsConsistent_initial.
Qed.

Lemma handle_pointsKept (db : Db) (r : Request) :
  pointsKept db -> pointsKept (handle db r).
Proof.
  intros Hc. destruct r as [now u | now u tid | u b | u]; simpl.
  - unfold getProgress. destruct (findOne u db) as [p |] eqn:Hone; [exact Hc |].
    cbn [fst create save]. apply pointsKept_insert; [exact Hc |].
    apply pointsConsistent_initial.
  - destruct (unlockTreasure_cases now db u tid)
      as [[_ ->] | [(t & p & _ & _ & _ & ->) | (t & Hfind & Hnot & ->)]];
      try exact Hc.
    apply pointsKept_insert; [exact Hc |].
    exact (awardTreasure_pointsConsistent (Treasures db) t tid
             (currentProgress now u db) Hfind Hnot
             (currentProgress_pointsConsistent now u db Hc)).
  - unfold updateBriefing. destruct (findOne u db) as [p |] eqn:Hone; [| exact Hc].
    cbn [fst]. apply pointsKept_insert; [exact Hc |].
    exact (Hc u p Hone).
  - unfold resetUserProgress.
    destruct (findOne u db) as [p |] eqn:Hone; [| exact Hc].
    cbn [fst]. apply pointsKept_insert; [exact Hc |].
    apply pointsConsistent_initial.
Qed.

Lemma serve_pointsKept (rs : list Request) (db : Db) :
  pointsKept db -> pointsKept (serve db rs) /\ Treasures (serve db rs) = Treasures db.
Proof.
  unfold serve. revert db. induction rs as [| r rs IH]; intros db Hc; [now split |].
  cbn [fold_left]. destruct (IH (handle db r) (handle_pointsKept db r Hc)) as [H1 H2].
  split; [exact H1 | now rewrite H2, handle_Treasures].
Qed.

(** X1.  Whatever requests (progress reads, unlocks, briefing updates,
    resets) the server answers one after the other over a fixed catalog,
    every stored record keeps: totalPoints = the sum of the points of its
    unlocked treasures, level = floor(totalPoints / 200) + 1, no treasure
    listed twice, and every listed treasure present in the catalog,
    provided the records stored at the start satisfy these four conditions.
    Nothing is asked of the badges stored at the start. *)
Theorem requests_keep_points_and_level (db : Db) (rs : list Request)
    (u : ObjectId) (p : UserProgress) :
  pointsKept db ->
  findOne u (serve db rs) = Some p ->
  totalPoints p = sumPoints (Treasures db) (unlockedTreasures p) /\
  level p = totalPoints p / 200 + 1 /\
  NoDup (unlockedTreasures p) /\
  (forall id, In id (unlockedTreasures p) ->
              exists t, findById id (Treasures db) = Some t).
Proof.
  intros Hc Hone. destruct (serve_pointsKept rs db Hc) as [Hc' Ht].
  pose proof (Hc' u p Hone) as Hp. rewrite Ht in Hp. exact Hp.
Qed.

Lemma requests_keep_points_and_level_witness :
  pointsKept staleDb /\
  exists p, findOne "u1" (serve staleDb demoRequests) = Some p /\
            totalPoints p = 180 /\ level p = 1.
Proof.
  assert (Hk : pointsKept staleDb).
  { intros u p. unfold findOne, staleDb. cbn [Progress Treasures].
    rewrite lookup_singleton_Some. intros [_ <-].
    repeat split; cbn.
    - apply NoDup_singleton.
    - intros id [<- | []]. eexists. reflexivity. }
  split; [exact Hk |].
  eexists. split; [vm_compute; reflexivity |].
  destruct (requests_keep_points_and_level staleDb demoRequests "u1" _
              Hk ltac:(vm_compute; reflexivity))
    as (Hsum & Hlev & _).
  split; [exact Hsum | exact Hlev].
Defined.

(** X2.  Over the same sequences of requests the stored badge array never
    holds a badge twice and holds exactly the badges its unlocked list earns
    under the four rules (nothing is missing and nothing is unearned),
    provided every record stored at the start satisfies both the four
    conditions of X1 on total, level and unlocked list and this condition
    on its badges. *)
Theorem requests_keep_badges_exact (db : Db) (rs : list Request)
    (u : ObjectId) (p : UserProgress) :
  consistent db ->
  findOne u (serve db rs) = Some p ->
  NoDup (badges p) /\
  (forall b, In b (badges p) <-> earns (Treasures db) (unlockedTreasures p) b).
Proof.
  intros Hc Hone. destruct (serve_consistent rs db Hc) as [Hc' Ht].
  destruct (Hc' u p Hone) as [_ Hb]. rewrite Ht in Hb. exact Hb.
Qed.

Lemma requests_keep_badges_exact_witness :
  exists p, findOne "u1" (serve (mkDb demoCatalog ∅) demoRequests) = Some p /\
            badges p = ["explorer"; "socialite"] /\
            (In "scholar" (badges p) <->
             earns demoCatalog (unlockedTreasures p) "scholar").
Proof.
  eexists. split; [vm_compute; reflexivity |].
  split; [reflexivity |].
  apply (requests_keep_badges_exact (mkDb demoCatalog ∅) demoRequests "u1" _
           (consistent_empty demoCatalog) ltac:(vm_compute; reflexivity)).
Defined.

(** ** Unlocking in either order *)

Lemma unlockTreasure_awarded (now : Z) (db : Db) (u tid : ObjectId) (t : Treasure) :
  findById tid (Treasures db) = Some t ->
  ~ In tid (unlockedTreasures (currentProgress now u db)) ->
  fst (unlockTreasure now db u tid)
  = mkDb (Treasures db)
         (<[u := set_updatedAt now
                   (awardTreasure (Treasures db) t (currentProgress now u db))]>
            (Progress db)).
Proof.
  intros Hfind Hnot.
  destruct (unlockTreasure_cases now db u tid)
    as [[Hn _] | [(t' & p & _ & Hone & Hin & _) | (t' & Hf & _ & Hrun)]].
  - congruence.
  - exfalso. apply Hnot. unfold currentProgress. now rewrite Hone.
  - rewrite Hrun. congruence.
Qed.

Lemma currentProgress_stored (now : Z) (u : ObjectId) (coll : list Treasure)
    (m : gmap ObjectId UserProgress) (p : UserProgress) :
  currentProgress now u (mkDb coll (<[u := p]> m)) = p.
Proof.
  unfold currentProgress, findOne. cbn [Progress].
  now rewrite lookup_insert_eq.
Qed.

Lemma earns_master (coll : list Treasure) (l : list ObjectId) :
  earns coll l "master" <-> length l = length coll /\ coll <> [].
Proof.
  unfold earns. split.
  - intros [(H & _) | [(H & _) | [(H & _) | (_ & H)]]];
      try discriminate H. exact H.
  - intros H. do 3 right. now split.
Qed.

(** Two unlocks in a row: where the record ends up. *)
Lemma unlock_two (now1 now2 : Z) (db : Db) (u a b : ObjectId) (ta tb : Treasure) :
  findById a (Treasures db) = Some ta ->
  findById b (Treasures db) = Some tb ->
  a <> b ->
  ~ In a (unlockedTreasures (currentProgress now1 u db)) ->
  ~ In b (unlockedTreasures (currentProgress now1 u db)) ->
  exists p,
    findOne u (serve db [UnlockTreasure now1 u a; UnlockTreasure now2 u b]) = Some p /\
    unlockedTreasures p
      = (unlockedTreasures (currentProgress now1 u db) ++ [a]) ++ [b] /\
    totalPoints p
      = totalPoints (currentProgress now1 u db) + points ta + points tb /\
    level p = totalPoints p / 200 + 1 /\
    (forall x, In x (badges p) <->
       In x (badges (currentProgress now1 u db)) \/
       earns (Treasures db) (unlockedTreasures (currentProgress now1 u db) ++ [a]) x \/
       earns (Treasures db)
             ((unlockedTreasures (currentProgress now1 u db) ++ [a]) ++ [b]) x).
Proof.
  intros Ha Hb Hab Hna Hnb.
  destruct (findById_id _ _ _ Ha) as [Hida _].
  destruct (findById_id _ _ _ Hb) as [Hidb _].
  unfold serve. cbn [fold_left handle].
  rewrite (unlockTreasure_awarded now1 db u a ta Ha Hna).
  set (p1 := set_updatedAt now1
               (awardTreasure (Treasures db) ta (currentProgress now1 u db))).
  destruct (awardTreasure_fields (Treasures db) ta (currentProgress now1 u db))
    as (Hu1 & Ht1 & Hl1 & _).
  assert (Hnb1 : ~ In b (unlockedTreasures
                           (currentProgress now2 u
                              (mkDb (Treasures db) (<[u := p1]> (Progress db)))))).
  { rewrite currentProgress_stored. subst p1.
    cbn [unlockedTreasures set_updatedAt]. rewrite Hu1, Hida.
    intros Hin. apply in_app_or in Hin as [Hin | [Heq | []]];
      [contradiction | congruence]. }
  rewrite (unlockTreasure_awarded now2
             (mkDb (Treasures db) (<[u := p1]> (Progress db))) u b tb Hb Hnb1).
  rewrite currentProgress_stored. cbn [Treasures Progress].
  destruct (awardTreasure_fields (Treasures db) tb p1) as (Hu2 & Ht2 & Hl2 & _).
  eexists. split; [unfold findOne; cbn [Progress]; apply lookup_insert_eq |].
  cbn [unlockedTreasures totalPoints level badges set_updatedAt].
  rewrite Hu2, Ht2, Hl2. subst p1.
  cbn [unlockedTreasures totalPoints set_updatedAt].
  rewrite Hu1, Ht1, Hida, Hidb.
  split; [reflexivity |]. split; [lia |]. split; [reflexivity |].
  intros x. rewrite awardTreasure_badges.
  cbn [unlockedTreasures badges set_updatedAt].
  rewrite awardTreasure_badges, Hu1, Hida, Hidb. tauto.
Qed.

(** X3.  The order of two unlocks does not matter for the result: whether a
    player unlocks a then b or b then a, the stored record has the same
    total, the same level, the same unlocked treasures (in the order found)
    and the same set of badges. *)
Theorem unlock_order_irrelevant
    (now1 now2 : Z) (db : Db) (u a b : ObjectId) (ta tb : Treasure) :
  findById a (Treasures db) = Some ta ->
  findById b (Treasures db) = Some tb ->
  a <> b ->
  ~ In a (unlockedTreasures (currentProgress now1 u db)) ->
  ~ In b (unlockedTreasures (currentProgress now1 u db)) ->
  exists p q,
    findOne u (serve db [UnlockTreasure now1 u a; UnlockTreasure now2 u b]) = Some p /\
    findOne u (serve db [UnlockTreasure now1 u b; UnlockTreasure now2 u a]) = Some q /\
    totalPoints p = totalPoints q /\
    level p = level q /\
    Permutation (unlockedTreasures p) (unlockedTreasures q) /\
    (forall x, In x (badges p) <-> In x (badges q)).
Proof.
  intros Ha Hb Hab Hna Hnb.
  destruct (unlock_two now1 now2 db u a b ta tb Ha Hb Hab Hna Hnb)
    as (p & Hp & Hup & Htp & Hlp & Hbp).
  destruct (unlock_two now1 now2 db u b a tb ta Hb Ha (not_eq_sym Hab) Hnb Hna)
    as (q & Hq & Huq & Htq & Hlq & Hbq).
  exists p, q. split; [exact Hp |]. split; [exact Hq |].
  set (l := unlockedTreasures (currentProgress now1 u db)) in *.
  assert (Hperm : Permutation ((l ++ [a]) ++ [b]) ((l ++ [b]) ++ [a])).
  { rewrite <- !app_assoc. apply Permutation_app_head. apply perm_swap. }
  split; [lia |]. split; [rewrite Hlp, Hlq; f_equal; f_equal; lia |].
  split; [now rewrite Hup, Huq |].
  assert (Hswap : forall (c d : ObjectId) x,
             earns (Treasures db) ((l ++ [c]) ++ [d]) x ->
             earns (Treasures db) ((l ++ [d]) ++ [c]) x).
  { intros c d x. apply earns_ext.
    - rewrite !length_app. simpl. lia.
    - intros id. rewrite !in_app_iff. simpl. tauto. }
  assert (Hone : forall (c d : ObjectId) x,
             earns (Treasures db) (l ++ [c]) x ->
             earns (Treasures db) (l ++ [d]) x \/
             earns (Treasures db) ((l ++ [d]) ++ [c]) x).
  { intros c d x Hx. destruct (String.eqb_spec x "master") as [-> | Hnm].
    - left. apply earns_master in Hx. apply earns_master.
      rewrite length_app in *. exact Hx.
    - right. apply Hswap. now apply earns_grows. }
  intros x. rewrite Hbp, Hbq. split.
  - intros [H | [H | H]]; [now left | | right; right; now apply Hswap].
    right. now apply Hone.
  - intros [H | [H | H]]; [now left | | right; right; now apply Hswap].
    right. now apply Hone.
Qed.

Lemma unlock_order_irrelevant_witness :
  exists p q,
    findOne "u1" (serve demoDb [UnlockTreasure 1 "u1" "t2"; UnlockTreasure 2 "u1" "t3"])
      = Some p /\
    findOne "u1" (serve demoDb [UnlockTreasure 1 "u1" "t3"; UnlockTreasure 2 "u1" "t2"])
      = Some q /\
    totalPoints p = totalPoints q /\ level p = level q.
Proof.
  destruct (unlock_order_irrelevant 1 2 demoDb "u1" "t2" "t3"
              (mkTreasure "t2" "Physics Lab" 150 academic)
              (mkTreasure "t3" "Student Union" 80 social))
    as (p & q & Hp & Hq & Ht & Hl & _).
  - reflexivity.
  - reflexivity.
  - discriminate.
  - vm_compute. intros [H | []]. discriminate H.
  - vm_compute. intros [H | []]. discriminate H.
  - exists p, q. repeat split; assumption.
Defined.

(** ** Deleting a treasure *)

Lemma pull_In (id x : ObjectId) (l : list ObjectId) :
  In x (pull id l) <-> In x l /\ x <> id.
Proof.
  unfold pull. rewrite filter_In, negb_true_iff, String.eqb_neq. reflexivity.
Qed.

Lemma pull_absent (id : ObjectId) (l : list ObjectId) :
  ~ In id l -> pull id l = l.
Proof.
  induction l as [| x l IH]; [reflexivity |]. intros Hnot. simpl.
  destruct (String.eqb_spec x id) as [-> | Hne]; simpl.
  - exfalso. apply Hnot. now left.
  - f_equal. apply IH. intros H. apply Hnot. now right.
Qed.

Lemma findById_deleted_other (id id' : ObjectId) (coll : list Treasure) :
  id' <> id ->
  findById id' (findByIdAndDelete id coll) = findById id' coll.
Proof.
  intros Hne. unfold findById.
  induction coll as [| t coll IH]; [reflexivity |]. simpl.
  destruct (String.eqb_spec (_id t) id) as [Heq | Hneq].
  - destruct (String.eqb_spec (_id t) id') as [Heq' | _]; [congruence | reflexivity].
  - simpl. destruct (String.eqb (_id t) id'); [reflexivity | exact IH].
Qed.

Lemma findById_absent (id : ObjectId) (coll : list Treasure) :
  ~ In id (map _id coll) -> findById id coll = None.
Proof.
  intros Hnot. unfold findById.
  destruct (find _ coll) as [t |] eqn:Hf; [| reflexivity].
  apply find_some in Hf as [Hin Heq]. apply String.eqb_eq in Heq.
  exfalso. apply Hnot. rewrite <- Heq. now apply in_map.
Qed.

Lemma findById_deleted (id : ObjectId) (coll : list Treasure) :
  List.NoDup (map _id coll) ->
  findById id (findByIdAndDelete id coll) = None.
Proof.
  induction coll as [| t coll IH]; [reflexivity |]. simpl. intros Hnd.
  inversion Hnd as [| x l Hx Hl]; subst.
  destruct (String.eqb_spec (_id t) id) as [Heq | Hneq].
  - apply findById_absent. now rewrite <- Heq.
  - unfold findById. simpl.
    destruct (String.eqb_spec (_id t) id) as [| _]; [contradiction |].
    now apply IH.
Qed.

Lemma pointsOf_deleted_other (id id' : ObjectId) (coll : list Treasure) :
  id' <> id -> pointsOf (findByIdAndDelete id coll) id' = pointsOf coll id'.
Proof. intros Hne. unfold pointsOf. now rewrite findById_deleted_other. Qed.

Lemma sumPoints_pull_absent (id : ObjectId) (coll : list Treasure)
    (l : list ObjectId) :
  ~ In id l -> sumPoints (findByIdAndDelete id coll) l = sumPoints coll l.
Proof.
  induction l as [| x l IH]; [reflexivity |]. intros Hnot. simpl.
  rewrite pointsOf_deleted_other, IH; [reflexivity | |]; intros H; apply Hnot;
    [now right | now left].
Qed.

Lemma sumPoints_pull (id : ObjectId) (coll : list Treasure) (l : list ObjectId)
    (t : Treasure) :
  findById id coll = Some t ->
  List.NoDup l -> In id l ->
  sumPoints coll l = sumPoints (findByIdAndDelete id coll) (pull id l) + points t.
Proof.
  intros Hfind. induction l as [| x l IH]; intros Hnd Hin; [destruct Hin |].
  inversion Hnd as [| y l' Hx Hl]; subst. simpl.
  destruct (String.eqb_spec x id) as [-> | Hne]; simpl.
  - rewrite (pointsOf_found _ _ _ Hfind), pull_absent by assumption.
    rewrite sumPoints_pull_absent by assumption. lia.
  - destruct Hin as [Heq | Hin]; [contradiction |].
    rewrite pointsOf_deleted_other by assumption.
    rewrite (IH Hl Hin). lia.
Qed.

Lemma deleteTreasure_found (db : Db) (id : ObjectId) (t : Treasure) :
  findById id (Treasures db) = Some t ->
  deleteTreasure db id
  = (mkDb (findByIdAndDelete id (Treasures db))
          ((fun p => set_unlockedTreasures (pull id (unlockedTreasures p)) p)
             <$> Progress db),
     Sent 200 tt None).
Proof.
  intros Hfind. unfold deleteTreasure. rewrite Hfind.
  now destruct (findById_id _ _ _ Hfind) as [-> _].
Qed.

(** X4.  [deleteTreasure] answers 404 and changes nothing for an unknown
    id.  For a catalog treasure (ids being unique) it answers 200, the id
    no longer resolves, every other id resolves as before, and no player's
    unlocked list mentions it any more while every other entry of every list
    stays, in order. *)
Theorem deleteTreasure_removes_every_reference (db : Db) (id : ObjectId) :
  (findById id (Treasures db) = None ->
     deleteTreasure db id = (db, Rejected 404 "Treasure not found")) /\
  (forall t, findById id (Treasures db) = Some t ->
     List.NoDup (map _id (Treasures db)) ->
     snd (deleteTreasure db id) = Sent 200 tt None /\
     findById id (Treasures (fst (deleteTreasure db id))) = None /\
     (forall id', id' <> id ->
        findById id' (Treasures (fst (deleteTreasure db id)))
        = findById id' (Treasures db)) /\
     (forall u, findOne u (fst (deleteTreasure db id)) = None
                <-> findOne u db = None) /\
     (forall u p', findOne u (fst (deleteTreasure db id)) = Some p' ->
        ~ In id (unlockedTreasures p') /\
        exists p, findOne u db = Some p /\
                  unlockedTreasures p' = pull id (unlockedTreasures p) /\
                  forall x, In x (unlockedTreasures p') <->
                            In x (unlockedTreasures p) /\ x <> id)).
Proof.
  split.
  - intros Hnone. unfold deleteTreasure. now rewrite Hnone.
  - intros t Hfind Hnd. rewrite (deleteTreasure_found db id t Hfind).
    cbn [fst snd Treasures]. split; [reflexivity |].
    split; [now apply findById_deleted |].
    split; [intros id' Hne; now apply findById_deleted_other |].
    unfold findOne. cbn [Progress].
    split.
    + intros u. rewrite lookup_fmap. destruct (Progress db !! u); simpl;
        split; congruence.
    + intros u p'. rewrite lookup_fmap.
      destruct (Progress db !! u) as [p |]; simpl; [| discriminate].
      intros [= <-]. cbn [unlockedTreasures set_unlockedTreasures].
      split; [rewrite pull_In; tauto |].
      exists p. split; [reflexivity |]. split; [reflexivity |].
      intros x. apply pull_In.
Qed.

Lemma deleteTreasure_removes_every_reference_witness :
  findById "t1" (Treasures (fst (deleteTreasure demoDb "t1"))) = None /\
  deleteTreasure demoDb "t9" = (demoDb, Rejected 404 "Treasure not found").
Proof.
  split.
  - apply (proj2 (deleteTreasure_removes_every_reference demoDb "t1")
             (mkTreasure "t1" "Library" 100 academic) eq_refl).
    vm_compute. repeat constructor; simpl; intuition discriminate.
  - apply (proj1 (deleteTreasure_removes_every_reference demoDb "t9")).
    reflexivity.
Defined.

(** X5.  [deleteTreasure] recomputes nothing: every player keeps the total,
    the level and the badges held before.  So a player who had unlocked the
    deleted treasure, and whose total was the sum of the unlocked points,
    afterwards has a total that exceeds the sum over the remaining unlocked
    treasures by exactly the deleted treasure's points. *)
Theorem deleteTreasure_keeps_points_and_badges
    (db : Db) (id u : ObjectId) (t : Treasure) (p : UserProgress) :
  findById id (Treasures db) = Some t ->
  findOne u db = Some p ->
  exists p',
    findOne u (fst (deleteTreasure db id)) = Some p' /\
    totalPoints p' = totalPoints p /\
    level p' = level p /\
    badges p' = badges p /\
    (~ In id (unlockedTreasures p) -> p' = p) /\
    (In id (unlockedTreasures p) ->
     List.NoDup (unlockedTreasures p) ->
     totalPoints p = sumPoints (Treasures db) (unlockedTreasures p) ->
     totalPoints p'
     = sumPoints (Treasures (fst (deleteTreasure db id))) (unlockedTreasures p')
       + points t).
Proof.
  intros Hfind Hone. rewrite (deleteTreasure_found db id t Hfind).
  cbn [fst Treasures]. unfold findOne in *. cbn [Progress].
  rewrite lookup_fmap, Hone. simpl. eexists. split; [reflexivity |].
  cbn [totalPoints level badges unlockedTreasures set_unlockedTreasures].
  repeat (split; [reflexivity |]).
  split.
  - intros Hnot. rewrite pull_absent by assumption. now destruct p.
  - intros Hin Hnd Hsum. rewrite Hsum. now apply sumPoints_pull.
Qed.

Lemma deleteTreasure_keeps_points_and_badges_witness :
  exists p',
    findOne "u1" (fst (deleteTreasure demoDb "t1")) = Some p' /\
    totalPoints p' = 100 /\ unlockedTreasures p' = [] /\
    sumPoints (Treasures (fst (deleteTreasure demoDb "t1"))) (unlockedTreasures p') = 0.
Proof.
  destruct (deleteTreasure_keeps_points_and_badges demoDb "t1" "u1"
              (mkTreasure "t1" "Library" 100 academic)
              (mkUserProgress "u1" ["t1"] 100 ["explorer"] 1 None 7)
              eq_refl eq_refl)
    as (p' & Hone & Ht & _ & _ & _ & Hsum).
  exists p'. split; [exact Hone |]. split; [exact Ht |].
  assert (Hp' : Some p' = Some (mkUserProgress "u1" [] 100 ["explorer"] 1 None 7))
    by (rewrite <- Hone; vm_compute; reflexivity).
  injection Hp' as ->. split; reflexivity.
Defined.

(** ** The mission briefing *)

(** X7.  [updateBriefing] never creates a record: for a player without one
    it answers 200 with null data and stores nothing.  For a player with a
    record it stores the text and changes no other field; a later
    [getProgress] returns the record with that text, and the text is still
    there after an unlock request, whatever its outcome. *)
Theorem updateBriefing_round_trip (db : Db) (u : ObjectId) (b : string) :
  (findOne u db = None -> updateBriefing db u b = (db, Sent 200 None None)) /\
  (forall p, findOne u db = Some p ->
     let p' := set_missionBriefing (Some b) p in
     fst (updateBriefing db u b)
       = mkDb (Treasures db) (<[u := p']> (Progress db)) /\
     snd (updateBriefing db u b)
       = Sent 200 (Some (p', populate (Treasures db) (unlockedTreasures p))) None /\
     unlockedTreasures p' = unlockedTreasures p /\
     totalPoints p' = totalPoints p /\ level p' = level p /\
     badges p' = badges p /\ updatedAt p' = updatedAt p /\
     (forall now,
        getProgress now (fst (updateBriefing db u b)) u
        = (fst (updateBriefing db u b),
           Ok p' (Some (populate (Treasures db) (unlockedTreasures p))) None)) /\
     (forall now tid,
        exists q,
          findOne u (fst (unlockTreasure now (fst (updateBriefing db u b)) u tid))
            = Some q /\
          missionBriefing q = Some b)).
Proof.
  split.
  - intros Hnone. unfold updateBriefing. now rewrite Hnone.
  - intros p Hone p'. unfold updateBriefing. rewrite Hone. cbn [fst snd].
    fold p'. split; [reflexivity |]. split; [reflexivity |].
    repeat (split; [reflexivity |]).
    assert (Hstored : findOne u (mkDb (Treasures db) (<[u := p']> (Progress db)))
                      = Some p')
      by (unfold findOne; cbn [Progress]; apply lookup_insert_eq).
    split.
    + intros now. unfold getProgress. rewrite Hstored. reflexivity.
    + intros now tid.
      destruct (unlockTreasure_cases now
                  (mkDb (Treasures db) (<[u := p']> (Progress db))) u tid)
        as [[_ ->] | [(t & q & _ & _ & _ & ->) | (t & Hfind & Hnot & ->)]].
      * exists p'. split; [exact Hstored | reflexivity].
      * exists p'. split; [exact Hstored | reflexivity].
      * eexists. split; [unfold findOne; cbn [Progress]; apply lookup_insert_eq |].
        cbn [missionBriefing set_updatedAt].
        rewrite currentProgress_stored.
        destruct (awardTreasure_fields
                    (Treasures (mkDb (Treasures db) (<[u := p']> (Progress db)))) t p')
          as (_ & _ & _ & ->).
        reflexivity.
Qed.

Lemma updateBriefing_round_trip_witness :
  updateBriefing demoDb "u2" "Hello" = (demoDb, Sent 200 None None) /\
  exists q,
    findOne "u1" (fst (unlockTreasure 9 (fst (updateBriefing demoDb "u1" "Hello"))
                         "u1" "t2")) = Some q /\
    missionBriefing q = Some "Hello".
Proof.
  split.
  - apply (proj1 (updateBriefing_round_trip demoDb "u2" "Hello")). reflexivity.
  - destruct (proj2 (updateBriefing_round_trip demoDb "u1" "Hello")
                (mkUserProgress "u1" ["t1"] 100 ["explorer"] 1 None 7) eq_refl)
      as (_ & _ & _ & _ & _ & _ & _ & _ & H).
    exact (H 9 "t2").
Defined.

(** ** Requests of different players *)

Module IndependenceFacts.
Import Interleaving.

Lemma owner_step (db : Db) (t : Task) (u : ObjectId) :
  owner t = Some u ->
  owner (snd (step db t)) = Some u \/ owner (snd (step db t)) = None.
Proof.
  destruct t as [now v tid | now v tr | now v tr | now v tr p | now v tr p0 p | r];
    simpl; intros [= ->].
  - destruct (findById tid (Treasures db)); simpl; auto.
  - destruct (findOne u db); simpl; auto.
  - destruct (findOne u db); simpl; auto.
  - destruct (includes _ _); simpl; auto.
  - right. destruct (findOne u db); reflexivity.
Qed.

(** A segment touches only its owner's record and never the catalog. *)
Lemma step_frame (db : Db) (t : Task) (u : ObjectId) :
  (owner t = Some u \/ owner t = None) ->
  Treasures (fst (step db t)) = Treasures db /\
  forall v, v <> u -> Progress (fst (step db t)) !! v = Progress db !! v.
Proof.
  intros Ho.
  destruct t as [now w tid | now w tr | now w tr | now w tr p | now w tr p0 p | r];
    simpl in *.
  - destruct (findById tid (Treasures db)); simpl; auto.
  - destruct (findOne w db); simpl; auto.
  - destruct (findOne w db); simpl; [auto |].
    split; [reflexivity |]. intros v Hv.
    destruct Ho as [[= ->] | [=]]. now apply lookup_insert_ne.
  - destruct (includes _ _); simpl; auto.
  - destruct (findOne w db); simpl; [| auto].
    split; [reflexivity |]. intros v Hv.
    destruct Ho as [[= ->] | [=]]. now apply lookup_insert_ne.
  - auto.
Qed.

(** What a segment does depends only on the catalog and its owner's record. *)
Lemma step_local (d1 d2 : Db) (t : Task) (u : ObjectId) :
  (owner t = Some u \/ owner t = None) ->
  agree u d1 d2 ->
  snd (step d1 t) = snd (step d2 t) /\ agree u (fst (step d1 t)) (fst (step d2 t)).
Proof.
  intros Ho [Hc Hp].
  destruct t as [now w tid | now w tr | now w tr | now w tr p | now w tr p0 p | r];
    simpl in *.
  - rewrite Hc. destruct (findById tid (Treasures d2)); simpl; repeat split; auto.
  - destruct Ho as [[= ->] | [=]]. unfold findOne. rewrite Hp.
    destruct (Progress d2 !! u) eqn:E; simpl; repeat split; auto; congruence.
  - destruct Ho as [[= ->] | [=]]. unfold findOne. rewrite Hp.
    destruct (Progress d2 !! u) eqn:E; simpl; repeat split; auto; try congruence.
    cbn [Progress]. now rewrite !lookup_insert_eq.
  - rewrite Hc. destruct (includes _ _); simpl; repeat split; auto.
  - destruct Ho as [[= ->] | [=]]. unfold findOne. rewrite Hp, Hc.
    destruct (Progress d2 !! u) eqn:E; simpl; repeat split; auto; try congruence.
    cbn [Progress]. now rewrite !lookup_insert_eq.
  - repeat split; auto.
Qed.

Lemma run1_owner (n : nat) (db : Db) (t : Task) (u : ObjectId) :
  (owner t = Some u \/ owner t = None) ->
  owner (snd (run1 n db t)) = Some u \/ owner (snd (run1 n db t)) = None.
Proof.
  revert db t. induction n as [| n IH]; intros db t Ho; [exact Ho |].
  cbn [run1]. destruct (step db t) as [db' t'] eqn:Hs. apply IH.
  destruct Ho as [Ho | Ho].
  - pose proof (owner_step db t u Ho) as H. now rewrite Hs in H.
  - destruct t; try discriminate Ho. simpl in Hs. injection Hs as <- <-. now right.
Qed.

Lemma run1_local (n : nat) (d1 d2 : Db) (t : Task) (u : ObjectId) :
  (owner t = Some u \/ owner t = None) ->
  agree u d1 d2 ->
  snd (run1 n d1 t) = snd (run1 n d2 t) /\
  agree u (fst (run1 n d1 t)) (fst (run1 n d2 t)).
Proof.
  revert d1 d2 t. induction n as [| n IH]; intros d1 d2 t Ho Hag; [now split |].
  cbn [run1].
  destruct (step_local d1 d2 t u Ho Hag) as [Ht Hag'].
  pose proof (run1_owner 1 d1 t u Ho) as Ho'. cbn [run1] in Ho'.
  destruct (step d1 t) as [d1' t1]. destruct (step d2 t) as [d2' t2].
  cbn [fst snd] in *. subst t2. now apply IH.
Qed.

Lemma run1_frame (n : nat) (db : Db) (t : Task) (u : ObjectId) :
  (owner t = Some u \/ owner t = None) ->
  Treasures (fst (run1 n db t)) = Treasures db /\
  forall v, v <> u -> Progress (fst (run1 n db t)) !! v = Progress db !! v.
Proof.
  revert db t. induction n as [| n IH]; intros db t Ho; [now split |].
  cbn [run1].
  destruct (step_frame db t u Ho) as [Hc Hf].
  pose proof (run1_owner 1 db t u Ho) as Ho'. cbn [run1] in Ho'.
  destruct (step db t) as [db' t']. cbn [fst snd] in *.
  destruct (IH db' t' Ho') as [Hc' Hf'].
  split; [congruence |]. intros v Hv. rewrite Hf', Hf; auto.
Qed.

Lemma run1_S (n : nat) (db : Db) (t : Task) :
  run1 (S n) db t = run1 n (fst (step db t)) (snd (step db t)).
Proof. cbn [run1]. now destruct (step db t). Qed.

(** Under any schedule, each of two requests of different players ends where
    it would have ended running alone for as many segments. *)
Lemma run2_independent (sched : list bool) (db : Db) (a b : Task)
    (ua ub : ObjectId) :
  ua <> ub ->
  (owner a = Some ua \/ owner a = None) ->
  (owner b = Some ub \/ owner b = None) ->
  let '(db', a', b') := run2 sched db a b in
  a' = snd (run1 (turns false sched) db a) /\
  b' = snd (run1 (turns true sched) db b) /\
  Treasures db' = Treasures db /\
  Progress db' !! ua = Progress (fst (run1 (turns false sched) db a)) !! ua /\
  Progress db' !! ub = Progress (fst (run1 (turns true sched) db b)) !! ub /\
  forall v, v <> ua -> v <> ub -> Progress db' !! v = Progress db !! v.
Proof.
  intros Hne. revert db a b.
  induction sched as [| who sched IH]; intros db a b Ha Hb.
  - cbn. repeat split; auto.
  - destruct who; cbn [run2].
    + (* the second request moves *)
      pose proof (run1_owner 1 db b ub Hb) as Hb'. cbn [run1] in Hb'.
      destruct (step_frame db b ub Hb) as [Hc Hf].
      destruct (step db b) as [db1 b1] eqn:Hs. cbn [fst snd] in *.
      specialize (IH db1 a b1 Ha Hb').
      destruct (run2 sched db1 a b1) as [[db' a'] b'].
      destruct IH as (Ea & Eb & Et & Pa & Pb & Pv).
      assert (Hag : agree ua db1 db) by (split; [exact Hc | now apply Hf]).
      destruct (run1_local (turns false sched) db1 db a ua Ha Hag) as [Hl1 [_ Hl2]].
      unfold turns in *. cbn [List.filter Bool.eqb length].
      rewrite run1_S, Hs. cbn [fst snd].
      repeat split.
      * congruence.
      * exact Eb.
      * congruence.
      * congruence.
      * exact Pb.
      * intros v Hva Hvb. rewrite Pv, Hf; auto.
    + (* the first request moves *)
      pose proof (run1_owner 1 db a ua Ha) as Ha'. cbn [run1] in Ha'.
      destruct (step_frame db a ua Ha) as [Hc Hf].
      destruct (step db a) as [db1 a1] eqn:Hs. cbn [fst snd] in *.
      specialize (IH db1 a1 b Ha' Hb).
      destruct (run2 sched db1 a1 b) as [[db' a'] b'].
      destruct IH as (Ea & Eb & Et & Pa & Pb & Pv).
      assert (Hag : agree ub db1 db)
        by (split; [exact Hc | apply Hf; congruence]).
      destruct (run1_local (turns true sched) db1 db b ub Hb Hag) as [Hl1 [_ Hl2]].
      unfold turns in *. cbn [List.filter Bool.eqb length].
      rewrite run1_S, Hs. cbn [fst snd].
      repeat split.
      * exact Ea.
      * congruence.
      * congruence.
      * exact Pa.
      * congruence.
      * intros v Hva Hvb. rewrite Pv, Hf; auto.
Qed.

(** A request that has answered stays where it is. *)
Lemma run1_more (n : nat) (db : Db) (now : Z) (u tid : ObjectId) :
  (5 <= n)%nat ->
  run1 n db (Requested now u tid) = run1 5 db (Requested now u tid).
Proof.
  intros Hn. replace n with (5 + (n - 5))%nat by lia.
  generalize (n - 5)%nat as k. intros k.
  assert (Hsplit : forall i j d t, run1 (i + j) d t
                                   = run1 j (fst (run1 i d t)) (snd (run1 i d t))).
  { induction i as [| i IHi]; intros j d t; [reflexivity |].
    cbn [Nat.add run1]. destruct (step d t). apply IHi. }
  rewrite Hsplit, InterleavingFacts.run1_unlockTreasure. cbn [fst snd].
  induction k as [| k IHk]; [reflexivity | exact IHk].
Qed.

End IndependenceFacts.

(** X8.  Unlock requests of two different players do not interfere, however
    their segments interleave: once each has had its five turns, each has
    received exactly the answer it would have received alone on the
    original database, its own record is the one that solo run would have
    stored, and the catalog and every other player's record are untouched. *)
Theorem unlock_requests_of_different_players_are_independent
    (sched : list bool) (db : Db) (now1 now2 : Z) (u1 u2 tid1 tid2 : ObjectId) :
  u1 <> u2 ->
  (5 <= turns false sched)%nat ->
  (5 <= turns true sched)%nat ->
  let '(db', a, b) :=
    Interleaving.run2 sched db (Interleaving.Requested now1 u1 tid1)
                               (Interleaving.Requested now2 u2 tid2) in
  a = Interleaving.Responded (snd (unlockTreasure now1 db u1 tid1)) /\
  b = Interleaving.Responded (snd (unlockTreasure now2 db u2 tid2)) /\
  Treasures db' = Treasures db /\
  findOne u1 db' = findOne u1 (fst (unlockTreasure now1 db u1 tid1)) /\
  findOne u2 db' = findOne u2 (fst (unlockTreasure now2 db u2 tid2)) /\
  forall v, v <> u1 -> v <> u2 -> findOne v db' = findOne v db.
Proof.
  intros Hne H1 H2.
  pose proof (IndependenceFacts.run2_independent sched db
                (Interleaving.Requested now1 u1 tid1)
                (Interleaving.Requested now2 u2 tid2) u1 u2 Hne
                (or_introl eq_refl) (or_introl eq_refl)) as H.
  destruct (Interleaving.run2 sched db _ _) as [[db' a] b].
  rewrite (IndependenceFacts.run1_more _ db now1 u1 tid1 H1) in H.
  rewrite (IndependenceFacts.run1_more _ db now2 u2 tid2 H2) in H.
  rewrite !InterleavingFacts.run1_unlockTreasure in H. cbn [fst snd] in H.
  exact H.
Qed.

Lemma unlock_requests_of_different_players_are_independent_witness :
  let '(db', a, b) :=
    Interleaving.run2 (raceSchedule ++ [true; false])
      (mkDb demoCatalog {[ "u1" := mkUserProgress "u1" ["t1"] 100 ["explorer"] 1 None 7;
                           "u2" := mkUserProgress "u2" [] 0 [] 1 None 7 ]})
      (Interleaving.Requested 9 "u1" "t2") (Interleaving.Requested 9 "u2" "t2") in
  Interleaving.isAwarded a = true /\ Interleaving.isAwarded b = true.
Proof.
  pose proof (unlock_requests_of_different_players_are_independent
                (raceSchedule ++ [true; false])
                (mkDb demoCatalog
                   {[ "u1" := mkUserProgress "u1" ["t1"] 100 ["explorer"] 1 None 7;
                      "u2" := mkUserProgress "u2" [] 0 [] 1 None 7 ]})
                9 9 "u1" "u2" "t2" "t2"
                ltac:(discriminate) ltac:(vm_compute; lia) ltac:(vm_compute; lia)) as H.
  destruct (Interleaving.run2 _ _ _ _) as [[db' a] b].
  destruct H as (-> & -> & _). split; reflexivity.
Defined.

(** ** Printed codes and the scanner *)

(** X9.  A code printed by the admin panel for treasure A and scanned while
    treasure B is selected is accepted exactly when A is B: it is a Match
    carrying the id when the ids are equal and a Mismatch otherwise, never
    Malformed and never taken for an empty frame. *)
Theorem printed_code_round_trip (printedId targetId : ObjectId) :
  Scanner.scanQRCode (Some (AdminPanel.qrData printedId)) targetId
  = (if String.eqb printedId targetId
     then Scanner.Match printedId else Scanner.Mismatch) /\
  (Scanner.scanQRCode (Some (AdminPanel.qrData printedId)) targetId
   = Scanner.Match targetId <-> printedId = targetId).
Proof.
  assert (Hscan : Scanner.scanQRCode (Some (AdminPanel.qrData printedId)) targetId
                  = if String.eqb printedId targetId
                    then Scanner.Match printedId else Scanner.Mismatch).
  { unfold Scanner.scanQRCode, AdminPanel.qrData, Scanner.startsWith.
    rewrite ScannerFacts.replace_prefix.
    assert (Hpre : String.prefix "geohunt:" ("geohunt:" ++ printedId)%string = true)
      by (apply ScannerFacts.prefix_app; now exists printedId).
    rewrite Hpre. reflexivity. }
  split; [exact Hscan |].
  rewrite Hscan. destruct (String.eqb_spec printedId targetId) as [-> | Hne].
  - split; reflexivity.
  - split; [discriminate | contradiction].
Qed.

(** ** The nearest locked treasure *)

Module MapViewFacts.
Import Doubles MapView.
Local Open Scope float_scope.

Lemma lockedTreasures_In (treasures : list Treasure) (unlockedIds : list string)
    (t : Treasure) :
  In t (lockedTreasures treasures unlockedIds)
  <-> In t treasures /\ ~ In (id t) unlockedIds.
Proof.
  unfold lockedTreasures.
  rewrite filter_In, negb_true_iff, includes_false. reflexivity.
Qed.

Lemma closer_unfold (Math : MathObject) (pos : float * float)
    (t0 : Treasure) (d0 : float) (t : Treasure) :
  closer Math pos (t0, d0) t
  = if distanceTo Math pos t <? d0 then (t, distanceTo Math pos t) else (t0, d0).
Proof. reflexivity. Qed.

(** The loop, entered with treasure [t] at its distance [d] after the
    treasures [seen], none of which passes the test [dist < d]: it ends with
    a treasure and its distance, the treasure is [t] or one of [l], and
    none of [seen] or [l] passes the test against the final distance. *)
Lemma closer_fold (Math : MathObject) (pos : float * float) (l : list Treasure) :
  forall (seen : list Treasure) (t : Treasure) (d : float),
  d = distanceTo Math pos t ->
  (forall s, In s seen -> (distanceTo Math pos s <? d) = false) ->
  let r := fold_left (closer Math pos) l (t, d) in
  snd r = distanceTo Math pos (fst r) /\
  (fst r = t \/ In (fst r) l) /\
  forall s, In s (seen ++ l) -> (distanceTo Math pos s <? snd r) = false.
Proof.
  induction l as [| x l IH]; intros seen t d Hd Hseen; cbn zeta.
  - cbn [fold_left fst snd]. rewrite app_nil_r. repeat split; auto.
  - cbn [fold_left]. rewrite closer_unfold.
    destruct (distanceTo Math pos x <? d) eqn:Hlt.
    + destruct (IH (seen ++ [x]) x (distanceTo Math pos x) eq_refl)
        as (H1 & H2 & H3).
      { intros s Hs. apply in_app_or in Hs as [Hs | [<- | []]].
        - exact (DoubleFacts.ltb_chain _ _ _ Hlt (Hseen s Hs)).
        - apply DoubleFacts.ltb_irrefl. }
      cbn zeta in *. split; [exact H1 |]. split.
      * right. destruct H2 as [-> | H2]; [now left | now right].
      * intros s Hs. apply H3. rewrite <- app_assoc. exact Hs.
    + destruct (IH (seen ++ [x]) t d Hd) as (H1 & H2 & H3).
      { intros s Hs. apply in_app_or in Hs as [Hs | [<- | []]].
        - now apply Hseen.
        - exact Hlt. }
      cbn zeta in *. split; [exact H1 |]. split.
      * destruct H2 as [-> | H2]; [now left | right; now right].
      * intros s Hs. apply H3. rewrite <- app_assoc. exact Hs.
Qed.

(** Once the minimum is NaN the loop never replaces it. *)
Lemma closer_nan (Math : MathObject) (pos : float * float) (l : list Treasure)
    (t : Treasure) (d : float) :
  is_nan d = true -> fold_left (closer Math pos) l (t, d) = (t, d).
Proof.
  intros Hnan. induction l as [| x l IH]; [reflexivity |].
  cbn [fold_left]. rewrite closer_unfold.
  now rewrite (DoubleFacts.ltb_nan_r _ d Hnan).
Qed.

End MapViewFacts.

(** X10.  [nearestTreasure] is null exactly when there is no position or no
    locked treasure.  Otherwise it returns a treasure of the list that is
    not unlocked, together with the distance computed for it, and no locked
    treasure of the list passes the loop's test [dist < minDist] against
    that distance.  When neither distance is NaN this means that the
    returned distance is at most the locked treasure's.  The guarantee ends
    where the distance function returns NaN: when it does so for the first
    locked treasure, that treasure is returned whatever the distances of
    the others. *)
Theorem nearestTreasure_is_nearest
    (Math : Doubles.MathObject) (userPos : option (float * float))
    (treasures : list Doubles.Treasure) (unlockedIds : list string) :
  (MapView.nearestTreasure Math userPos treasures unlockedIds = None <->
     userPos = None \/
     forall t, In t treasures -> In (Doubles.id t) unlockedIds) /\
  (forall pos t d,
     userPos = Some pos ->
     MapView.nearestTreasure Math userPos treasures unlockedIds = Some (t, d) ->
     In t treasures /\ ~ In (Doubles.id t) unlockedIds /\
     d = MapView.distanceTo Math pos t /\
     forall t', In t' treasures -> ~ In (Doubles.id t') unlockedIds ->
       (MapView.distanceTo Math pos t' <? d)%float = false /\
       (is_nan d = false -> is_nan (MapView.distanceTo Math pos t') = false ->
        (d <=? MapView.distanceTo Math pos t')%float = true)) /\
  (forall pos first rest,
     userPos = Some pos ->
     MapView.lockedTreasures treasures unlockedIds = first :: rest ->
     is_nan (MapView.distanceTo Math pos first) = true ->
     MapView.nearestTreasure Math userPos treasures unlockedIds
     = Some (first, MapView.distanceTo Math pos first)).
Proof.
  unfold MapView.nearestTreasure. split; [| split].
  - destruct userPos as [pos |]; [| split; [now left | reflexivity]].
    destruct (MapView.lockedTreasures treasures unlockedIds) as [| first rest] eqn:Hl.
    + split; [| reflexivity]. intros _. right. intros t Hin.
      destruct (in_dec String.string_dec (Doubles.id t) unlockedIds) as [H | H];
        [exact H |].
      assert (Hin' : In t (MapView.lockedTreasures treasures unlockedIds))
        by (apply MapViewFacts.lockedTreasures_In; now split).
      rewrite Hl in Hin'. destruct Hin'.
    + split; [discriminate |]. intros [H | H]; [discriminate H |]. exfalso.
      assert (Hin : In first (MapView.lockedTreasures treasures unlockedIds))
        by (rewrite Hl; now left).
      apply MapViewFacts.lockedTreasures_In in Hin as [Hin Hnot]. auto.
  - intros pos t d -> Hres.
    destruct (MapView.lockedTreasures treasures unlockedIds) as [| first rest] eqn:Hl;
      [discriminate |].
    assert (E : fold_left (MapView.closer Math pos) (first :: rest)
                  (first, MapView.distanceTo Math pos first) = (t, d))
      by (injection Hres as Hres; exact Hres).
    clear Hres.
    destruct (MapViewFacts.closer_fold Math pos (first :: rest) [] first _ eq_refl)
      as (H1 & H2 & H4); [intros s [] |].
    cbn zeta in *. rewrite E in *. cbn [fst snd app] in *.
    assert (Hin : In t (MapView.lockedTreasures treasures unlockedIds)).
    { rewrite Hl. destruct H2 as [-> | H2]; [now left | exact H2]. }
    apply MapViewFacts.lockedTreasures_In in Hin as [Hin Hnot].
    repeat split; try assumption.
    + apply H4. rewrite <- Hl. apply MapViewFacts.lockedTreasures_In. now split.
    + intros Hd Hd'. apply DoubleFacts.leb_of_not_ltb; try assumption.
      apply H4. rewrite <- Hl. apply MapViewFacts.lockedTreasures_In. now split.
  - intros pos first rest -> Hl Hnan. rewrite Hl.
    now rewrite (MapViewFacts.closer_nan Math pos (first :: rest) first _ Hnan).
Qed.

Lemma nearestTreasure_is_nearest_witness :
  MapView.nearestTreasure Doubles.exampleMath (Some (2.5, 0)%float)
    [Doubles.antipode; Doubles.here] []
  = Some (Doubles.antipode, nan) /\
  MapView.distanceTo Doubles.exampleMath (2.5, 0)%float Doubles.here = 0%float /\
  MapView.nearestTreasure Doubles.exampleMath (Some (2.5, 0)%float)
    [Doubles.here; Doubles.antipode] []
  = Some (Doubles.here, 0%float).
Proof.
  split; [| split; [reflexivity | reflexivity]].
  rewrite (proj2 (proj2 (nearestTreasure_is_nearest Doubles.exampleMath
                           (Some (2.5, 0)%float)
                           [Doubles.antipode; Doubles.here] []))
             (2.5, 0)%float Doubles.antipode [Doubles.here] eq_refl eq_refl eq_refl).
  reflexivity.
Defined.

(** ** The nearby counter and the scan button *)

(** X11.  The nearby counter of the status bar counts exactly the treasures
    whose Scan button would be enabled: those not yet unlocked and strictly
    within 50 m.  Without a position the counter is 0 and no Scan button is
    enabled. *)
Theorem nearbyCount_counts_enabled_scan_buttons
    (userLocation : option Geo.Coordinates) (treasures : list Geo.Treasure)
    (unlockedIds : list string) :
  App.nearbyCount userLocation treasures unlockedIds
  = length (List.filter
              (fun t => isEnabled (App.scanButton userLocation unlockedIds t))
              treasures) /\
  (forall t, App.scanButton userLocation unlockedIds t = App.Enabled <->
             ~ In (Geo.id t) unlockedIds /\
             exists d, Geo.getDistanceTo userLocation t = Geo.Meters d /\ (d < 50)%R) /\
  (App.nearbyCount userLocation treasures unlockedIds <= length treasures)%nat /\
  App.nearbyCount None treasures unlockedIds = 0%nat /\
  (forall t, App.scanButton None unlockedIds t <> App.Enabled).
Proof.
  split; [| split; [| split; [| split]]].
  - unfold App.nearbyCount. f_equal. apply filter_ext. intros t.
    unfold App.scanButton.
    destruct (includes (Geo.id t) unlockedIds), (Geo.isNear userLocation t);
      reflexivity.
  - intros t. unfold App.scanButton.
    destruct (includes (Geo.id t) unlockedIds) eqn:Hinc.
    + apply includes_In in Hinc. split; [discriminate | intros [H _]; contradiction].
    + apply includes_false in Hinc. unfold Geo.isNear, Geo.ltMeters.
      destruct (Geo.getDistanceTo userLocation t) as [d |].
      * destruct (Rlt_dec d 50) as [Hlt | Hge].
        -- split; [intros _; split; [assumption | now exists d] | reflexivity].
        -- split; [discriminate |].
           intros (_ & d' & [= <-] & Hlt). contradiction.
      * split; [discriminate | intros (_ & d & Hd & _); discriminate Hd].
  - unfold App.nearbyCount. apply List.filter_length_le.
  - unfold App.nearbyCount. induction treasures as [| t l IH]; [reflexivity |].
    simpl. exact IH.
  - intros t. unfold App.scanButton.
    destruct (includes (Geo.id t) unlockedIds); simpl; discriminate.
Qed.

(** ** The client and the server *)

Lemma populate_ids (coll : list Treasure) (ids : list ObjectId) (x : ObjectId) :
  In x (map _id (populate coll ids)) <->
  In x ids /\ exists t, findById x coll = Some t.
Proof.
  unfold populate. induction ids as [| y ids IH]; simpl.
  - split; [intros [] | intros [[] _]].
  - destruct (findById y coll) as [t |] eqn:Hf; simpl.
    + destruct (findById_id _ _ _ Hf) as [Hid _]. rewrite IH, Hid. split.
      * intros [<- | [Hin Hex]]; [split; [now left | eauto] | split; [now right | exact Hex]].
      * intros [[<- | Hin] Hex]; [now left | right; now split].
    + rewrite IH. split.
      * intros [Hin Hex]. split; [now right | exact Hex].
      * intros [[<- | Hin] [t Ht]]; [congruence | split; eauto].
Qed.

Lemma populate_resolved (coll : list Treasure) (ids : list ObjectId) :
  (forall x, In x ids -> exists t, findById x coll = Some t) ->
  map _id (populate coll ids) = ids.
Proof.
  unfold populate. induction ids as [| y ids IH]; intros Hres; [reflexivity |].
  simpl. destruct (Hres y (or_introl eq_refl)) as [t Ht]. rewrite Ht. simpl.
  destruct (findById_id _ _ _ Ht) as [-> _]. f_equal.
  apply IH. intros x Hx. apply Hres. now right.
Qed.

Lemma findById_present (coll : list Treasure) (x : ObjectId) :
  In x (map _id coll) -> exists t, findById x coll = Some t.
Proof.
  intros Hin. apply in_map_iff in Hin as (t & Hid & Hin).
  unfold findById. destruct (find _ coll) as [t' |] eqn:Hf; [eauto |].
  exfalso. apply (find_none _ _ Hf) in Hin. rewrite Hid, String.eqb_refl in Hin.
  discriminate.
Qed.

(** X12.  A client whose state mirrors the server never has an unlock
    rejected.  When the handler's guard lets a scanned id through, the
    server awards the treasure and the client takes over the new list,
    total, level and badges; otherwise nothing is sent and nothing changes.
    In both cases the client still mirrors the server afterwards.  When the
    stored list holds only catalog treasures, a client that has just found
    the last treasure (the case in which the completion screen is
    scheduled) holds the "master" badge. *)
Theorem client_in_sync_is_never_rejected
    (now : Z) (server : Db) (u : ObjectId) (st : App.State) (id : string) :
  App.inSync server u st ->
  let guard := includes id (App.treasureIds st)
               && negb (includes id (App.unlockedTreasureIds st)) in
  let '(server', st') := App.onScan now server u st id in
  App.inSync server' u st' /\
  (guard = false -> server' = server /\ st' = st) /\
  (guard = true ->
     exists t p',
       findById id (Treasures server) = Some t /\
       snd (unlockTreasure now server u id)
         = Ok p' (Some (populate (Treasures server) (unlockedTreasures p')))
              (Some (unlockMessage t)) /\
       findOne u server' = Some p' /\
       unlockedTreasures p'
         = unlockedTreasures (currentProgress now u server) ++ [id] /\
       App.clientPoints st' = totalPoints p' /\
       App.clientLevel st' = level p' /\
       App.clientBadges st' = badges p' /\
       App.isScannerOpen st' = false /\
       ((forall x, In x (unlockedTreasures (currentProgress now u server)) ->
                   exists t', findById x (Treasures server) = Some t') ->
        length (App.unlockedTreasureIds st') = length (App.treasureIds st') ->
        In "master" (App.clientBadges st') /\ App.showCompletion st' = true)).
Proof.
  intros [Hids Hunl]. cbn zeta. unfold App.onScan.
  destruct (includes id (App.treasureIds st)
            && negb (includes id (App.unlockedTreasureIds st))) eqn:Hguard.
  - apply andb_true_iff in Hguard as [Hin Hnot].
    apply includes_In in Hin. apply negb_true_iff, includes_false in Hnot.
    rewrite Hids in Hin. destruct (findById_present _ _ Hin) as [t Hfind].
    assert (Hfresh : ~ In id (unlockedTreasures (currentProgress now u server))).
    { intros Hc. apply Hnot. rewrite Hunl. apply populate_ids.
      unfold currentProgress in Hc.
      destruct (findOne u server); [split; eauto | destruct Hc]. }
    destruct (unlockTreasure_fresh now server u id t Hfind Hfresh)
      as (db1 & _ & Hrun & _).
    cbn zeta in Hrun. unfold App.callUnlock. rewrite Hrun.
    set (p' := set_updatedAt now
                 (awardTreasure (Treasures server) t (currentProgress now u server))).
    destruct (findById_id _ _ _ Hfind) as [Hid _].
    destruct (awardTreasure_fields (Treasures server) t (currentProgress now u server))
      as (Hu & _).
    assert (Hstored : findOne u (mkDb (Treasures server) (<[u := p']> (Progress db1)))
                      = Some p')
      by (unfold findOne; cbn [Progress]; apply lookup_insert_eq).
    split.
    + split; [exact Hids |]. cbn [App.unlockedTreasureIds]. now rewrite Hstored.
    + split; [discriminate |]. intros _. exists t, p'.
      split; [exact Hfind |]. split; [reflexivity |].
      split; [exact Hstored |].
      split; [subst p'; cbn [unlockedTreasures set_updatedAt]; now rewrite Hu, Hid |].
      repeat (split; [reflexivity |]).
      intros Hres Hlen. cbn [App.unlockedTreasureIds App.treasureIds] in Hlen.
      cbn [App.clientBadges App.showCompletion App.unlockedTreasureIds App.treasureIds].
      assert (Hall : map _id (populate (Treasures server) (unlockedTreasures p'))
                     = unlockedTreasures p').
      { apply populate_resolved. subst p'. cbn [unlockedTreasures set_updatedAt].
        rewrite Hu, Hid. intros x Hx.
        apply in_app_or in Hx as [Hx | [<- | []]]; eauto. }
      assert (Hlen' : length (unlockedTreasures p') = length (App.treasureIds st))
        by (rewrite <- Hall; exact Hlen).
      rewrite Hall.
      assert (Hne : (0 <? Z.of_nat (length (App.treasureIds st))) = true).
      { apply Z.ltb_lt. rewrite Hids. destruct (Treasures server); [destruct Hin |].
        simpl. lia. }
      rewrite (proj2 (Nat.eqb_eq _ _) Hlen'), Hne. split; [| reflexivity].
      subst p'. cbn [badges unlockedTreasures set_updatedAt] in *.
      apply awardTreasure_badges. right.
      apply earns_master. rewrite Hid.
      rewrite Hu, Hid in Hlen'.
      rewrite Hlen', Hids, length_map. split; [reflexivity |].
      destruct (Treasures server); [destruct Hin | discriminate].
  - split; [now split |]. split; [now split | discriminate].
Qed.

Lemma client_in_sync_is_never_rejected_witness :
  let '(server', st') := App.onScan 9 demoDb "u1" demoClient "t2" in
  App.inSync server' "u1" st' /\ App.clientPoints st' = 250.
Proof.
  pose proof (client_in_sync_is_never_rejected 9 demoDb "u1" demoClient "t2"
                ltac:(split; reflexivity)) as H.
  cbn zeta in H.
  destruct (App.onScan 9 demoDb "u1" demoClient "t2") as [server' st'] eqn:Hs.
  destruct H as (Hsync & _ & _).
  split; [exact Hsync |].
  vm_compute in Hs. injection Hs as _ <-. reflexivity.
Defined.

(** ** Access control *)

Lemma split_no_space (s : string) :
  hasNoSpace s -> split " " s = [s].
Proof.
  unfold hasNoSpace. induction s as [| c s IH]; [reflexivity |].
  intros Hno. cbn [split].
  destruct (Ascii.eqb_spec c " "%char) as [-> | Hc].
  - exfalso. apply Hno. now left.
  - rewrite IH; [reflexivity |]. intros H. apply Hno. now right.
Qed.

Lemma split_pieces_no_space (s : string) :
  Forall hasNoSpace (split " " s) /\ split " " s <> [].
Proof.
  induction s as [| c s [IH Hne]]; cbn [split].
  - split; [| discriminate]. constructor; [intros [] | constructor].
  - destruct (Ascii.eqb_spec c " "%char) as [-> | Hc].
    + split; [| discriminate]. constructor; [intros [] | exact IH].
    + destruct (split " " s) as [| piece pieces]; [congruence |].
      split; [| discriminate].
      inversion IH as [| ? ? Hp Hps]; subst. constructor; [| exact Hps].
      intros [H | H]; [congruence | exact (Hp H)].
Qed.

Lemma bearerToken_sent (token : string) :
  token <> "" -> hasNoSpace token ->
  bearerToken (authorizationHeader (Some token)) = Some token.
Proof.
  intros Hne Hno. unfold authorizationHeader, bearerToken.
  apply String.eqb_neq in Hne. rewrite Hne.
  change ("Bearer " ++ token)%string
    with (String "B" (String "e" (String "a" (String "r" (String "e"
            (String "r" (String " " token))))))).
  cbn -[split]. cbn [split Ascii.eqb Bool.eqb].
  rewrite (split_no_space token Hno). cbn [nth_error]. now rewrite Hne.
Qed.

Lemma bearerToken_shape (authorization : option string) (token : string) :
  bearerToken authorization = Some token ->
  token <> "" /\ hasNoSpace token /\
  exists header rest, authorization = Some header /\
                      header = ("Bearer" ++ rest)%string.
Proof.
  unfold bearerToken. destruct authorization as [header |]; [| discriminate].
  destruct (negb (String.eqb header "") && Scanner.startsWith header "Bearer")
    eqn:Hok; [| discriminate].
  apply andb_true_iff in Hok as [_ Hpre].
  apply ScannerFacts.prefix_app in Hpre as [rest Hrest].
  destruct (nth_error (split " " header) 1) as [tok |] eqn:Hnth; [| discriminate].
  destruct (String.eqb_spec tok "") as [| Hne]; [discriminate |].
  intros [= ->]. split; [exact Hne |]. split.
  - apply nth_error_In in Hnth.
    destruct (split_pieces_no_space header) as [Hall _].
    rewrite List.Forall_forall in Hall. now apply Hall.
  - exists header, rest. now split.
Qed.

(** X13.  The header the client sends for a stored token is read back by
    [protect] as that very token (a token is non-empty and has no space).
    [protect] lets a request through exactly when the header carries such a
    token, the token verifies, and the user it names still exists; what it
    passes on as [req.user] is that stored user without the password hash,
    which it never hands on. *)
Theorem protect_reads_the_client_header
    (verify : string -> option ObjectId) (users : gmap ObjectId User) :
  (forall token, token <> "" -> hasNoSpace token ->
     protect verify users (authorizationHeader (Some token))
     = match verify token with
       | None => Denied 401 "Not authorized to access this route"
       | Some id => match users !! id with
                    | None => Denied 401 "User not found"
                    | Some usr => Granted id (withoutPassword usr)
                    end
       end) /\
  protect verify users (authorizationHeader None)
    = Denied 401 "Not authorized to access this route" /\
  (forall authorization id usr,
     protect verify users authorization = Granted id usr <->
     exists token stored,
       bearerToken authorization = Some token /\ verify token = Some id /\
       users !! id = Some stored /\ usr = withoutPassword stored) /\
  (forall authorization id usr,
     protect verify users authorization = Granted id usr ->
     password usr = None /\
     exists token rest, authorization = Some ("Bearer" ++ rest)%string /\
                        token <> "" /\ hasNoSpace token /\
                        verify token = Some id).
Proof.
  assert (Hiff : forall authorization id usr,
     protect verify users authorization = Granted id usr <->
     exists token stored,
       bearerToken authorization = Some token /\ verify token = Some id /\
       users !! id = Some stored /\ usr = withoutPassword stored).
  { intros authorization id usr. unfold protect. split.
    - destruct (bearerToken authorization) as [token |]; [| discriminate].
      destruct (verify token) as [id' |] eqn:Hv; [| discriminate].
      destruct (users !! id') as [usr' |] eqn:Hu; [| discriminate].
      intros [= <- <-]. now exists token, usr'.
    - intros (token & stored & -> & -> & -> & ->). reflexivity. }
  split; [| split; [reflexivity | split; [exact Hiff |]]].
  - intros token Hne Hno. unfold protect. now rewrite bearerToken_sent.
  - intros authorization id usr Hg.
    apply Hiff in Hg as (token & stored & Hb & Hv & _ & ->).
    split; [reflexivity |].
    destruct (bearerToken_shape _ _ Hb) as (Hne & Hno & header & rest & -> & ->).
    now exists token, rest.
Qed.

Lemma protect_reads_the_client_header_witness :
  protect demoVerify demoUsers (authorizationHeader (Some (demoSign "a1")))
  = Granted "a1" (mkUser "GeoHuntAdmin" None None (Some "admin@geohunt.com")
                         None "admin" 0) /\
  demoUsers !! "a1"
  = Some (mkUser "GeoHuntAdmin" None None (Some "admin@geohunt.com")
                 (Some "hash") "admin" 0).
Proof.
  split; [| reflexivity].
  rewrite (proj1 (protect_reads_the_client_header demoVerify demoUsers)
             (demoSign "a1")).
  - reflexivity.
  - discriminate.
  - unfold hasNoSpace. simpl. intuition discriminate.
Defined.

(** X14.  Behind the admin routes nothing happens without an admin: the
    handler runs only for a request whose token verifies to an existing
    user with role "admin", and then it runs with that user's id; every
    other request is answered 401 or 403 and the server state is exactly
    what it was. *)
Theorem admin_routes_need_an_admin {A : Type}
    (verify : string -> option ObjectId)
    (handler : ObjectId -> Server -> Server * Reply A)
    (srv : Server) (authorization : option string) :
  (exists id usr token,
     bearerToken authorization = Some token /\ verify token = Some id /\
     Users srv !! id = Some usr /\ role usr = "admin" /\
     adminRoute verify handler srv authorization = handler id srv) \/
  (exists status error,
     adminRoute verify handler srv authorization = (srv, Rejected status error) /\
     (status = 401 \/ status = 403)).
Proof.
  unfold adminRoute, protect.
  destruct (bearerToken authorization) as [token |] eqn:Hb;
    [| right; eexists _, _; split; [reflexivity | now left]].
  destruct (verify token) as [id |] eqn:Hv;
    [| right; eexists _, _; split; [reflexivity | now left]].
  destruct (Users srv !! id) as [usr |] eqn:Hu;
    [| right; eexists _, _; split; [reflexivity | now left]].
  cbn [authorize withoutPassword role].
  destruct (includes (role usr) ["admin"]) eqn:Hr.
  - left. exists id, usr, token. repeat split; try assumption.
    apply includes_In in Hr as [Hr | []]. now symmetry.
  - right. eexists _, _. split; [reflexivity | now right].
Qed.

(** ** Deleting users and changing roles *)

(** X15.  [deleteUser] answers 404 for an unknown id and 400 for the
    requester's own id, changing nothing.  Otherwise the user and the
    user's progress record are gone, every other user and record, the
    catalog and the player counter are untouched, and a token of the deleted
    user is from then on refused by [protect] with 401 'User not found'.
    Through the admin route the requester is never the user that
    disappears: the requester's stored record is there afterwards,
    unchanged. *)
Theorem deleteUser_removes_user_and_progress
    (id requester : ObjectId) (srv : Server) :
  (Users srv !! id = None ->
     deleteUser id requester srv = (srv, Rejected 404 "User not found")) /\
  (forall usr, Users srv !! id = Some usr -> id = requester ->
     deleteUser id requester srv = (srv, Rejected 400 "Cannot delete yourself")) /\
  (forall usr, Users srv !! id = Some usr -> id <> requester ->
     let srv' := fst (deleteUser id requester srv) in
     snd (deleteUser id requester srv) = Sent 200 tt None /\
     Users srv' !! id = None /\
     findOne id (store srv') = None /\
     (forall v, v <> id -> Users srv' !! v = Users srv !! v) /\
     (forall v, v <> id -> findOne v (store srv') = findOne v (store srv)) /\
     Treasures (store srv') = Treasures (store srv) /\
     playerCount srv' = playerCount srv /\
     (forall verify authorization token,
        bearerToken authorization = Some token -> verify token = Some id ->
        protect verify (Users srv') authorization = Denied 401 "User not found")) /\
  (forall verify authorization rid rusr,
     protect verify (Users srv) authorization = Granted rid rusr ->
     exists stored,
       Users srv !! rid = Some stored /\ rusr = withoutPassword stored /\
       Users (fst (deleteUserRoute verify srv authorization id)) !! rid
       = Some stored).
Proof.
  split; [| split; [| split]].
  - intros Hnone. unfold deleteUser. now rewrite Hnone.
  - intros usr Hsome ->. unfold deleteUser. now rewrite Hsome, String.eqb_refl.
  - intros usr Hsome Hne. unfold deleteUser. rewrite Hsome.
    apply String.eqb_neq in Hne. rewrite Hne. cbn [fst snd].
    cbn [Users store playerCount Treasures]. unfold findOne. cbn [Progress].
    split; [reflexivity |].
    split; [apply lookup_delete_eq |]. split; [apply lookup_delete_eq |].
    split; [intros v Hv; now apply lookup_delete_ne |].
    split; [intros v Hv; now apply lookup_delete_ne |].
    split; [reflexivity |]. split; [reflexivity |].
    intros verify authorization token Hb Hv. unfold protect.
    now rewrite Hb, Hv, lookup_delete_eq.
  - intros verify authorization rid rusr Hg.
    unfold deleteUserRoute, adminRoute. rewrite Hg. cbn [authorize].
    assert (Hr : exists stored, Users srv !! rid = Some stored /\
                                rusr = withoutPassword stored).
    { unfold protect in Hg.
      destruct (bearerToken authorization); [| discriminate].
      destruct (verify s); [| discriminate].
      destruct (Users srv !! o) as [stored |] eqn:E; [| discriminate].
      injection Hg as <- <-. now exists stored. }
    destruct Hr as (stored & Hr & ->). exists stored.
    split; [exact Hr |]. split; [reflexivity |].
    destruct (includes (role (withoutPassword stored)) ["admin"]); [| exact Hr].
    unfold deleteUser. destruct (Users srv !! id) as [usr |]; [| exact Hr].
    destruct (String.eqb_spec id rid) as [-> | Hne]; [exact Hr |].
    cbn [fst Users]. rewrite lookup_delete_ne by assumption. exact Hr.
Qed.

Lemma deleteUser_removes_user_and_progress_witness :
  Users (fst (deleteUser "u1" "a1" demoServer)) !! "u1" = None /\
  deleteUser "a1" "a1" demoServer
    = (demoServer, Rejected 400 "Cannot delete yourself") /\
  deleteUser "u7" "a1" demoServer = (demoServer, Rejected 404 "User not found").
Proof.
  pose proof (deleteUser_removes_user_and_progress "u1" "a1" demoServer)
    as (_ & _ & H3 & _).
  pose proof (deleteUser_removes_user_and_progress "a1" "a1" demoServer)
    as (_ & H2 & _).
  pose proof (deleteUser_removes_user_and_progress "u7" "a1" demoServer)
    as (H1 & _).
  split; [| split].
  - apply (H3 (mkUser "Aaron" (Some "aaron1") (Some 1) None None "user" 5)
              eq_refl ltac:(discriminate)).
  - exact (H2 _ eq_refl eq_refl).
  - exact (H1 eq_refl).
Defined.

(** X16.  [updateUserRole] accepts only the roles "user" and "admin"; any
    other value is answered 400 and nothing changes, and an unknown id is
    answered 404.  Otherwise the stored user's role, and nothing else, is
    replaced, the answer carries the updated user without the password
    hash, and the new role decides the user's next admin request: with the
    new role "admin" the handler behind an admin route runs, with the new
    role "user" the request is answered 403.  No user is exempt; an admin
    can be demoted like anyone else. *)
Theorem updateUserRole_takes_effect
    (id : ObjectId) (newRole : string) (srv : Server) :
  (newRole <> "user" -> newRole <> "admin" ->
     updateUserRole id newRole srv
     = (srv, Rejected 400 "Invalid role. Must be user or admin")) /\
  (newRole = "user" \/ newRole = "admin" ->
     (Users srv !! id = None ->
        updateUserRole id newRole srv = (srv, Rejected 404 "User not found")) /\
     (forall usr, Users srv !! id = Some usr ->
        let srv' := fst (updateUserRole id newRole srv) in
        snd (updateUserRole id newRole srv)
        = Sent 200 (withoutPassword (set_role newRole usr)) None /\
        Users srv' !! id = Some (set_role newRole usr) /\
        (forall v, v <> id -> Users srv' !! v = Users srv !! v) /\
        store srv' = store srv /\ playerCount srv' = playerCount srv /\
        (forall (A : Type) verify (handler : ObjectId -> Server -> Server * Reply A)
                authorization token,
           bearerToken authorization = Some token -> verify token = Some id ->
           adminRoute verify handler srv' authorization
           = if String.eqb newRole "admin" then handler id srv'
             else (srv', Rejected 403
                           "User role 'user' is not authorized to access this route")))).
Proof.
  split.
  - intros H1 H2. unfold updateUserRole.
    assert (Hinc : includes newRole ["user"; "admin"] = false).
    { apply includes_false. intros [H | [H | []]]; congruence. }
    now rewrite Hinc.
  - intros Hvalid.
    assert (Hinc : includes newRole ["user"; "admin"] = true).
    { apply includes_In. destruct Hvalid as [-> | ->]; [now left | right; now left]. }
    unfold updateUserRole. rewrite Hinc. cbn [negb]. split.
    + intros Hnone. now rewrite Hnone.
    + intros usr Hsome. rewrite Hsome. cbn [fst snd Users store playerCount].
      split; [reflexivity |]. split; [apply lookup_insert_eq |].
      split; [intros v Hv; now apply lookup_insert_ne |].
      split; [reflexivity |]. split; [reflexivity |].
      intros A verify handler authorization token Hb Hv.
      unfold adminRoute, protect. cbn [Users].
      rewrite Hb, Hv, lookup_insert_eq.
      cbn [authorize role set_role withoutPassword].
      destruct Hvalid as [-> | ->]; reflexivity.
Qed.

Lemma updateUserRole_takes_effect_witness :
  Users (fst (updateUserRole "a1" "user" demoServer)) !! "a1"
  = Some (mkUser "GeoHuntAdmin" None None (Some "admin@geohunt.com")
                 (Some "hash") "user" 0) /\
  snd (updateUserRole "a1" "user" demoServer)
  = Sent 200 (mkUser "GeoHuntAdmin" None None (Some "admin@geohunt.com")
                     None "user" 0) None /\
  updateUserRole "a1" "owner" demoServer
  = (demoServer, Rejected 400 "Invalid role. Must be user or admin").
Proof.
  pose proof (proj2 (proj2 (updateUserRole_takes_effect "a1" "user" demoServer)
                       (or_introl eq_refl))
                (mkUser "GeoHuntAdmin" None None (Some "admin@geohunt.com")
                        (Some "hash") "admin" 0) eq_refl) as (Hreply & Hstored & _).
  split; [exact Hstored |]. split; [exact Hreply |].
  apply (proj1 (updateUserRole_takes_effect "a1" "owner" demoServer));
    discriminate.
Defined.

(** ** Registration and the player id *)

Module PlayerIdFacts.

Lemma allChars_app (ok : ascii -> bool) (a b : string) :
  allChars ok (a ++ b) = allChars ok a && allChars ok b.
Proof.
  induction a as [| c a IH]; [reflexivity |].
  rewrite ScannerFacts.append_String. cbn [allChars]. rewrite IH.
  now rewrite andb_assoc.
Qed.

Lemma allChars_weaken (ok ok' : ascii -> bool) (s : string) :
  (forall c, ok c = true -> ok' c = true) ->
  allChars ok s = true -> allChars ok' s = true.
Proof.
  intros Himp. induction s as [| c s IH]; [reflexivity |]. cbn [allChars].
  rewrite !andb_true_iff. intros [Hc Hs]. auto.
Qed.

Lemma keepChars_all (keep : ascii -> bool) (s : string) :
  allChars keep (keepChars keep s) = true.
Proof.
  induction s as [| c s IH]; [reflexivity |]. cbn [keepChars].
  destruct (keep c) eqn:Hk; [cbn [allChars]; now rewrite Hk, IH | exact IH].
Qed.

Lemma pretty_N_char_digit (x : N) : isDigit (pretty_N_char x) = true.
Proof. unfold pretty_N_char. repeat case_match; reflexivity. Qed.

Lemma pretty_N_go_digits (x : N) (s : string) :
  allChars isDigit s = true -> allChars isDigit (pretty_N_go x s) = true.
Proof.
  revert s. induction (N.lt_wf_0 x) as [x _ IH]. intros s Hs.
  destruct (N.eq_dec x 0%N) as [-> | Hx]; [now rewrite pretty_N_go_0 |].
  rewrite pretty_N_go_step by lia. apply IH.
  - apply N.div_lt; lia.
  - cbn [allChars]. now rewrite pretty_N_char_digit, Hs.
Qed.

Lemma pretty_digits (n : Z) : 0 <= n -> allChars isDigit (pretty n) = true.
Proof.
  intros Hn. destruct n as [| p | p]; [reflexivity | | lia].
  unfold pretty, pretty_Z, pretty, pretty_positive, pretty, pretty_N.
  destruct (decide (N.pos p = 0%N)); [reflexivity |].
  now apply pretty_N_go_digits.
Qed.

Lemma pretty_nonempty (n : Z) : 0 <= n -> pretty n <> "".
Proof.
  intros Hn Hp. assert (H0 : pretty 0 <> pretty n).
  { destruct (Z.eq_dec n 0) as [-> | Hne]; [rewrite Hp; discriminate |].
    intros H. apply (inj pretty) in H. congruence. }
  destruct n as [| p | p]; [discriminate Hp | | lia].
  pose proof (pretty_N_go_ne_0 (N.pos p) "" ltac:(discriminate)) as Hz.
  unfold pretty, pretty_Z, pretty, pretty_positive, pretty, pretty_N in Hp.
  destruct (decide (N.pos p = 0%N)); [discriminate |].
  clear H0 Hz.
  assert (Hlen : forall x s, (String.length s <= String.length (pretty_N_go x s))%nat).
  { intros x. induction (N.lt_wf_0 x) as [x _ IH]. intros s.
    destruct (N.eq_dec x 0%N) as [-> | Hx]; [rewrite pretty_N_go_0; lia |].
    rewrite pretty_N_go_step by lia.
    etransitivity; [| apply IH; apply N.div_lt; lia]. simpl. lia. }
  rewrite pretty_N_go_step in Hp by lia.
  specialize (Hlen (N.pos p `div` 10)%N
                (String (pretty_N_char (N.pos p `mod` 10)) "")).
  rewrite Hp in Hlen. simpl in Hlen. lia.
Qed.

Lemma lowerChar_keeps (c : ascii) :
  isLowerAlnum c = true -> lowerChar c = c.
Proof.
  unfold isLowerAlnum, lowerChar. intros H.
  destruct ((65 <=? nat_of_ascii c) && (nat_of_ascii c <=? 90))%nat eqn:Hup;
    [| reflexivity].
  exfalso. apply andb_true_iff in Hup as [H1 H2].
  apply Nat.leb_le in H1, H2.
  apply orb_true_iff in H as [H | H]; apply andb_true_iff in H as [H3 H4];
    apply Nat.leb_le in H3, H4; lia.
Qed.

Lemma toLowerCase_keeps (s : string) :
  allChars isLowerAlnum s = true -> toLowerCase s = s.
Proof.
  induction s as [| c s IH]; [reflexivity |]. cbn [allChars toLowerCase].
  rewrite andb_true_iff. intros [Hc Hs]. now rewrite lowerChar_keeps, IH.
Qed.

Lemma digit_is_alnum (c : ascii) : isDigit c = true -> isLowerAlnum c = true.
Proof. unfold isDigit, isLowerAlnum. intros ->. apply orb_true_r. Qed.

Lemma makePlayerId_alnum (name : string) (n : Z) :
  0 <= n -> allChars isLowerAlnum (makePlayerId name n) = true.
Proof.
  intros Hn. unfold makePlayerId, cleanUsername. rewrite allChars_app.
  rewrite keepChars_all. cbn [andb].
  apply (allChars_weaken isDigit); [apply digit_is_alnum | now apply pretty_digits].
Qed.

Lemma lastChar_digit (c : string) (d : string) (x : ascii) :
  lastChar c = Some x -> allChars isDigit (c ++ d) = true -> isDigit x = true.
Proof.
  induction c as [| a c IH]; [discriminate |].
  rewrite ScannerFacts.append_String. cbn [allChars].
  rewrite andb_true_iff. intros Hl [Ha Hrest].
  destruct c as [| b c]; [now injection Hl as <- |].
  apply IH; [exact Hl | exact Hrest].
Qed.

Lemma endsWithDigit_tail (a : ascii) (c : string) :
  endsWithDigit (String a c) = false -> endsWithDigit c = false.
Proof.
  unfold endsWithDigit. destruct c as [| b c]; [reflexivity |].
  cbn [lastChar]. auto.
Qed.

Lemma lastChar_some (a : ascii) (c : string) : lastChar (String a c) <> None.
Proof.
  revert a. induction c as [| b c IH]; intros a; [discriminate |].
  cbn [lastChar]. apply IH.
Qed.

(** Digits cannot end with a text that does not end in a digit. *)
Lemma digits_no_such_prefix (b : ascii) (c d d' : string) :
  allChars isDigit d' = true -> endsWithDigit (String b c) = false ->
  d' <> (String b c ++ d)%string.
Proof.
  intros Hd He Heq. unfold endsWithDigit in He.
  destruct (lastChar (String b c)) as [x |] eqn:Hl;
    [| now apply (lastChar_some b c)].
  rewrite Heq in Hd. rewrite (lastChar_digit _ _ _ Hl Hd) in He. discriminate.
Qed.

(** A text made of a part that does not end in a digit followed by digits
    splits in one way only. *)
Lemma digits_suffix_unique (c1 c2 d1 d2 : string) :
  allChars isDigit d1 = true -> allChars isDigit d2 = true ->
  endsWithDigit c1 = false -> endsWithDigit c2 = false ->
  (c1 ++ d1)%string = (c2 ++ d2)%string ->
  c1 = c2 /\ d1 = d2.
Proof.
  intros Hd1 Hd2. revert c2.
  induction c1 as [| a c1 IH]; intros [| b c2] He1 He2 Heq.
  - now split.
  - exfalso. exact (digits_no_such_prefix b c2 d2 d1 Hd1 He2 Heq).
  - exfalso. exact (digits_no_such_prefix a c1 d1 d2 Hd2 He1 (eq_sym Heq)).
  - rewrite !ScannerFacts.append_String in Heq. injection Heq as -> Heq.
    destruct (IH c2 (endsWithDigit_tail _ _ He1) (endsWithDigit_tail _ _ He2) Heq)
      as [-> ->].
    now split.
Qed.

End PlayerIdFacts.

Lemma findUserByPlayerId_some (pid : string) (users : gmap ObjectId User)
    (k : ObjectId) (usr : User) :
  findUserByPlayerId pid users = Some (k, usr) ->
  users !! k = Some usr /\ playerId usr = Some pid.
Proof.
  unfold findUserByPlayerId. intros H. apply find_some in H as [Hin Hp].
  apply list_elem_of_In, elem_of_map_to_list in Hin. split; [exact Hin |].
  cbn [snd] in Hp. destruct (playerId usr) as [p |]; [| discriminate].
  apply String.eqb_eq in Hp. now subst.
Qed.

Lemma findUserByPlayerId_none (pid : string) (users : gmap ObjectId User) :
  findUserByPlayerId pid users = None ->
  forall k usr, users !! k = Some usr -> playerId usr <> Some pid.
Proof.
  unfold findUserByPlayerId. intros H k usr Hk Hp.
  assert (Hin : In (k, usr) (map_to_list users))
    by (apply list_elem_of_In, elem_of_map_to_list; exact Hk).
  apply (find_none _ _ H) in Hin. cbn [snd] in Hin.
  rewrite Hp, String.eqb_refl in Hin. discriminate.
Qed.

Lemma findUserByPlayerId_new (pid : string) (users : gmap ObjectId User)
    (k : ObjectId) (usr : User) :
  findUserByPlayerId pid users = None ->
  playerId usr = Some pid ->
  findUserByPlayerId pid (<[k := usr]> users) = Some (k, usr).
Proof.
  intros Hnone Hpid.
  destruct (findUserByPlayerId pid (<[k := usr]> users)) as [[k' usr'] |] eqn:Hf.
  - apply findUserByPlayerId_some in Hf as [Hl Hp].
    rewrite lookup_insert in Hl. case_decide as Hk.
    + injection Hl as <-. now subst.
    + exfalso. exact (findUserByPlayerId_none pid users Hnone k' usr' Hl Hp).
  - exfalso.
    apply (findUserByPlayerId_none pid _ Hf k usr); [apply lookup_insert_eq | exact Hpid].
Qed.

(** What a registration that is answered 201 has done. *)
Lemma register_created (sign : ObjectId -> string) (now : Z) (newId : ObjectId)
    (srv srv' : Server) (name : option string)
    (status : Z) (token : string) (isNew : bool) (id : ObjectId) (nm : string)
    (pid : option string) (number : option Z) (message : option string) :
  register sign now newId srv name
    = (srv', AuthSent status token isNew id nm pid number message) ->
  exists raw,
    name = Some raw /\ raw <> "" /\ trim raw <> "" /\
    (String.length (trim raw) <= 30)%nat /\
    Users srv !! newId = None /\
    findUserByPlayerId (makePlayerId raw (playerCount srv + 1)) (Users srv) = None /\
    findOne newId (store srv) = None /\
    status = 201 /\ token = sign newId /\ isNew = true /\ id = newId /\
    nm = trim raw /\
    pid = Some (makePlayerId raw (playerCount srv + 1)) /\
    number = Some (playerCount srv + 1) /\
    message = Some (welcomeMessage raw (makePlayerId raw (playerCount srv + 1))) /\
    srv' = mkServer (fst (create now newId (store srv)))
                    (<[newId := mkUser (trim raw)
                                       (Some (makePlayerId raw (playerCount srv + 1)))
                                       (Some (playerCount srv + 1))
                                       None None "user" now]> (Users srv))
                    (playerCount srv + 1).
Proof.
  unfold register. destruct name as [raw |]; [| discriminate].
  destruct (String.eqb_spec raw "") as [| Hraw]; [discriminate |]. cbn [orb].
  destruct (Nat.eqb_spec (String.length (trim raw)) 0) as [| Hlen]; [discriminate |].
  destruct (Nat.ltb_spec 30 (String.length (trim raw))) as [| Hmax]; [discriminate |].
  destruct (Users srv !! newId) eqn:Hfresh; [discriminate |].
  destruct (findUserByPlayerId _ (Users srv)) eqn:Hpid; [discriminate |].
  destruct (findOne newId (store srv)) eqn:Hone; [discriminate |].
  intros [= <- <- <- <- <- <- <- <- <-].
  exists raw. repeat split; try assumption; try reflexivity.
  intros Ht. rewrite Ht in Hlen. now apply Hlen.
Qed.

(** X17.  A registration answered 201 has consumed the next player number
    and stored, under the new id and leaving every other user alone, a user
    with the submitted name trimmed, role "user", that number, and the
    player id made of the cleaned submitted name (lower case, letters and
    digits only) followed by the number; it has created the initial
    progress record, leaving the catalog and every other progress record
    alone, and its answer carries that name, player id and number and the
    welcome message.  The player id handed out logs the player back
    in: a login with it, typed in any mix of letter case, is answered 200
    with the same user id, name, player id and number. *)
Theorem register_then_login (sign : ObjectId -> string) (now : Z)
    (newId : ObjectId) (srv srv' : Server) (name : option string)
    (status : Z) (token : string) (isNew : bool) (id : ObjectId) (nm : string)
    (pid : option string) (number : option Z) (message : option string) :
  0 <= playerCount srv ->
  register sign now newId srv name
    = (srv', AuthSent status token isNew id nm pid number message) ->
  exists raw thePid,
    name = Some raw /\
    thePid = (cleanUsername raw ++ pretty (playerCount srv + 1))%string /\
    status = 201 /\ id = newId /\ token = sign newId /\ isNew = true /\
    nm = trim raw /\ pid = Some thePid /\
    number = Some (playerCount srv + 1) /\
    message = Some (welcomeMessage raw thePid) /\
    playerCount srv' = playerCount srv + 1 /\
    Users srv' !! newId
    = Some (mkUser (trim raw) (Some thePid) (Some (playerCount srv + 1))
                   None None "user" now) /\
    (forall v, v <> newId -> Users srv' !! v = Users srv !! v) /\
    findOne newId (store srv') = Some (mkUserProgress newId [] 0 [] 1 None now) /\
    (forall v, v <> newId -> findOne v (store srv') = findOne v (store srv)) /\
    Treasures (store srv') = Treasures (store srv) /\
    thePid <> "" /\
    allChars isLowerAlnum thePid = true /\
    toLowerCase thePid = thePid /\
    forall typed, toLowerCase typed = thePid ->
      loginWithPlayerId sign srv' (Some typed)
      = AuthSent 200 (sign newId) false newId (trim raw) (Some thePid)
                 (Some (playerCount srv + 1)) None.
Proof.
  intros Hcount Hreg.
  destruct (register_created _ _ _ _ _ _ _ _ _ _ _ _ _ _ Hreg)
    as (raw & -> & Hraw & Htrim & Hmax & Hfresh & Hpid & Hone
        & -> & -> & -> & -> & -> & -> & -> & -> & ->).
  exists raw, (makePlayerId raw (playerCount srv + 1)).
  set (thePid := makePlayerId raw (playerCount srv + 1)) in *.
  cbn [playerCount Users store].
  split; [reflexivity |]. split; [reflexivity |].
  repeat (split; [reflexivity |]).
  split; [apply lookup_insert_eq |].
  split; [intros v Hv; now apply lookup_insert_ne |].
  split; [unfold findOne, create, save; cbn [fst Progress]; apply lookup_insert_eq |].
  split; [intros v Hv; unfold findOne, create, save; cbn [fst Progress];
          now apply lookup_insert_ne |].
  split; [reflexivity |].
  assert (Halnum : allChars isLowerAlnum thePid = true)
    by (apply PlayerIdFacts.makePlayerId_alnum; lia).
  assert (Hne : thePid <> "").
  { unfold thePid, makePlayerId. intros H.
    destruct (cleanUsername raw); [| discriminate H].
    cbn [String.append] in H.
    apply (PlayerIdFacts.pretty_nonempty (playerCount srv + 1)); [lia | exact H]. }
  split; [exact Hne |].
  split; [exact Halnum |].
  split; [now apply PlayerIdFacts.toLowerCase_keeps |].
  intros typed Htyped. unfold loginWithPlayerId.
  destruct (String.eqb_spec typed "") as [-> | _].
  { cbn [toLowerCase] in Htyped. congruence. }
  rewrite Htyped. cbn [Users].
  erewrite (findUserByPlayerId_new thePid (Users srv) newId);
    [reflexivity | exact Hpid | reflexivity].
Qed.

Lemma register_then_login_witness :
  exists srv',
    fst (register demoSign 10 "u2" demoServer (Some "  Bob Smith ")) = srv' /\
    Users srv' !! "u2"
    = Some (mkUser "Bob Smith" (Some "bobsmith2") (Some 2) None None "user" 10) /\
    loginWithPlayerId demoSign srv' (Some "BobSmith2")
    = AuthSent 200 "tok-u2" false "u2" "Bob Smith" (Some "bobsmith2") (Some 2) None.
Proof.
  eexists. split; [reflexivity |].
  assert (Hreg : register demoSign 10 "u2" demoServer (Some "  Bob Smith ")
                 = (fst (register demoSign 10 "u2" demoServer (Some "  Bob Smith ")),
                    AuthSent 201 "tok-u2" true "u2" "Bob Smith" (Some "bobsmith2")
                      (Some 2)
                      (Some (welcomeMessage "  Bob Smith " "bobsmith2"))))
    by (vm_compute; reflexivity).
  destruct (register_then_login demoSign 10 "u2" demoServer _ _ _ _ _ _ _ _ _ _
              ltac:(simpl; lia) Hreg)
    as (raw & thePid & [= <-] & -> & _ & _ & _ & _ & _ & _ & _ & _ & _
        & Hstored & _ & _ & _ & _ & _ & _ & _ & Hlogin).
  split; [exact Hstored |].
  apply Hlogin. reflexivity.
Defined.

(** X18.  The player id determines the player: when neither cleaned name
    ends in a digit, two player ids are equal only if the cleaned names and
    the numbers are.  For a cleaned name that ends in a digit this fails
    (the ids of "a1" with number 2 and of "a" with number 12 are both
    "a12"), and a registration whose id is already taken is answered 400
    'Duplicate field value entered' after its number has been consumed. *)
Theorem makePlayerId_injective (name1 name2 : string) (n1 n2 : Z) :
  (0 <= n1 -> 0 <= n2 ->
   endsWithDigit (cleanUsername name1) = false ->
   endsWithDigit (cleanUsername name2) = false ->
   makePlayerId name1 n1 = makePlayerId name2 n2 ->
   cleanUsername name1 = cleanUsername name2 /\ n1 = n2) /\
  makePlayerId "a1" 2 = makePlayerId "a" 12 /\
  (forall sign now newId srv hit,
     name1 <> "" -> trim name1 <> "" ->
     (String.length (trim name1) <= 30)%nat ->
     findUserByPlayerId (makePlayerId name1 (playerCount srv + 1)) (Users srv)
       = Some hit ->
     register sign now newId srv (Some name1)
     = (mkServer (store srv) (Users srv) (playerCount srv + 1),
        AuthRejected 400 (inl "Duplicate field value entered"))).
Proof.
  split; [| split; [reflexivity |]].
  - intros H1 H2 He1 He2 Heq. unfold makePlayerId in Heq.
    destruct (PlayerIdFacts.digits_suffix_unique _ _ _ _
                (PlayerIdFacts.pretty_digits n1 H1)
                (PlayerIdFacts.pretty_digits n2 H2) He1 He2 Heq) as [Hc Hp].
    split; [exact Hc |]. now apply (inj pretty).
  - intros sign now newId srv hit Hraw Htrim Hmax Hhit. unfold register.
    apply String.eqb_neq in Hraw. rewrite Hraw. cbn [orb].
    destruct (Nat.eqb_spec (String.length (trim name1)) 0) as [H0 | _].
    { destruct (trim name1); [congruence | discriminate H0]. }
    destruct (Nat.ltb_spec 30 (String.length (trim name1))) as [| _]; [lia |].
    rewrite Hhit. destruct (Users srv !! newId); reflexivity.
Qed.

Lemma makePlayerId_injective_witness :
  cleanUsername "Bob Smith" = cleanUsername "bob-smith" /\ 7 = 7.
Proof.
  apply (proj1 (makePlayerId_injective "Bob Smith" "bob-smith" 7 7));
    try lia; reflexivity.
Defined.

(** ** Player numbers *)

Lemma register_effect (sign : ObjectId -> string) (now : Z) (newId : ObjectId)
    (srv : Server) (name : option string) :
  let srv' := fst (register sign now newId srv name) in
  (srv' = srv) \/
  (playerCount srv' = playerCount srv + 1 /\
   (Users srv' = Users srv \/
    (Users srv !! newId = None /\
     exists usr, playerNumber usr = Some (playerCount srv + 1) /\
                 Users srv' = <[newId := usr]> (Users srv)))).
Proof.
  cbn zeta. unfold register. destruct name as [raw |]; [| now left].
  destruct (String.eqb raw "" || (String.length (trim raw) =? 0)%nat); [now left |].
  destruct (30 <? String.length (trim raw))%nat; [right; split; [reflexivity | now left] |].
  destruct (Users srv !! newId) eqn:Hfresh;
    [right; split; [reflexivity | now left] |].
  destruct (findUserByPlayerId _ (Users srv));
    [right; split; [reflexivity | now left] |].
  destruct (findOne newId (store srv)); right; (split; [reflexivity |]); right;
    (split; [reflexivity |]); eexists; (split; [| reflexivity]); reflexivity.
Qed.

Lemma handleAccount_fresh (sign : ObjectId -> string) (srv : Server)
    (r : AccountRequest) :
  numbersFresh srv ->
  numbersFresh (handleAccount sign srv r) /\
  playerCount srv <= playerCount (handleAccount sign srv r).
Proof.
  intros [Hle Hdis]. destruct r as [now newId name | id requester | id newRole];
    cbn [handleAccount].
  - destruct (register_effect sign now newId srv name)
      as [-> | [Hc [Hu | (Hfresh & usr & Hn & Hu)]]].
    + split; [now split | lia].
    + split; [| lia]. split.
      * intros k u n Hk Hnum. rewrite Hu in Hk. rewrite Hc.
        specialize (Hle k u n Hk Hnum). lia.
      * intros k1 k2 u1 u2 n. rewrite Hu. apply Hdis.
    + split; [| lia]. split.
      * intros k u n. rewrite Hu, Hc, lookup_insert. case_decide.
        -- intros [= <-] Hnum. rewrite Hn in Hnum. injection Hnum as <-. lia.
        -- intros Hk Hnum. specialize (Hle k u n Hk Hnum). lia.
      * intros k1 k2 u1 u2 n. rewrite Hu, !lookup_insert.
        repeat case_decide; subst; try congruence.
        -- intros [= <-] Hk2 Hn1 Hn2. rewrite Hn in Hn1. injection Hn1 as <-.
           specialize (Hle k2 u2 _ Hk2 Hn2). lia.
        -- intros Hk1 [= <-] Hn1 Hn2. rewrite Hn in Hn2. injection Hn2 as <-.
           specialize (Hle k1 u1 _ Hk1 Hn1). lia.
        -- apply Hdis.
  - unfold deleteUser.
    destruct (Users srv !! id) as [victim |]; cbn [fst];
      [| split; [now split | lia]].
    destruct (String.eqb id requester); cbn [fst]; [split; [now split | lia] |].
    unfold numbersFresh. cbn [Users playerCount]. split; [| lia]. split.
    + intros k usr n Hk Hn. apply lookup_delete_Some in Hk as [_ Hk].
      now apply (Hle k usr n).
    + intros k1 k2 u1 u2 n Hk1 Hk2.
      apply lookup_delete_Some in Hk1 as [_ Hk1].
      apply lookup_delete_Some in Hk2 as [_ Hk2]. now apply (Hdis k1 k2 u1 u2 n).
  - unfold updateUserRole.
    destruct (negb (includes newRole ["user"; "admin"])); cbn [fst];
      [split; [now split | lia] |].
    destruct (Users srv !! id) as [usr |] eqn:Hid; cbn [fst];
      [| split; [now split | lia]].
    unfold numbersFresh. cbn [Users playerCount]. split; [| lia].
    assert (Hback : forall k u n,
               <[id := set_role newRole usr]> (Users srv) !! k = Some u ->
               playerNumber u = Some n ->
               exists u', Users srv !! k = Some u' /\ playerNumber u' = Some n).
    { intros k u n. rewrite lookup_insert. case_decide.
      - intros [= <-] Hn. subst k. exists usr. now split.
      - intros Hk Hn. now exists u. }
    split.
    + intros k u n Hk Hn. destruct (Hback k u n Hk Hn) as (u' & Hk' & Hn').
      now apply (Hle k u' n).
    + intros k1 k2 u1 u2 n Hk1 Hk2 Hn1 Hn2.
      destruct (Hback k1 u1 n Hk1 Hn1) as (u1' & Hk1' & Hn1').
      destruct (Hback k2 u2 n Hk2 Hn2) as (u2' & Hk2' & Hn2').
      now apply (Hdis k1 k2 u1' u2' n).
Qed.

Lemma handleAccount_count (sign : ObjectId -> string) (srv : Server)
    (r : AccountRequest) :
  playerCount srv <= playerCount (handleAccount sign srv r).
Proof.
  destruct r as [now newId name | id requester | id newRole]; cbn [handleAccount].
  - destruct (register_effect sign now newId srv name) as [-> | [Hc _]]; lia.
  - unfold deleteUser. destruct (Users srv !! id); cbn [fst]; [| lia].
    destruct (String.eqb id requester); cbn [fst playerCount]; lia.
  - unfold updateUserRole.
    destruct (negb (includes newRole ["user"; "admin"])); cbn [fst]; [lia |].
    destruct (Users srv !! id); cbn [fst playerCount]; lia.
Qed.

Lemma serveAccounts_count (sign : ObjectId -> string) (rs : list AccountRequest)
    (srv : Server) :
  playerCount srv <= playerCount (serveAccounts sign srv rs).
Proof.
  unfold serveAccounts. revert srv.
  induction rs as [| r rs IH]; intros srv; [simpl; lia |].
  cbn [fold_left]. pose proof (handleAccount_count sign srv r).
  specialize (IH (handleAccount sign srv r)). lia.
Qed.

(** The number a registration hands out is the counter's next value, and
    the counter has moved to it. *)
Lemma register_handedOut (sign : ObjectId -> string) (now : Z) (newId : ObjectId)
    (srv : Server) (name : option string) (n : Z) :
  handedOut (snd (register sign now newId srv name)) = Some n ->
  n = playerCount srv + 1 /\
  playerCount (fst (register sign now newId srv name)) = playerCount srv + 1.
Proof.
  destruct (register sign now newId srv name) as [srv' reply] eqn:Hreg.
  destruct reply as [status error | status token isNew id nm pid number message];
    cbn [snd fst handedOut]; [discriminate |].
  intros ->.
  destruct (register_created _ _ _ _ _ _ _ _ _ _ _ _ _ _ Hreg)
    as (raw & _ & _ & _ & _ & _ & _ & _ & _ & _ & _ & _ & _ & _ & Hn & _ & ->).
  injection Hn as ->. split; reflexivity.
Qed.

Lemma serveAccounts_app (sign : ObjectId -> string) (srv : Server)
    (rs1 rs2 : list AccountRequest) :
  serveAccounts sign srv (rs1 ++ rs2)
  = serveAccounts sign (serveAccounts sign srv rs1) rs2.
Proof. unfold serveAccounts. apply fold_left_app. Qed.

Lemma serveAccounts_fresh (sign : ObjectId -> string) (rs : list AccountRequest)
    (srv : Server) :
  numbersFresh srv -> numbersFresh (serveAccounts sign srv rs).
Proof.
  unfold serveAccounts. revert srv.
  induction rs as [| r rs IH]; intros srv Hf; [exact Hf |].
  cbn [fold_left]. apply IH. now apply handleAccount_fresh.
Qed.

(** X19.  Player numbers are never reused.  Whatever registrations, user
    deletions and role changes the server answers one after the other, from
    a state in which no two users hold the same player number and none
    holds a number above the counter: that stays so, the counter never goes
    down, and the number handed out by any later registration is greater
    than every number held by a user at the start, than every number held
    by a user now, and than the number handed out by every earlier
    registration of the sequence.  In particular the number of a player
    deleted in between is not handed out again. *)
Theorem player_numbers_are_never_reused (sign : ObjectId -> string)
    (srv : Server) (rs : list AccountRequest) :
  numbersFresh srv ->
  numbersFresh (serveAccounts sign srv rs) /\
  playerCount srv <= playerCount (serveAccounts sign srv rs) /\
  (forall now newId name n,
     handedOut (snd (register sign now newId (serveAccounts sign srv rs) name))
       = Some n ->
     (forall id usr m,
        Users srv !! id = Some usr -> playerNumber usr = Some m -> m < n) /\
     (forall id usr m,
        Users (serveAccounts sign srv rs) !! id = Some usr ->
        playerNumber usr = Some m -> m < n) /\
     (forall rs1 rs2 now0 id0 name0 n0,
        rs = rs1 ++ Register now0 id0 name0 :: rs2 ->
        handedOut (snd (register sign now0 id0 (serveAccounts sign srv rs1) name0))
          = Some n0 ->
        n0 < n)).
Proof.
  intros Hf.
  pose proof (serveAccounts_fresh sign rs srv Hf) as Hf'.
  pose proof (serveAccounts_count sign rs srv) as Hc.
  split; [exact Hf' |]. split; [exact Hc |].
  intros now newId name n Hn.
  apply register_handedOut in Hn as [-> _].
  split; [| split].
  - intros id usr m Hid Hm. pose proof (proj1 Hf id usr m Hid Hm). lia.
  - intros id usr m Hid Hm. pose proof (proj1 Hf' id usr m Hid Hm). lia.
  - intros rs1 rs2 now0 id0 name0 n0 -> Hn0.
    apply register_handedOut in Hn0 as [-> Hcount].
    rewrite serveAccounts_app.
    change (serveAccounts sign (serveAccounts sign srv rs1)
              (Register now0 id0 name0 :: rs2))
      with (serveAccounts sign
              (fst (register sign now0 id0 (serveAccounts sign srv rs1) name0)) rs2).
    pose proof (serveAccounts_count sign rs2
                  (fst (register sign now0 id0 (serveAccounts sign srv rs1) name0))).
    lia.
Qed.

Lemma emptyServer_fresh : numbersFresh emptyServer.
Proof.
  split.
  - intros id usr n H. cbn in H. now rewrite lookup_empty in H.
  - intros id1 id2 usr1 usr2 n H. cbn in H. now rewrite lookup_empty in H.
Qed.

Lemma player_numbers_are_never_reused_witness :
  handedOut (snd (register demoSign 10 "u2" emptyServer (Some "Bob"))) = Some 1 /\
  Users (serveAccounts demoSign emptyServer
           [Register 10 "u2" (Some "Bob"); DeleteUser "u2" "a1"]) !! "u2" = None /\
  handedOut (snd (register demoSign 11 "u3"
                    (serveAccounts demoSign emptyServer
                       [Register 10 "u2" (Some "Bob"); DeleteUser "u2" "a1"])
                    (Some "Bob"))) = Some 2 /\
  1 < 2.
Proof.
  split; [vm_compute; reflexivity |]. split; [vm_compute; reflexivity |].
  split; [vm_compute; reflexivity |].
  destruct (player_numbers_are_never_reused demoSign emptyServer
              [Register 10 "u2" (Some "Bob"); DeleteUser "u2" "a1"]
              emptyServer_fresh) as (_ & _ & H).
  destruct (H 11 "u3" (Some "Bob") 2 ltac:(vm_compute; reflexivity)) as (_ & _ & H3).
  apply (H3 [] [DeleteUser "u2" "a1"] 10 "u2" (Some "Bob") 1 eq_refl).
  vm_compute; reflexivity.
Defined.

(** ** The leaderboard *)

Module LeaderboardFacts.

Lemma insertByPoints_perm (p : UserProgress) (l : list UserProgress) :
  Permutation (insertByPoints p l) (p :: l).
Proof.
  induction l as [| q rest IH]; [reflexivity |].
  cbn [insertByPoints]. destruct (totalPoints q <? totalPoints p); [reflexivity |].
  rewrite IH. apply perm_swap.
Qed.

Lemma sortByPoints_perm (l : list UserProgress) :
  Permutation (sortByPoints l) l.
Proof.
  induction l as [| p l IH]; [reflexivity |].
  cbn [sortByPoints fold_right]. rewrite insertByPoints_perm.
  now apply perm_skip.
Qed.

Lemma insertByPoints_sorted (p : UserProgress) (l : list UserProgress) :
  StronglySorted ahead l -> StronglySorted ahead (insertByPoints p l).
Proof.
  induction 1 as [| q rest Hs IH Hall]; cbn [insertByPoints].
  - repeat constructor.
  - destruct (Z.ltb_spec (totalPoints q) (totalPoints p)) as [Hlt | Hge].
    + constructor; [now constructor |].
      constructor; [unfold ahead; lia |].
      eapply Forall_impl; [exact Hall |]. unfold ahead. intros r Hr. lia.
    + constructor; [exact IH |].
      apply Forall_forall. intros r Hr. apply list_elem_of_In in Hr.
      apply (Permutation_in _ (insertByPoints_perm p rest)) in Hr.
      destruct Hr as [<- | Hr]; [exact Hge |].
      rewrite Forall_forall in Hall. now apply Hall, list_elem_of_In.
Qed.

Lemma sortByPoints_sorted (l : list UserProgress) :
  StronglySorted ahead (sortByPoints l).
Proof.
  induction l as [| p l IH]; [constructor |].
  cbn [sortByPoints fold_right]. now apply insertByPoints_sorted.
Qed.

Lemma sorted_lookup (l : list UserProgress) (i j : nat) (p q : UserProgress) :
  StronglySorted ahead l -> (i <= j)%nat ->
  l !! i = Some p -> l !! j = Some q -> totalPoints q <= totalPoints p.
Proof.
  intros Hs. revert i j.
  induction Hs as [| r rest Hs IH Hall]; intros i j Hij Hi Hj.
  - discriminate.
  - destruct i as [| i], j as [| j]; cbn in Hi, Hj.
    + injection Hi as <-. injection Hj as <-. lia.
    + injection Hi as <-. rewrite Forall_forall in Hall.
      apply (Hall q). now apply list_elem_of_lookup_2 in Hj.
    + lia.
    + apply (IH i j); [lia | assumption | assumption].
Qed.

Lemma mapWithIndex_lookup {A B : Type} (f : A -> Z -> B) (l : list A)
    (index : Z) (i : nat) :
  mapWithIndex f index l !! i
  = match l !! i with Some x => Some (f x (index + Z.of_nat i)) | None => None end.
Proof.
  revert index i. induction l as [| x rest IH]; intros index i.
  - now destruct i.
  - destruct i as [| i]; cbn [mapWithIndex].
    + cbn. now rewrite Z.add_0_r.
    + cbn [lookup list_lookup]. change ((f x index :: mapWithIndex f (index + 1) rest) !! S i)
        with (mapWithIndex f (index + 1) rest !! i).
      change ((x :: rest) !! S i) with (rest !! i).
      rewrite IH. destruct (rest !! i); [| reflexivity].
      do 2 f_equal. lia.
Qed.

Lemma mapWithIndex_length {A B : Type} (f : A -> Z -> B) (l : list A)
    (index : Z) :
  length (mapWithIndex f index l) = length l.
Proof.
  revert index. induction l as [| x rest IH]; intros index; [reflexivity |].
  cbn [mapWithIndex length]. now rewrite IH.
Qed.

Lemma records_stored (M : gmap ObjectId UserProgress) (p : UserProgress) :
  In p (List.map snd (map_to_list M)) <-> exists u, M !! u = Some p.
Proof.
  rewrite in_map_iff. split.
  - intros ([u q] & <- & Hin). exists u.
    apply list_elem_of_In in Hin. now apply elem_of_map_to_list in Hin.
  - intros (u & Hu). exists (u, p). split; [reflexivity |].
    apply list_elem_of_In. now apply elem_of_map_to_list.
Qed.

End LeaderboardFacts.

(** X20.  The answer of [getLeaderboard], for a limit the database accepts:
    [count] is the number of lines; with a positive limit that number is the
    smaller of the limit (10 when the parameter is absent, not a number or
    zero) and the number of progress records; the line at index [i] has rank
    [i + 1] and shows the points, level, badges, number of treasures and
    name of a stored record; points never rise from one line to the next;
    and a stored record with more points than a line is shown on a line
    above it. *)
Theorem getLeaderboard_ranks_the_top_players
    (srv : Server) (parsed : option Z) :
  Z.abs (limitOr10 parsed) < 2 ^ 63 ->
  let count := fst (getLeaderboard srv parsed) in
  let data := snd (getLeaderboard srv parsed) in
  count = Z.of_nat (length data) /\
  (0 < limitOr10 parsed ->
   count = Z.min (limitOr10 parsed) (Z.of_nat (size (Progress (store srv))))) /\
  (forall i e, data !! i = Some e ->
     exists u p, findOne u (store srv) = Some p /\
                 e = formatEntry (Users srv) p (Z.of_nat i)) /\
  (forall i j ei ej, (i <= j)%nat -> data !! i = Some ei -> data !! j = Some ej ->
     Leaderboard.points ej <= Leaderboard.points ei) /\
  (forall i e u p, data !! i = Some e -> findOne u (store srv) = Some p ->
     Leaderboard.points e < totalPoints p ->
     exists j, (j < i)%nat /\
               data !! j = Some (formatEntry (Users srv) p (Z.of_nat j))).
Proof.
  intros _. cbv zeta. unfold getLeaderboard. cbv zeta. cbn [fst snd].
  set (recs := List.map snd (map_to_list (Progress (store srv)))).
  set (n := Z.to_nat (if limitOr10 parsed <? 0
                      then Z.min (- limitOr10 parsed) 101 else limitOr10 parsed)).
  assert (Hlim : limit (limitOr10 parsed) (sortByPoints recs)
                 = take n (sortByPoints recs)) by reflexivity.
  rewrite Hlim.
  assert (Hshown : forall i e,
             mapWithIndex (formatEntry (Users srv)) 0 (take n (sortByPoints recs)) !! i
             = Some e ->
             exists p, (i < n)%nat /\ sortByPoints recs !! i = Some p /\
                       e = formatEntry (Users srv) p (Z.of_nat i)).
  { intros i e He. rewrite LeaderboardFacts.mapWithIndex_lookup in He.
    destruct (take n (sortByPoints recs) !! i) as [p |] eqn:Hp; [| discriminate].
    apply lookup_take_Some in Hp as [Hp Hin]. injection He as <-.
    exists p. now rewrite Z.add_0_l. }
  split; [reflexivity |]. split; [| split; [| split]].
  - intros Hpos. rewrite LeaderboardFacts.mapWithIndex_length, length_take.
    rewrite (Permutation_length (LeaderboardFacts.sortByPoints_perm recs)).
    unfold recs. rewrite length_map, length_map_to_list.
    subst n. destruct (Z.ltb_spec (limitOr10 parsed) 0) as [Hneg | _]; [lia |].
    lia.
  - intros i e He. destruct (Hshown i e He) as (p & _ & Hp & ->).
    apply list_elem_of_lookup_2, list_elem_of_In in Hp.
    apply (Permutation_in _ (LeaderboardFacts.sortByPoints_perm recs)) in Hp.
    apply LeaderboardFacts.records_stored in Hp as (u & Hu).
    now exists u, p.
  - intros i j ei ej Hij Hi Hj.
    destruct (Hshown i ei Hi) as (p & _ & Hp & ->).
    destruct (Hshown j ej Hj) as (q & _ & Hq & ->).
    cbn [formatEntry Leaderboard.points].
    exact (LeaderboardFacts.sorted_lookup _ i j p q
             (LeaderboardFacts.sortByPoints_sorted recs) Hij Hp Hq).
  - intros i e u p Hi Hu Hlt.
    destruct (Hshown i e Hi) as (q & Hin & Hq & ->).
    cbn [formatEntry Leaderboard.points] in Hlt.
    assert (Hp : In p (sortByPoints recs)).
    { apply (Permutation_in _ (Permutation_sym (LeaderboardFacts.sortByPoints_perm recs))).
      apply LeaderboardFacts.records_stored. now exists u. }
    apply list_elem_of_In, list_elem_of_lookup_1 in Hp as (j & Hj).
    destruct (Nat.lt_ge_cases j i) as [Hji | Hij].
    + exists j. split; [exact Hji |].
      rewrite LeaderboardFacts.mapWithIndex_lookup, lookup_take_lt, Hj by lia.
      now rewrite Z.add_0_l.
    + pose proof (LeaderboardFacts.sorted_lookup _ i j q p
                    (LeaderboardFacts.sortByPoints_sorted recs) Hij Hq Hj). lia.
Qed.

Lemma getLeaderboard_ranks_the_top_players_witness :
  Z.abs (limitOr10 (Some 2)) < 2 ^ 63 /\
  List.map Leaderboard.username (snd (getLeaderboard demoBoard (Some 2)))
  = ["Unknown Hunter"; "Aaron"] /\
  fst (getLeaderboard demoBoard (Some 2))
  = Z.min (limitOr10 (Some 2)) (Z.of_nat (size (Progress (store demoBoard)))).
Proof.
  assert (H : Z.abs (limitOr10 (Some 2)) < 2 ^ 63) by (vm_compute; reflexivity).
  split; [exact H |]. split; [vm_compute; reflexivity |].
  apply (proj1 (proj2 (getLeaderboard_ranks_the_top_players demoBoard (Some 2) H))).
  vm_compute; reflexivity.
Defined.
